(* ===== verification/_CoqProject ===== *)
-Q . S2P
Prelude.v
Md5.v
LogicalId.v
Constructs.v
Cidr.v
Resources.v
Network.v
SecurityGroups.v
Iam.v
Elb.v
Ecs.v
Stack.v
Traffic.v
TrafficEquiv.v
Health.v
Layout.v
Typing.v
Access.v
Synth.v
