(* ===== verification/Prelude.v ===== *)
(** * A verification development of Type-Task, an AWS CDK stack

    The repository declares one CDK stack, [TypeTaskStack]
    (src/lib/type-task-stack.ts), that the entry point
    src/bin/type-task.ts instantiates once under a fresh [cdk.App].
    src/test/type-task.test.ts synthesises the stack and checks two
    template assertions.  The constructor is a straight-line sequence of
    construct creations and mutations:

      Vpc -> Cluster -> ALB security group (+ ingress :80 from anywhere)
      -> Fargate task definition -> container (addContainer)
      -> service security group (+ ingress :8080 from the ALB group)
      -> FargateService -> container.addPortMappings(8080)
      -> ApplicationLoadBalancer -> addListener(:80, open)
      -> addTargets(:8080, [service], health check) -> CfnOutput.

    Every call goes to aws-cdk-lib and the constructs library.  These
    libraries hold the state (the construct tree and the objects it
    holds), throw the errors, and decide what is synthesised.  This
    development therefore models the construct tree as explicit state
    and each library call as an operation of a state-and-error monad.
    The stack constructor, the app and the test are the exact sequence
    of these calls that the TypeScript source makes.

    ** Files and what they model

    - [Prelude] (this file): the result type [result] (the value, or the
      message of the Error thrown), the state-and-error monad [M] with
      stdpp's [x ← m; k] notation, Hoare triples for partial and total
      correctness ([hoare], [total]), the invariant judgement [preserves]
      with its composition rules, the frame judgement [local] (an
      operation only reads and writes its own part of a tree), the hint
      database [cdk] and the [Ltac]s [preserve], [inv_bind] and [localize].
    - [Md5], [LogicalId]: the MD5 digest of RFC 1321 on 32-bit words
      written as [Z] with their wrap-around, [makeUniqueId], which
      names every resource of the template (and gives [Names.uniqueId],
      from which the ids of group-to-group rules are made), and
      [makeUniqueResourceName], which shortens a stack name that is too
      long.
    - [Constructs]: the construct tree of the constructs library, a
      [gmap] from paths ([list string]) to nodes.  [add_child] models
      [Node.addChild] with its three errors (empty id, missing scope,
      duplicate id); [sanitize_id] models the id sanitising.  The
      invariant [tree_wf] says every node's parent exists.
    - [Cidr]: IPv4 addresses and CIDR blocks as [Z] below 2^32,
      [NetworkUtils.ipToNum]/[numToIp], and the [NetworkBuilder]
      allocation that the [Vpc] uses to cut its range into subnets.
    - [Resources]: the nodes of the tree, one constructor per construct
      kind the stack creates, props records that mirror the object
      literals of the source, [deref] and [set_node] (reading and
      writing a node; object references are paths, so two holders of a
      reference see the same object), and the class [StInv] of the
      properties both keep.
    - [Network], [SecurityGroups], [Ecs], [Elb]: [ec2.Vpc] (subnets per
      zone, internet and NAT routes, [selectSubnets]), [ec2.SecurityGroup]
      ([addIngressRule], [addEgressRule], [Connections]), [ecs.Cluster],
      [FargateTaskDefinition], [addContainer], [addPortMappings],
      [FargateService], [elbv2.ApplicationLoadBalancer], [addListener] and
      [addTargets].  [Elb] states the target interface
      ([IApplicationLoadBalancerTarget]) as the class [AppTarget]; [Ecs]
      gives the service's instance.
    - [Iam]: [iam.Role], [Role.addToPrincipalPolicy] and its
      [DefaultPolicy], [Grant.addToPrincipal] and [logs.LogGroup] with
      [grantWrite]: the task role that [FargateTaskDefinition] makes, and
      the log group, execution role and grant that the container's
      [awslogs] driver makes ([Ecs.aws_log_driver_bind]).
    - [Stack]: [TypeTaskStack]'s constructor, one definition per group of
      statements ([stack_network] for lines 12-30, ..., [stack_output] for
      lines 94-97) composed in the source's order by [type_task_stack],
      and the app entry point [app_main].  [stack_new] models the [Stack]
      constructor: the node, then the name that [makeStackName] makes of
      the ids below the app ([make_stack_name]: one id of at most 128
      characters is kept, a longer one shortened by
      [makeUniqueResourceName]), checked for its length and then against
      the pattern [/^[A-Za-z][A-Za-z0-9-]*$/].
    - [Traffic]: what the deployed security groups, listener and target
      group let through ([sg_admits], [deliver]), and the contract
      [reach_spec] that the stack promises.
    - [TrafficEquiv]: an equivalence of trees coarser than equality (equal
      up to rule descriptions and duplicate rules), stdpp's [Equiv] on
      maps, with [sg_admits] and [deliver] [Proper] for it.
    - [Layout]: the subnets, zones and routes of the deployed VPC, where
      the service and the load balancer run, and what [natGateways]
      decides.
    - [Typing]: the references between constructs and the kinds of node
      they must denote ([well_typed], decided by [refs_okb]).
    - [Health]: the target group's health checks, a state machine per
      target ([health_step], the states [reachable] from registration) fed
      by the outcome of each check ([check_passes]: the load balancer
      reaches the task and the application answers).
    - [Access]: the roles and grants of the deployed tree.
    - [Synth]: the resources of the synthesised template and the two
      assertions of the repository's test.

    ** The theorems
    - The app runs to completion and leaves a well-formed tree
      ([Stack.app_main_ok], by the [preserves] lemmas of every operation).
    - Traffic, for the groups the deployed constructs really hold: the
      service's tasks admit a packet exactly when it carries the ALB's
      group and goes to port 8080, so no internet client reaches them
      directly ([Traffic.service_admits_only_alb]); the ALB's group admits
      an IPv4 packet exactly on port 80 ([Traffic.alb_open_on_80_only]);
      and, for every packet, the forwarding semantics refines
      [reach_spec] ([Traffic.deliver_refines_reach_spec]).  Line 39 is
      redundant with the open listener: the tree without it is
      equivalent, and every packet fares the same
      ([TrafficEquiv.line39_redundant]); in general a rule already
      present up to its description changes nothing
      ([TrafficEquiv.add_ingress_rule_redundant]).
    - Liveness: every check of the service's task reaches it, so a task
      that answers five checks in a row is healthy within 150 s and one
      that fails two is unhealthy within 60 s, from any state of its
      target ([Health.deployed_targets_live]).
    - Least privilege: the only permission of the deployed stack is the
      execution role's right to write the container's logs; the task role
      has none, and the log group has no retention
      ([Access.deployed_least_privilege]); in general, the grants a role
      receives accumulate in its default policy in call order
      ([Iam.role_grants_refine], a total-correctness triple proved with
      [total_for_each]).
    - Statement order and references: the port mapping added after the
      service exists reaches the service ([Stack.port_mapping_reaches_service],
      for any tree); [addTargets] before it throws, on any tree
      ([Stack.add_targets_before_port_mapping]).
    - The template's resources and values ([Synth.template_schema]); its
      resources are named as the library names them, with distinct names
      ([Synth.template_logical_ids]); every id [makeUniqueId] returns is a
      valid logical id ([LogicalId.make_unique_id_wf]), and it throws only
      on a path of [Default]s ([LogicalId.make_unique_id_total]).  [Md5]
      also proves that the digest passes the RFC 1321 suite, pads every
      message into whole blocks and is 16 bytes, and [Synth] that the
      repository's test fails on the template.
    - The VPC layout: four disjoint /24 blocks in 10.0.0.0/16, both private
      subnets behind the one NAT gateway of the first zone, what each
      value of [natGateways] gives, and where the service and the ALB run
      ([Layout]).
    - Library operations on any input: every VPC's subnets are disjoint
      and inside its range ([Network.vpc_new_subnets_disjoint]); the VPC's
      range holds exactly 256 /24 blocks ([Network.default_range_capacity]);
      the [NetworkBuilder] partition and the address round trips ([Cidr]);
      [addListener] with an open listener ([Elb.add_listener_open]);
      [addIngressRule]'s idempotence ([SecurityGroups]); [addPortMappings]
      on both branches ([Ecs]); the stack-name checks: a bad name of at
      most 128 characters throws the pattern error
      ([Stack.type_task_stack_bad_name]), and a longer id is shortened to
      at most 128 characters rather than refused
      ([Stack.type_task_stack_long_id]).  The constructor is also local
      (the [Local] section of [Stack], by the [local] lemmas of every
      operation and the [attach_local] law of the target interface).

    ** Bounds and fuel
    Two definitions take fuel.  [Md5.blocks_fuel] cuts the padded message
    into 64-byte blocks; [Md5.blocks] gives it the message's length as
    fuel, which is enough since each step consumes a whole block of at
    least one byte ([Md5.blocks_fuel_spec] proves the cut complete for any
    fuel at least the number of blocks).  [Cidr.num_to_octets_from] runs
    [numToIp]'s loop, whose count, four, is the fuel.  Every other loop of
    the modelled code runs over a list (subnet configurations, zones,
    port mappings, targets, the characters of an id), so each is a
    structural [Fixpoint] or a [for_each]/[mapM] over the list.
    Addresses are [Z] values in [0, 2^32); the round-trip theorems assume
    that range, which [ipToNum] of four octets in [0, 255] meets.  MD5's
    words are [Z] values reduced modulo 2^32 after every addition and
    rotation.  The health-check thresholds are the load balancer's
    defaults (5 passes, 2 failures) and the interval is line 90's 30 s,
    so the liveness bounds are 150 s and 60 s; the theorems hold for any
    thresholds above zero.  Concrete theorems about the deployed stack
    are decided by evaluating the model ([vm_compute]).

    ** Not modelled
    CloudFormation deployment, the provider APIs and credential handling
    are outside the program.  Token resolution is not modelled; nor are IAM policy
    documents beyond their actions and resources (conditions, managed
    policies, policy minimisation).  The program runs once and stops; its
    only liveness property is that of the health checks it configures,
    which the provider runs: [Health] bounds it by the thresholds, and
    takes the application's answers as an input (the image is not
    modelled).  The traffic theorems describe the configuration the
    program leaves, not a run of the deployed service.  The library code that
    the stack calls lives outside the repository; it is modelled from its
    documented behaviour. *)

From stdpp Require Import base gmap strings list pretty fin_maps.
From Stdlib Require Import ZArith.

Declare Scope cdk_scope.
Delimit Scope cdk_scope with cdk.

(** ** Results: a value, or the message of the [Error] the library throws *)

Inductive result (A : Type) : Type :=
| Ok (a : A)
| Err (msg : string).
Arguments Ok {A} a.
Arguments Err {A} msg.

Definition is_ok {A} (r : result A) : bool :=
  match r with Ok _ => true | Err _ => false end.

(** ** The state-and-error monad of construct code

    [M S A] runs against the state [S] (the construct tree) and either
    returns a value and the new state or throws. *)

Definition M (S A : Type) : Type := S → result (A * S).

#[export] Instance M_ret S : MRet (M S) := λ A a s, Ok (a, s).
#[export] Instance M_bind S : MBind (M S) := λ A B k m s,
  match m s with Ok (a, s') => k a s' | Err e => Err e end.

Definition throw {S A} (e : string) : M S A := λ _, Err e.
Definition get {S} : M S S := λ s, Ok (s, s).
Definition put {S} (s : S) : M S unit := λ _, Ok (tt, s).
Definition modify {S} (f : S → S) : M S unit := λ s, Ok (tt, f s).

(** Run [m] for every element of a list, in order (a [forEach]). *)
Fixpoint for_each {S A} (f : A → M S unit) (l : list A) : M S unit :=
  match l with
  | [] => mret tt
  | x :: l' => f x;; for_each f l'
  end.

Notation "'assert!' b 'else' e ;; k" := (if b then k else throw e)
  (at level 100, b at level 200, e at level 200, k at level 100) : cdk_scope.

(** ** Hoare triples over [M] *)

Section Hoare.
Context {S : Type}.

(** Partial correctness: when [m] returns, [Q] holds. *)
Definition hoare {A} (P : S → Prop) (m : M S A) (Q : A → S → Prop) : Prop :=
  ∀ s a s', P s → m s = Ok (a, s') → Q a s'.

(** Total correctness: [m] returns, and [Q] holds. *)
Definition total {A} (P : S → Prop) (m : M S A) (Q : A → S → Prop) : Prop :=
  ∀ s, P s → ∃ a s', m s = Ok (a, s') ∧ Q a s'.

Lemma bind_Ok {A B} (m : M S A) (k : A → M S B) s r :
  (x ← m; k x) s = Ok r ↔ ∃ a s', m s = Ok (a, s') ∧ k a s' = Ok r.
Proof.
  cbv [mbind M_bind]. split.
  - destruct (m s) as [[a s']|]; [eauto | discriminate].
  - intros (a & s' & -> & ?). done.
Qed.

Lemma bind_Ok_eq {A B} (m : M S A) (k : A → M S B) s a s' :
  m s = Ok (a, s') → (x ← m; k x) s = k a s'.
Proof. intros H. cbv [mbind M_bind]. by rewrite H. Qed.

Lemma bind_Err_eq {A B} (m : M S A) (k : A → M S B) s e :
  m s = Err e → (x ← m; k x) s = Err e.
Proof. intros H. cbv [mbind M_bind]. by rewrite H. Qed.

Lemma hoare_ret {A} (P : A → S → Prop) a : hoare (P a) (mret a) P.
Proof. intros s b s' HP [= <- <-]. done. Qed.

Lemma hoare_bind {A B} P (Q : A → S → Prop) (R : B → S → Prop) m (k : A → M S B) :
  hoare P m Q → (∀ a, hoare (Q a) (k a) R) → hoare P (x ← m; k x) R.
Proof.
  intros Hm Hk s b s' HP (a & s1 & H1 & H2)%bind_Ok.
  exact (Hk a s1 b s' (Hm s a s1 HP H1) H2).
Qed.

Lemma hoare_throw {A} P (Q : A → S → Prop) e : hoare P (throw e) Q.
Proof. intros ????; discriminate. Qed.

Lemma hoare_consequence {A} (P P' : S → Prop) (Q Q' : A → S → Prop) m :
  hoare P' m Q' → (∀ s, P s → P' s) → (∀ a s, Q' a s → Q a s) → hoare P m Q.
Proof. intros H HP HQ s a s' ??. eauto. Qed.

Lemma total_ret {A} (P : A → S → Prop) a : total (P a) (mret a) P.
Proof. intros s HP. by exists a, s. Qed.

Lemma total_bind {A B} P (Q : A → S → Prop) (R : B → S → Prop) m (k : A → M S B) :
  total P m Q → (∀ a, total (Q a) (k a) R) → total P (x ← m; k x) R.
Proof.
  intros Hm Hk s HP. destruct (Hm s HP) as (a & s1 & E1 & HQ).
  destruct (Hk a s1 HQ) as (b & s2 & E2 & HR).
  exists b, s2. split; [|done]. by rewrite (bind_Ok_eq _ _ _ _ _ E1).
Qed.

Lemma total_consequence {A} (P P' : S → Prop) (Q Q' : A → S → Prop) m :
  total P' m Q' → (∀ s, P s → P' s) → (∀ a s, Q' a s → Q a s) → total P m Q.
Proof.
  intros H HP HQ s Hs. destruct (H s (HP s Hs)) as (a & s' & ? & ?). eauto.
Qed.

(** A total triple gives the partial one: the result is unique. *)
Lemma total_hoare {A} P (Q : A → S → Prop) m : total P m Q → hoare P m Q.
Proof.
  intros H s a s' HP E. destruct (H s HP) as (a' & s'' & E' & HQ).
  rewrite E in E'. by simplify_eq.
Qed.

Lemma hoare_for_each {A} (I : S → Prop) (f : A → M S unit) l :
  (∀ x, x ∈ l → hoare I (f x) (λ _, I)) → hoare I (for_each f l) (λ _, I).
Proof.
  induction l as [|x l IH]; intros Hf; simpl.
  - apply (hoare_ret (λ _, I)).
  - eapply hoare_bind; [apply Hf; set_solver|]. intros [].
    apply IH. intros y Hy. apply Hf. set_solver.
Qed.

(** A loop whose every step extends what the invariant records by its
    element returns, and records the whole list. *)
Lemma total_for_each {A} (I : list A → S → Prop) (f : A → M S unit) l :
  (∀ xs x, total (I xs) (f x) (λ _, I (xs ++ [x]))) →
  ∀ xs, total (I xs) (for_each f l) (λ _, I (xs ++ l)).
Proof.
  intros Hf. induction l as [|x l IH]; intros xs; simpl.
  - rewrite app_nil_r. apply (total_ret (λ _, I xs)).
  - eapply total_bind; [apply Hf|]. intros [].
    replace (xs ++ x :: l) with ((xs ++ [x]) ++ l) by by rewrite <-app_assoc. apply IH.
Qed.
End Hoare.

(** ** Invariants: properties every step keeps *)

Section Preserves.
Context {S : Type} (P : S → Prop).

Definition preserves {A} (m : M S A) : Prop := hoare P m (λ _, P).

Lemma preserves_ret {A} (a : A) : preserves (mret a).
Proof. apply (hoare_ret (λ _, P)). Qed.

Lemma preserves_throw {A} e : preserves (A:=A) (throw e).
Proof. apply hoare_throw. Qed.

Lemma preserves_get : preserves get.
Proof. by intros s a s' HP [= <- <-]. Qed.

Lemma preserves_bind {A B} (m : M S A) (k : A → M S B) :
  preserves m → (∀ a, preserves (k a)) → preserves (x ← m; k x).
Proof. intros Hm Hk. eapply hoare_bind; [exact Hm|exact Hk]. Qed.

Lemma preserves_for_each {A} (f : A → M S unit) l :
  (∀ x, preserves (f x)) → preserves (for_each f l).
Proof. intros Hf. apply hoare_for_each. intros x _. apply Hf. Qed.

Lemma preserves_mapM {A B} (f : A → M S B) l :
  (∀ x, preserves (f x)) → preserves (mapM f l).
Proof.
  intros Hf. induction l as [|x l IH]; simpl; [apply preserves_ret|].
  apply preserves_bind; [apply Hf|]. intros b.
  apply preserves_bind; [apply IH|]. intros bs. apply preserves_ret.
Qed.
End Preserves.

(** ** Locality: the frame property of computations on a map *)

Section Frame.
Context {K V : Type} `{Countable K}.

(** A computation on a map is [local] when a successful run removes no key
    and would run the same beside any part [u] disjoint from its final
    map: [u] is neither read nor changed. *)
Definition local {A} (m : M (gmap K V) A) : Prop :=
  ∀ t a t', m t = Ok (a, t') →
    dom t ⊆ dom t' ∧ ∀ u, u ##ₘ t' → m (u ∪ t) = Ok (a, u ∪ t').

Lemma local_ret {A} (a : A) : local (mret a).
Proof. intros t b t' [= <- <-]. split; [done|]. by intros u _. Qed.

Lemma local_throw {A} e : local (A:=A) (throw e).
Proof. intros ????; discriminate. Qed.

(** A part disjoint from a map is disjoint from a smaller one. *)
Lemma map_disjoint_dom_weaken (u t t' : gmap K V) :
  dom t ⊆ dom t' → u ##ₘ t' → u ##ₘ t.
Proof. rewrite !map_disjoint_dom. set_solver. Qed.

Lemma local_bind {A B} (m : M (gmap K V) A) (k : A → M (gmap K V) B) :
  local m → (∀ a, local (k a)) → local (x ← m; k x).
Proof.
  intros Hm Hk t b t' (a & t1 & E1 & E2)%bind_Ok.
  destruct (Hm _ _ _ E1) as [D1 F1]. destruct (Hk _ _ _ _ E2) as [D2 F2].
  split; [set_solver|]. intros u Hu.
  rewrite (bind_Ok_eq _ _ _ a (u ∪ t1)); [by apply F2|].
  apply F1. by eapply map_disjoint_dom_weaken.
Qed.

Lemma local_for_each {A} (f : A → M (gmap K V) unit) l :
  (∀ x, local (f x)) → local (for_each f l).
Proof.
  intros Hf. induction l as [|x l IH]; simpl; [apply local_ret|].
  apply local_bind; [apply Hf|]. intros []. apply IH.
Qed.

Lemma local_mapM {A B} (f : A → M (gmap K V) B) l :
  (∀ x, local (f x)) → local (mapM f l).
Proof.
  intros Hf. induction l as [|x l IH]; simpl; [apply local_ret|].
  apply local_bind; [apply Hf|]. intros b.
  apply local_bind; [apply IH|]. intros bs. apply local_ret.
Qed.

(** A part disjoint from a map with a key inserted: disjoint from the map
    before, and without that key. *)
Lemma map_disjoint_insert_inv (u t : gmap K V) k v :
  u ##ₘ <[k := v]> t → u ##ₘ t ∧ u !! k = None.
Proof.
  intros Hu. split.
  - eapply map_disjoint_dom_weaken; [|exact Hu]. rewrite dom_insert_L. set_solver.
  - eapply map_disjoint_Some_r; [exact Hu|]. by rewrite lookup_insert_eq.
Qed.

(** Reading a key present in [t] gives the same beside a disjoint [u]. *)
Lemma lookup_union_local (u t : gmap K V) k :
  u ##ₘ t → is_Some (t !! k) → (u ∪ t) !! k = t !! k.
Proof.
  intros Hd [v Hv]. rewrite Hv. apply lookup_union_Some_r; [done|exact Hv].
Qed.

(** A key absent from [t] that the run adds is absent from [u]. *)
Lemma lookup_union_fresh (u t t' : gmap K V) k :
  u ##ₘ t' → is_Some (t' !! k) → (u ∪ t) !! k = t !! k.
Proof.
  intros Hd [v Hv]. rewrite lookup_union.
  rewrite (map_disjoint_Some_r u t' k v Hd Hv). by destruct (t !! k).
Qed.

(** Inserting a fresh key keeps every other lookup. *)
Lemma lookup_insert_fresh (t : gmap K V) q x p v :
  t !! q = None → t !! p = Some v → <[q := x]> t !! p = Some v.
Proof. intros Hq Hp. rewrite lookup_insert_ne; [done|]. intros ->. congruence. Qed.
End Frame.

Create HintDb cdk discriminated.
#[export] Hint Constants Opaque : cdk.
#[export] Hint Resolve hoare_ret hoare_throw total_ret local_ret local_throw : cdk.
#[export] Hint Extern 2 (hoare _ (mbind _ _) _) => eapply hoare_bind : cdk.
#[export] Hint Extern 2 (total _ (mbind _ _) _) => eapply total_bind : cdk.

(** ** Shared tactics *)

(** Prove [preserves P m] by following the structure of [m]: binds,
    loops, branches; the steps of the components come from [cdk]. *)
Ltac preserve :=
  repeat first
    [ solve [eauto with cdk]
    | apply preserves_ret | apply preserves_throw | apply preserves_get
    | apply preserves_bind; [|intros ?]
    | apply preserves_for_each; intros ?
    | apply preserves_mapM; intros ?
    | case_match ].

(** Prove [local m] by following the structure of [m], as [preserve]. *)
Ltac localize :=
  repeat first
    [ solve [eauto with cdk]
    | apply local_ret | apply local_throw
    | apply local_bind; [|intros ?]
    | apply local_for_each; intros ?
    | apply local_mapM; intros ?
    | case_match ].

(** Split every [(x ← m; k) s = Ok r] hypothesis into its two steps. *)
Ltac inv_bind :=
  repeat match goal with
  | H : (mbind _ _) _ = Ok _ |- _ =>
      apply bind_Ok in H; destruct H as (? & ? & ? & H)
  | H : Ok _ = Ok _ |- _ => injection H as; subst
  | H : (_, _) = (_, _) |- _ => injection H as; subst
  | H : throw _ _ = Ok _ |- _ => discriminate H
  end.

(** ** Generic list lemmas *)

Lemma NoDup_app_single {A} (l : list A) x : NoDup l → x ∉ l → NoDup (l ++ [x]).
Proof.
  intros Hl Hx. apply NoDup_app. split; [done|]. split; [|by apply NoDup_singleton].
  intros y Hy ->%list_elem_of_singleton. done.
Qed.

(** A list differs from its extension by one element. *)
Lemma app_single_neq {A} (l : list A) x : l ≠ l ++ [x].
Proof. intros H%(f_equal length). rewrite length_app in H. simpl in H. lia. Qed.
