(* ===== verification/Md5.v ===== *)
(** * MD5 (RFC 1321), the hash behind the logical ids of the template

    The library names every CloudFormation resource with
    [makeUniqueId], which hashes the construct path with Node's
    [crypto.createHash('md5')].  This file is that digest, written after
    RFC 1321 over bytes as [Z] values in [0, 256): the 32-bit words are
    [Z] values below [2^32] whose additions wrap ([add32]), the bit
    operations are [Z.land], [Z.lor], [Z.lxor], [Z.shiftl], [Z.shiftr].
    Words are read and written little-endian ([le_word], [le_bytes]).
    The message is padded ([md5_pad]) and cut into blocks of 64 bytes
    ([blocks], by fuel: one step per byte is more than enough); each
    block runs 64 rounds ([md5_round]) from the state of the previous
    one. *)

From stdpp Require Import base list strings.
From Stdlib Require Import ZArith Lia Ascii.

Local Open Scope Z_scope.

(** ** 32-bit words *)

Definition w32 : Z := 2 ^ 32.

Definition add32 (x y : Z) : Z := (x + y) mod w32.

Definition not32 (x : Z) : Z := Z.lxor x (w32 - 1).

(** Rotation left by [c] bits, [0 < c < 32]. *)
Definition rotl32 (x c : Z) : Z :=
  Z.lor (Z.land (Z.shiftl x c) (w32 - 1)) (Z.shiftr x (32 - c)).

(** A little-endian word of up to four bytes. *)
Definition le_word (bs : list Z) : Z := foldr (λ b acc, Z.lor b (Z.shiftl acc 8)) 0 bs.

(** The [n] low bytes of [w], little-endian. *)
Fixpoint le_bytes (n : nat) (w : Z) : list Z :=
  match n with
  | O => []
  | S n => Z.land w 255 :: le_bytes n (Z.shiftr w 8)
  end.

(** ** The constants of RFC 1321 *)

Definition md5_shifts : list Z :=
  [7; 12; 17; 22; 7; 12; 17; 22; 7; 12; 17; 22; 7; 12; 17; 22;
   5; 9; 14; 20; 5; 9; 14; 20; 5; 9; 14; 20; 5; 9; 14; 20;
   4; 11; 16; 23; 4; 11; 16; 23; 4; 11; 16; 23; 4; 11; 16; 23;
   6; 10; 15; 21; 6; 10; 15; 21; 6; 10; 15; 21; 6; 10; 15; 21].

(** [K[i] = floor(|sin(i + 1)| * 2^32)] *)
Definition md5_k : list Z :=
  [3614090360; 3905402710; 606105819; 3250441966;
   4118548399; 1200080426; 2821735955; 4249261313;
   1770035416; 2336552879; 4294925233; 2304563134;
   1804603682; 4254626195; 2792965006; 1236535329;
   4129170786; 3225465664; 643717713; 3921069994;
   3593408605; 38016083; 3634488961; 3889429448;
   568446438; 3275163606; 4107603335; 1163531501;
   2850285829; 4243563512; 1735328473; 2368359562;
   4294588738; 2272392833; 1839030562; 4259657740;
   2763975236; 1272893353; 4139469664; 3200236656;
   681279174; 3936430074; 3572445317; 76029189;
   3654602809; 3873151461; 530742520; 3299628645;
   4096336452; 1126891415; 2878612391; 4237533241;
   1700485571; 2399980690; 4293915773; 2240044497;
   1873313359; 4264355552; 2734768916; 1309151649;
   4149444226; 3174756917; 718787259; 3951481745].

Record md5_state := MD5 { ma : Z; mb : Z; mc : Z; md : Z }.

Definition md5_init : md5_state := MD5 1732584193 4023233417 2562383102 271733878.

(** ** Padding and blocks *)

(** The message, the byte 0x80, zeros up to 56 mod 64, and the length in
    bits as 8 little-endian bytes. *)
Definition md5_pad (msg : list Z) : list Z :=
  let len := Z.of_nat (length msg) in
  msg ++ [128] ++ replicate (Z.to_nat ((55 - len) mod 64)) 0 ++ le_bytes 8 (8 * len).

(** Blocks of 64 bytes; [fuel] bounds the number of blocks. *)
Fixpoint blocks_fuel (fuel : nat) (l : list Z) : list (list Z) :=
  match fuel with
  | O => []
  | S fuel => match l with [] => [] | _ => take 64 l :: blocks_fuel fuel (drop 64 l) end
  end.

Definition blocks (l : list Z) : list (list Z) := blocks_fuel (length l) l.

(** ** The compression function *)

(** The sixteen words of a block. *)
Definition md5_words (blk : list Z) : list Z :=
  map (λ i, le_word (take 4 (drop (4 * i) blk))) (seq 0 16).

(** Round [i]: the round function and message word of its quarter. *)
Definition md5_round (m : list Z) (s : md5_state) (i : nat) : md5_state :=
  let '(MD5 a b c d) := s in
  let '(f, g) :=
    if decide (i < 16)%nat then (Z.lor (Z.land b c) (Z.land (not32 b) d), i)
    else if decide (i < 32)%nat then (Z.lor (Z.land d b) (Z.land (not32 d) c), (5 * i + 1) mod 16)%nat
    else if decide (i < 48)%nat then (Z.lxor b (Z.lxor c d), (3 * i + 5) mod 16)%nat
    else (Z.lxor c (Z.lor b (not32 d)), (7 * i) mod 16)%nat in
  let f' := add32 (add32 (add32 f a) (nth i md5_k 0)) (nth g m 0) in
  MD5 d (add32 b (rotl32 f' (nth i md5_shifts 0))) b c.

Definition md5_block (s : md5_state) (blk : list Z) : md5_state :=
  let s' := foldl (md5_round (md5_words blk)) s (seq 0 64) in
  MD5 (add32 (ma s) (ma s')) (add32 (mb s) (mb s')) (add32 (mc s) (mc s')) (add32 (md s) (md s')).

(** The 16 bytes of the digest. *)
Definition md5 (msg : list Z) : list Z :=
  let s := foldl md5_block md5_init (blocks (md5_pad msg)) in
  le_bytes 4 (ma s) ++ le_bytes 4 (mb s) ++ le_bytes 4 (mc s) ++ le_bytes 4 (md s).

(** [digest('hex')]: two lowercase hexadecimal digits per byte. *)
Definition hex_digit (n : Z) : ascii :=
  match String.get (Z.to_nat n) "0123456789abcdef" with Some c => c | None => "0"%char end.

Fixpoint to_hex (bs : list Z) : string :=
  match bs with
  | [] => EmptyString
  | b :: bs => String (hex_digit (Z.shiftr b 4)) (String (hex_digit (Z.land b 15)) (to_hex bs))
  end.

(** The bytes of a string; the construct ids are ASCII, whose UTF-8
    encoding is the characters' codes. *)
Definition string_bytes (s : string) : list Z :=
  map (λ c, Z.of_nat (nat_of_ascii c)) (String.list_ascii_of_string s).

(** ** Word and byte ranges *)

Create HintDb md5.

Definition in32 (x : Z) : Prop := 0 ≤ x < w32.

Lemma w32_ones : w32 - 1 = Z.ones 32.
Proof. reflexivity. Qed.

(** A value is a word when it is non-negative and has no bit from 32 up. *)
Lemma in32_bits x : 0 ≤ x → (∀ i, 32 ≤ i → Z.testbit x i = false) → in32 x.
Proof.
  intros Hx Hb. assert (E : Z.land x (Z.ones 32) = x).
  { apply Z.bits_inj'. intros i Hi. rewrite Z.land_spec.
    destruct (Z.lt_ge_cases i 32).
    - rewrite Z.ones_spec_low by lia. apply andb_true_r.
    - rewrite Hb by lia. apply andb_false_l. }
  rewrite Z.land_ones in E by lia. rewrite <-E. unfold in32, w32. apply Z.mod_pos_bound. lia.
Qed.

Lemma in32_testbit_high x i : in32 x → 32 ≤ i → Z.testbit x i = false.
Proof.
  intros [? ?] Hi. rewrite <-(Z.mod_small x (2 ^ 32)) by (unfold w32 in *; lia).
  apply Z.mod_pow2_bits_high. lia.
Qed.

Lemma add32_in32 x y : in32 (add32 x y).
Proof. unfold add32, in32, w32. apply Z.mod_pos_bound. lia. Qed.

Lemma land_in32 x y : in32 x → in32 y → in32 (Z.land x y).
Proof.
  intros Hx Hy. apply in32_bits; [apply Z.land_nonneg; left; apply Hx|].
  intros i Hi. by rewrite Z.land_spec, in32_testbit_high.
Qed.

Lemma lor_in32 x y : in32 x → in32 y → in32 (Z.lor x y).
Proof.
  intros Hx Hy. apply in32_bits; [apply Z.lor_nonneg; split; [apply Hx|apply Hy]|].
  intros i Hi. by rewrite Z.lor_spec, !in32_testbit_high.
Qed.

Lemma lxor_in32 x y : in32 x → in32 y → in32 (Z.lxor x y).
Proof.
  intros Hx Hy. apply in32_bits; [apply Z.lxor_nonneg; split; intros; [apply Hy|apply Hx]|].
  intros i Hi. by rewrite Z.lxor_spec, !in32_testbit_high.
Qed.

Lemma mask_in32 : in32 (w32 - 1).
Proof. unfold in32, w32. lia. Qed.

Lemma not32_in32 x : in32 x → in32 (not32 x).
Proof. intros. apply lxor_in32; [done|apply mask_in32]. Qed.

Lemma rotl32_in32 x c : in32 x → 0 < c < 32 → in32 (rotl32 x c).
Proof.
  intros Hx Hc. unfold rotl32. apply lor_in32.
  - rewrite w32_ones, Z.land_ones by lia. unfold in32, w32. apply Z.mod_pos_bound. lia.
  - apply in32_bits; [apply Z.shiftr_nonneg, Hx|].
    intros i Hi. rewrite Z.shiftr_spec by lia. apply in32_testbit_high; [done|lia].
Qed.

#[local] Hint Resolve add32_in32 land_in32 lor_in32 lxor_in32 not32_in32 mask_in32 : md5.

Lemma le_bytes_length n w : length (le_bytes n w) = n.
Proof. revert w. induction n; intros w; simpl; [done|by rewrite IHn]. Qed.

(** Every byte written is a byte, whatever the word. *)
Lemma le_bytes_range n w : Forall (λ b, 0 ≤ b < 256) (le_bytes n w).
Proof.
  revert w. induction n as [|n IH]; intros w; simpl; constructor; [|apply IH].
  change 255 with (Z.ones 8). rewrite Z.land_ones by lia. apply Z.mod_pos_bound. lia.
Qed.

(** ** Padding and blocks *)

Lemma md5_pad_length msg : ∃ n, length (md5_pad msg) = (64 * n)%nat.
Proof.
  unfold md5_pad. rewrite !length_app, length_replicate, le_bytes_length. simpl.
  set (L := Z.of_nat (length msg)).
  pose proof (Z.div_mod (55 - L) 64 ltac:(lia)) as Hd.
  pose proof (Z.mod_pos_bound (55 - L) 64 ltac:(lia)) as Hm.
  set (q := (55 - L) `div` 64) in *. set (k := (55 - L) `mod` 64) in *.
  exists (Z.to_nat (1 - q)). assert (0 ≤ L)%Z by lia. lia.
Qed.

Lemma blocks_fuel_spec n fuel l :
  length l = (64 * n)%nat → (n ≤ fuel)%nat →
  Forall (λ b, length b = 64%nat) (blocks_fuel fuel l) ∧ concat (blocks_fuel fuel l) = l.
Proof.
  revert fuel l. induction n as [|n IH]; intros fuel l Hl Hf.
  - apply nil_length_inv in Hl as ->. by destruct fuel.
  - destruct fuel as [|fuel]; [lia|]. destruct l as [|x l']; [simpl in Hl; lia|].
    cbn [blocks_fuel].
    destruct (IH fuel (drop 64 (x :: l'))) as [Hb Hc]; [rewrite length_drop; lia|lia|].
    split; [constructor; [rewrite length_take; lia|done]|].
    cbn [concat]. rewrite Hc. apply take_drop.
Qed.

(** The padding of RFC 1321 cuts every message into whole blocks:
    the padded message starts with the message, and [blocks] splits it,
    within its fuel, into blocks of exactly 64 bytes that put together
    give it back. *)
Theorem md5_pad_blocks msg :
  take (length msg) (md5_pad msg) = msg ∧
  Forall (λ b, length b = 64%nat) (blocks (md5_pad msg)) ∧
  concat (blocks (md5_pad msg)) = md5_pad msg.
Proof.
  destruct (md5_pad_length msg) as [n Hn].
  split; [unfold md5_pad; by rewrite take_app_length|].
  apply (blocks_fuel_spec n); [done|lia].
Qed.

Lemma to_hex_length bs : String.length (to_hex bs) = (2 * length bs)%nat.
Proof. induction bs as [|b bs IH]; simpl; [done|rewrite IH; lia]. Qed.

(** The digest is 16 bytes, whatever the message, and its hexadecimal
    form is 32 digits. *)
Theorem md5_digest_bytes msg :
  length (md5 msg) = 16%nat ∧ Forall (λ b, 0 ≤ b < 256) (md5 msg) ∧
  String.length (to_hex (md5 msg)) = 32%nat.
Proof.
  assert (Hl : length (md5 msg) = 16%nat) by (unfold md5; by rewrite !length_app, !le_bytes_length).
  split_and!; [done| |].
  - unfold md5. rewrite !Forall_app. split_and!; apply le_bytes_range.
  - by rewrite to_hex_length, Hl.
Qed.

(** The digest agrees with the test suite of RFC 1321 (appendix A.5). *)
Theorem md5_rfc1321_suite :
  to_hex (md5 (string_bytes "")) = "d41d8cd98f00b204e9800998ecf8427e" ∧
  to_hex (md5 (string_bytes "a")) = "0cc175b9c0f1b6a831c399e269772661" ∧
  to_hex (md5 (string_bytes "abc")) = "900150983cd24fb0d6963f7d28e17f72" ∧
  to_hex (md5 (string_bytes "message digest")) = "f96b697d7cb7938d525a2f31aaf161d0" ∧
  to_hex (md5 (string_bytes "abcdefghijklmnopqrstuvwxyz")) = "c3fcd3d76192e4007dfb496cca67e13b" ∧
  to_hex (md5 (string_bytes "ABCDEFGHIJKLMNOPQRSTUVWXYZabcdefghijklmnopqrstuvwxyz0123456789"))
    = "d174ab98d277d9f5a5611c2c9f419d9f" ∧
  to_hex (md5 (string_bytes "12345678901234567890123456789012345678901234567890123456789012345678901234567890"))
    = "57edf4a22be3c955ac49da2e2107b67a".
Proof. split_and!; vm_compute; reflexivity. Qed.
