(* ===== verification/LogicalId.v ===== *)
(** * Logical ids: [makeUniqueId] of aws-cdk-lib

    A CloudFormation element is named, in its stack's template, after the
    ids of the constructs from the stack down to it ([Stack.allocateLogicalId]
    passes these path components to [makeUniqueId]).  The components
    [Default] are dropped; a single component is used as is, without its
    non-alphanumeric characters, when it fits in 255 characters (so that
    templates migrated to the library keep their names); otherwise the id
    is a human part (the components without consecutive duplicates and
    without [Resource], stripped to alphanumerics, cut to 240 characters)
    followed by the first 8 hexadecimal digits, upper case, of the MD5 of
    the components joined with '/'.  No component holds an unresolved
    token here, so the library's check for one is not modelled. *)

From stdpp Require Import base list strings.
From Stdlib Require Import ZArith Lia Ascii.
From S2P Require Import Prelude Md5.

Definition hidden_id : string := "Default".
Definition hidden_from_human_id : string := "Resource".
Definition max_human_len : nat := 240.
Definition max_id_len : nat := 255.
Definition hash_len : nat := 8.

(** [/[A-Za-z0-9]/] *)
Definition is_alnum (c : ascii) : bool :=
  let n := nat_of_ascii c in
  bool_decide (48 ≤ n ≤ 57) || bool_decide (65 ≤ n ≤ 90) || bool_decide (97 ≤ n ≤ 122).

(** [s.replace(/[^A-Za-z0-9]/g, '')] *)
Fixpoint remove_non_alphanumeric (s : string) : string :=
  match s with
  | EmptyString => EmptyString
  | String c s => if is_alnum c then String c (remove_non_alphanumeric s) else remove_non_alphanumeric s
  end.

(** [s.toUpperCase()] on the characters of a hexadecimal digest. *)
Definition upper_char (c : ascii) : ascii :=
  let n := nat_of_ascii c in
  if bool_decide (97 ≤ n ≤ 122) then ascii_of_nat (n - 32) else c.

Fixpoint to_upper (s : string) : string :=
  match s with EmptyString => EmptyString | String c s => String (upper_char c) (to_upper s) end.

(** [s.endsWith(suffix)] *)
Definition ends_with (s suffix : string) : bool :=
  bool_decide (String.list_ascii_of_string suffix `suffix_of` String.list_ascii_of_string s).

(** [removeDupes(path)]: a component is kept unless the last one kept
    ends with it. *)
Definition remove_dupes (path : list string) : list string :=
  foldl (λ ret c,
    match last ret with
    | Some l => if ends_with l c then ret else ret ++ [c]
    | None => [c]
    end) [] path.

(** [pathHash(path)]: [md5(path.join('/')).digest('hex').slice(0, 8).toUpperCase()] *)
Definition path_hash (path : list string) : string :=
  to_upper (String.substring 0 hash_len (to_hex (md5 (string_bytes (String.concat "/" path))))).

(** The human part of an id: the components without consecutive
    duplicates and without [Resource], stripped, cut to 240 characters. *)
Definition human_part (components : list string) : string :=
  String.substring 0 max_human_len
    (String.concat "" (map remove_non_alphanumeric
       (filter (λ x, x ≠ hidden_from_human_id) (remove_dupes components)))).

(** [makeUniqueId(components)] *)
Definition make_unique_id (components : list string) : result string :=
  let components := filter (λ x, x ≠ hidden_id) components in
  match components with
  | [] => Err "Unable to calculate a unique id for an empty set of components"
  | [c] =>
      let top := remove_non_alphanumeric c in
      if decide (String.length top ≤ max_id_len) then Ok top
      else Ok (human_part components +:+ path_hash components)
  | _ => Ok (human_part components +:+ path_hash components)
  end.

(** [splitInMiddle(s, maxLength)]: the first and the last [maxLength / 2]
    characters. *)
Definition split_in_middle (s : string) (max_length : nat) : string :=
  let half := Nat.div max_length 2 in
  String.substring 0 half s +:+ String.substring (String.length s - half) half s.

(** The hashed form of [makeUniqueResourceName]: the human part, split
    in the middle when longer than the room left by the hash, then the
    path hash. *)
Definition hashed_resource_name (components : list string) (max_length : nat) : string :=
  let human := String.concat "" (map remove_non_alphanumeric
                 (filter (λ x, x ≠ hidden_from_human_id) (remove_dupes components))) in
  let max_human := (max_length - hash_len)%nat in
  if decide (max_human < String.length human) then split_in_middle human max_human +:+ path_hash components
  else human +:+ path_hash components.

(** [makeUniqueResourceName(components, { maxLength })], with no prefix,
    separator or allowed special character: a single short component as
    is, without its non-alphanumeric characters; otherwise the hashed
    form. *)
Definition make_unique_resource_name (components : list string) (max_length : nat) : result string :=
  let components := filter (λ x, x ≠ hidden_id) components in
  match components with
  | [] => Err "Unable to calculate a unique resource name for an empty set of components"
  | [c] =>
      let top := remove_non_alphanumeric c in
      if decide (String.length top ≤ max_length) then Ok top
      else Ok (hashed_resource_name components max_length)
  | _ => Ok (hashed_resource_name components max_length)
  end.

(** [stack.allocateLogicalId(element)]: [makeUniqueId] of the ids below
    the stack.  An element's path holds at least its own id, so the error
    of [makeUniqueId] is reached only by a path of [Default]s, which the
    construct tree of the stack does not have; it names such an element
    with the empty id. *)
Definition allocate_logical_id (components : list string) : string :=
  match make_unique_id components with Ok id => id | Err _ => "" end.

(** ** Logical ids are CloudFormation names *)

(** [/^[A-Za-z0-9]*$/] *)
Fixpoint alnum_string (s : string) : bool :=
  match s with EmptyString => true | String c s => is_alnum c && alnum_string s end.

Lemma remove_non_alphanumeric_alnum s : alnum_string (remove_non_alphanumeric s) = true.
Proof. induction s as [|c s IH]; simpl; [done|]. destruct (is_alnum c) eqn:E; simpl; [by rewrite E|done]. Qed.

Lemma alnum_append s1 s2 :
  alnum_string s1 = true → alnum_string s2 = true → alnum_string (s1 +:+ s2) = true.
Proof. induction s1 as [|c s1 IH]; simpl; [done|]. intros [? ?]%andb_prop ?. apply andb_true_intro; auto. Qed.

Lemma length_append s1 s2 : String.length (s1 +:+ s2) = (String.length s1 + String.length s2)%nat.
Proof. induction s1 as [|c s1 IH]; simpl; [done|by rewrite IH]. Qed.

Lemma alnum_substring m s : alnum_string s = true → alnum_string (String.substring 0 m s) = true.
Proof.
  revert s. induction m as [|m IH]; intros [|c s]; simpl; try done.
  intros [-> ?]%andb_prop. by apply IH.
Qed.

Lemma substring_length n m s : (String.length (String.substring n m s) ≤ m)%nat.
Proof.
  revert m s. induction n as [|n IHn]; intros m s.
  - revert s. induction m as [|m IH]; intros [|c s]; simpl; try lia. specialize (IH s). lia.
  - destruct s as [|c s]; simpl; [destruct m; simpl; lia|apply IHn].
Qed.

Lemma alnum_concat l :
  Forall (λ s, alnum_string s = true) l → alnum_string (String.concat "" l) = true.
Proof.
  induction 1 as [|s l Hs Hl IH]; [done|]. destruct l as [|s' l]; [done|].
  change (String.concat "" (s :: s' :: l)) with (s +:+ "" +:+ String.concat "" (s' :: l)).
  by apply alnum_append.
Qed.

Lemma upper_char_alnum c : is_alnum c = true → is_alnum (upper_char c) = true.
Proof.
  unfold upper_char. case_bool_decide as H; [|done]. intros _.
  unfold is_alnum. rewrite nat_ascii_embedding by lia.
  apply orb_true_intro. left. apply orb_true_intro. right. apply bool_decide_eq_true. lia.
Qed.

Lemma to_upper_alnum s : alnum_string s = true → alnum_string (to_upper s) = true.
Proof.
  induction s as [|c s IH]; simpl; [done|]. intros [? ?]%andb_prop.
  apply andb_true_intro. split; [by apply upper_char_alnum|auto].
Qed.

Lemma to_upper_length s : String.length (to_upper s) = String.length s.
Proof. induction s as [|c s IH]; simpl; [done|by rewrite IH]. Qed.

Lemma get_alnum k s c : alnum_string s = true → String.get k s = Some c → is_alnum c = true.
Proof.
  revert k. induction s as [|c' s IH]; intros [|k]; simpl; try discriminate.
  - intros [? ?]%andb_prop. by intros [= <-].
  - intros [? ?]%andb_prop. by apply IH.
Qed.

Lemma hex_digit_alnum n : is_alnum (hex_digit n) = true.
Proof.
  unfold hex_digit. destruct (String.get _ _) eqn:E; [|done].
  by apply (get_alnum _ _ _ (eq_refl : alnum_string "0123456789abcdef" = true) E).
Qed.

Lemma to_hex_alnum bs : alnum_string (to_hex bs) = true.
Proof. induction bs as [|b bs IH]; simpl; [done|]. by rewrite !hex_digit_alnum, IH. Qed.

Lemma path_hash_alnum cs : alnum_string (path_hash cs) = true ∧ (String.length (path_hash cs) ≤ hash_len)%nat.
Proof.
  unfold path_hash. rewrite to_upper_length. split; [|apply substring_length].
  apply to_upper_alnum, alnum_substring, to_hex_alnum.
Qed.

Lemma human_part_alnum cs :
  alnum_string (human_part cs) = true ∧ (String.length (human_part cs) ≤ max_human_len)%nat.
Proof.
  unfold human_part. split; [|apply substring_length].
  apply alnum_substring, alnum_concat, Forall_forall. intros s (s0 & -> & _)%list_elem_of_fmap.
  apply remove_non_alphanumeric_alnum.
Qed.

Lemma hashed_id_wf cs :
  alnum_string (human_part cs +:+ path_hash cs) = true ∧
  (String.length (human_part cs +:+ path_hash cs) ≤ max_id_len)%nat.
Proof.
  destruct (human_part_alnum cs), (path_hash_alnum cs). rewrite length_append.
  split; [by apply alnum_append|unfold max_id_len, max_human_len, hash_len in *; lia].
Qed.

Lemma split_in_middle_length s k : (String.length (split_in_middle s k) ≤ k)%nat.
Proof.
  unfold split_in_middle. rewrite length_append.
  pose proof (substring_length 0 (Nat.div k 2) s).
  pose proof (substring_length (String.length s - Nat.div k 2) (Nat.div k 2) s).
  pose proof (Nat.div_mod k 2 ltac:(lia)). pose proof (Nat.mod_upper_bound k 2 ltac:(lia)). lia.
Qed.

Lemma hashed_resource_name_length cs m :
  (hash_len ≤ m)%nat → (String.length (hashed_resource_name cs m) ≤ m)%nat.
Proof.
  intros Hm. destruct (path_hash_alnum cs) as [_ Hh]. unfold hashed_resource_name.
  case_decide; rewrite length_append; [|lia].
  match goal with |- context [split_in_middle ?s ?k] => pose proof (split_in_middle_length s k) end. lia.
Qed.

(** A name [makeUniqueResourceName] makes fits in its maximum length. *)
Lemma make_unique_resource_name_length cs m name :
  (hash_len ≤ m)%nat → make_unique_resource_name cs m = Ok name → (String.length name ≤ m)%nat.
Proof.
  intros Hm. unfold make_unique_resource_name.
  destruct (filter _ cs) as [|c [|c' l]]; [discriminate| |];
    [case_decide; intros [= <-]; [lia|]|intros [= <-]]; by apply hashed_resource_name_length.
Qed.

(** [makeUniqueResourceName] returns a name whenever some component is
    not [Default]. *)
Lemma make_unique_resource_name_ok cs m :
  (∃ c, c ∈ cs ∧ c ≠ hidden_id) → ∃ name, make_unique_resource_name cs m = Ok name.
Proof.
  intros (c & Hc & Hne). unfold make_unique_resource_name.
  destruct (filter _ cs) as [|x [|y l]] eqn:E; [|case_decide|]; eauto.
  assert (Hin : c ∈ filter (λ x, x ≠ hidden_id) cs) by (apply list_elem_of_filter; done).
  rewrite E in Hin. by apply not_elem_of_nil in Hin.
Qed.

(** (C14) Every id [makeUniqueId] returns is a valid CloudFormation logical
    id: letters and digits only, at most 255 characters. *)
Theorem make_unique_id_wf cs id :
  make_unique_id cs = Ok id → alnum_string id = true ∧ (String.length id ≤ 255)%nat.
Proof.
  unfold make_unique_id. destruct (filter _ cs) as [|c [|c' l]] eqn:E; [discriminate| |];
    [case_decide; intros [= <-]|intros [= <-]]; try apply hashed_id_wf.
  split; [apply remove_non_alphanumeric_alnum|done].
Qed.


Lemma make_unique_id_wf_witness :
  alnum_string "VPCB9E5F0B4" = true ∧ (String.length "VPCB9E5F0B4" ≤ 255)%nat.
Proof. apply (make_unique_id_wf ["VPC"; "Resource"]). vm_compute. reflexivity. Defined.
