(* ===== verification/Constructs.v ===== *)
(** * The construct tree of the constructs library

    Every [new X(scope, id, props)] of src/lib/type-task-stack.ts
    registers a node in the construct tree through [Node]'s constructor
    and [Node.addChild].  The tree is modelled as a [gmap] from paths,
    the ids from the root, to nodes of an arbitrary payload type [N]
    (the kinds of [Resources]).  An object reference in the TypeScript
    source is the path of its node here, so a later mutation through one
    reference is seen through every other reference to the same node.
    A TypeScript reference always denotes a live construct; a path need
    not, so [add_child] refuses a scope that is not in the tree.  The
    refusal never fires on the program (theorem [Stack.app_main_ok]), and
    it makes well-formedness an invariant of every operation. *)

From stdpp Require Import base gmap strings list fin_maps.
From Stdlib Require Import Ascii.
From S2P Require Import Prelude.

Abbreviation path := (list string).

(** [sanitizeId]: the path separator "/" in an id becomes "--". *)
Fixpoint sanitize_id (s : string) : string :=
  match s with
  | EmptyString => EmptyString
  | String c s' =>
      if Ascii.ascii_dec c "/"%char then "--" +:+ sanitize_id s'
      else String c (sanitize_id s')
  end.

(** The printed path of a node ([node.path]): its ids joined by "/". *)
Definition path_str (p : path) : string := String.concat "/" p.

Section Tree.
Context {N : Type}.
Implicit Types (t : gmap path N) (p scope : path) (n : N).

(** [new Node(host, scope, id)]: sanitise the id, refuse an empty one,
    then [scope.node.addChild(host, id)], which refuses a name already
    used by a child of [scope]. *)
Definition add_child (scope : path) (id : string) (n : N) : M (gmap path N) path :=
  let cid := sanitize_id id in
  if decide (cid = "") then throw "Only root constructs may have an empty ID" else
  t ← get;
  if decide (t !! scope = None) then throw ("not a construct: " +:+ path_str scope) else
  match t !! (scope ++ [cid]) with
  | Some _ =>
      throw ("There is already a Construct with name '" +:+ cid +:+ "' in ["
             +:+ path_str scope +:+ "]")
  | None => put (<[scope ++ [cid] := n]> t);; mret (scope ++ [cid])
  end.

(** [node.tryFindChild(id)] *)
Definition try_find_child (t : gmap path N) (scope : path) (id : string) : option N :=
  t !! (scope ++ [sanitize_id id]).

(** Well-formedness: every node but the root hangs under a node. *)
Definition tree_wf (t : gmap path N) : Prop :=
  ∀ p x n, t !! (p ++ [x]) = Some n → is_Some (t !! p).

(** A node of a well-formed tree has all its ancestors in the tree. *)
Lemma tree_wf_prefix t p q n :
  tree_wf t → t !! (p ++ q) = Some n → is_Some (t !! p).
Proof.
  intros Hwf. revert n. induction q as [|x q IH] using rev_ind; intros n Hn.
  - rewrite app_nil_r in Hn. eauto.
  - rewrite app_assoc in Hn. destruct (Hwf _ _ _ Hn) as [n' Hn']. eauto.
Qed.

(** So a path that is not in a well-formed tree has an empty subtree. *)
Lemma tree_wf_fresh_subtree t p q :
  tree_wf t → t !! p = None → t !! (p ++ q) = None.
Proof.
  intros Hwf Hp. destruct (t !! (p ++ q)) as [n|] eqn:E; [|done].
  destruct (tree_wf_prefix t p q n Hwf E) as [? Hs]. congruence.
Qed.

Lemma tree_wf_insert_child t p x n :
  tree_wf t → is_Some (t !! p) → tree_wf (<[p ++ [x] := n]> t).
Proof.
  intros Hwf Hp q y m Hq. destruct (decide (q = p ++ [x])) as [->|Hne].
  { rewrite lookup_insert_eq. eauto. }
  rewrite lookup_insert_ne by done.
  destruct (decide (p ++ [x] = q ++ [y])) as [E|E].
  - by apply app_inj_tail in E as [-> _].
  - rewrite lookup_insert_ne in Hq by done. eauto.
Qed.

(** Updating the payload of an existing node keeps the shape. *)
Lemma tree_wf_insert_existing t p n n' :
  tree_wf t → t !! p = Some n' → tree_wf (<[p := n]> t).
Proof.
  intros Hwf Hp q y m Hq. destruct (decide (q = p)) as [->|Hne].
  { rewrite lookup_insert_eq. eauto. }
  rewrite lookup_insert_ne by done.
  destruct (decide (p = q ++ [y])) as [->|E]; [by eapply Hwf|].
  rewrite lookup_insert_ne in Hq by done. by eapply Hwf.
Qed.

(** The cases of [add_child], errors included. *)
Lemma add_child_Ok scope id n t p t' :
  add_child scope id n t = Ok (p, t') ↔
    sanitize_id id ≠ "" ∧ is_Some (t !! scope) ∧ t !! (scope ++ [sanitize_id id]) = None ∧
    p = scope ++ [sanitize_id id] ∧ t' = <[p := n]> t.
Proof.
  unfold add_child. case_decide as Hid; [split; [discriminate|intros (? & _); congruence]|].
  cbv [mbind M_bind mret M_ret get put throw].
  case_decide as Hs; cbn; [split; [discriminate|intros (_ & [? ?] & _); congruence]|].
  destruct (t !! (scope ++ [sanitize_id id])) eqn:E; cbn; split.
  - discriminate.
  - intros (_ & _ & ? & _). congruence.
  - intros [= <- <-]. split; [done|]. split; [by apply not_eq_None_Some|done].
  - intros (_ & _ & _ & -> & ->). done.
Qed.

Lemma add_child_empty_id scope id n t :
  sanitize_id id = "" →
  add_child scope id n t = Err "Only root constructs may have an empty ID".
Proof. intros H. unfold add_child. by rewrite decide_True. Qed.

Lemma add_child_duplicate scope id n t n' :
  sanitize_id id ≠ "" → is_Some (t !! scope) → t !! (scope ++ [sanitize_id id]) = Some n' →
  add_child scope id n t =
    Err ("There is already a Construct with name '" +:+ sanitize_id id +:+ "' in ["
         +:+ path_str scope +:+ "]").
Proof.
  intros Hid [m Hs] H. unfold add_child. rewrite decide_False by done.
  cbv [mbind M_bind get throw]. rewrite decide_False by congruence. by rewrite H.
Qed.

(** [add_child] keeps the tree well formed and puts the node at the
    returned path, a child of [scope]. *)
Lemma add_child_wf scope id n :
  hoare tree_wf (add_child scope id n)
        (λ p t, tree_wf t ∧ t !! p = Some n ∧ p = scope ++ [sanitize_id id]).
Proof.
  intros t p t' Hwf (_ & Hs & _ & -> & ->)%add_child_Ok.
  split; [by apply tree_wf_insert_child|]. by rewrite lookup_insert_eq.
Qed.

(** It returns whenever the scope exists and the id is not empty and
    still free. *)
Lemma add_child_total scope id n :
  sanitize_id id ≠ "" →
  total (λ t, is_Some (t !! scope) ∧ t !! (scope ++ [sanitize_id id]) = None)
        (add_child scope id n)
        (λ p t', p = scope ++ [sanitize_id id] ∧ t' !! p = Some n).
Proof.
  intros Hid t [Hs Ht]. exists (scope ++ [sanitize_id id]), (<[scope ++ [sanitize_id id] := n]> t).
  split; [by apply add_child_Ok|]. by rewrite lookup_insert_eq.
Qed.

(** Nodes other than the new one are untouched. *)
Lemma add_child_frame scope id n t p t' q :
  add_child scope id n t = Ok (p, t') → q ≠ p → t' !! q = t !! q.
Proof. intros (_ & _ & _ & -> & ->)%add_child_Ok Hq. by rewrite lookup_insert_ne. Qed.

(** No node disappears. *)
Lemma add_child_grows scope id n t p t' q :
  add_child scope id n t = Ok (p, t') → is_Some (t !! q) → is_Some (t' !! q).
Proof.
  intros (_ & _ & Hnew & -> & ->)%add_child_Ok Hq.
  destruct (decide (q = scope ++ [sanitize_id id])) as [->|]; [by rewrite Hnew in Hq; destruct Hq|].
  by rewrite lookup_insert_ne.
Qed.

(** The tree of a fresh [App]: the root alone. *)
Lemma tree_wf_root n : tree_wf {[ [] := n ]}.
Proof.
  intros p x m Hm. apply lookup_singleton_Some in Hm as [Hp _].
  by destruct p.
Qed.

Lemma add_child_preserves scope id n : preserves tree_wf (add_child scope id n).
Proof. eapply hoare_consequence; [apply add_child_wf|done|naive_solver]. Qed.

Lemma add_child_keeps q scope id n : preserves (λ t, is_Some (t !! q)) (add_child scope id n).
Proof. intros t p t' Hq E. by eapply add_child_grows. Qed.

(** [addChild] reads the scope and the new child's path, and writes that
    path only: it is local. *)
Lemma add_child_local scope id n : local (add_child scope id n).
Proof.
  intros t p t' (Hid & Hs & Hfresh & -> & ->)%add_child_Ok.
  split; [rewrite dom_insert_L; set_solver|]. intros u Hu.
  apply map_disjoint_insert_inv in Hu as [Hu Hp].
  apply add_child_Ok. split_and!; [done| |by rewrite lookup_union, Hp, Hfresh|done|].
  - by rewrite lookup_union_local.
  - by rewrite insert_union_r.
Qed.

(** The idiom [if (!scope.node.tryFindChild(id)) new X(scope, id, ...)]:
    reading the whole tree is local here, since only the child's path is
    looked at. *)
Lemma find_or_add_child_local scope id n :
  local (t ← get;
         match try_find_child t scope id with
         | Some _ => mret ()
         | None => _ ← add_child scope id n; mret ()
         end).
Proof.
  intros t a t' E. rewrite (bind_Ok_eq _ _ _ t t) in E by done.
  unfold try_find_child in *. destruct (t !! _) eqn:F.
  - injection E as <- <-. split; [done|]. intros u Hu.
    rewrite (bind_Ok_eq _ _ _ (u ∪ t) (u ∪ t)) by done.
    by rewrite lookup_union_local, F by (rewrite ?F; eauto).
  - apply bind_Ok in E as (p & t2 & Ea & [= <- <-]).
    destruct (add_child_local _ _ _ _ _ _ Ea) as [D Fr]. split; [done|]. intros u Hu.
    rewrite (bind_Ok_eq _ _ _ (u ∪ t) (u ∪ t)) by done.
    apply add_child_Ok in Ea as (_ & _ & _ & -> & ->).
    destruct (map_disjoint_insert_inv _ _ _ _ Hu) as [_ Hp].
    rewrite lookup_union, Hp, F. simpl.
    by rewrite (bind_Ok_eq _ _ _ _ _ (Fr u Hu)).
Qed.
End Tree.

#[export] Hint Resolve add_child_preserves add_child_keeps add_child_local
  find_or_add_child_local : cdk.

(** ** Sanitising *)

(** Whether a string contains the path separator. *)
Fixpoint has_sep (s : string) : bool :=
  match s with
  | EmptyString => false
  | String c s' => if Ascii.ascii_dec c "/"%char then true else has_sep s'
  end.

Lemma has_sep_append s1 s2 : has_sep (s1 +:+ s2) = has_sep s1 || has_sep s2.
Proof. induction s1 as [|c s1 IH]; simpl; [done|]. by destruct (Ascii.ascii_dec c "/"%char). Qed.

(** A sanitised id never contains the separator, so a path is exactly
    the list of its ids. *)
Lemma sanitize_id_no_sep s : has_sep (sanitize_id s) = false.
Proof.
  induction s as [|c s IH]; simpl; [done|].
  destruct (Ascii.ascii_dec c "/"%char); simpl; [by rewrite has_sep_append, IH|].
  by destruct (Ascii.ascii_dec c "/"%char).
Qed.

(** Ids without a separator, like every id of the stack, are kept as they are. *)
Lemma sanitize_id_id s : has_sep s = false → sanitize_id s = s.
Proof.
  induction s as [|c s IH]; simpl; [done|].
  destruct (Ascii.ascii_dec c "/"%char); [discriminate|]. intros H. by rewrite IH.
Qed.
