(* ===== verification/Cidr.v ===== *)
(** * IPv4 CIDR blocks and the subnet allocator of [ec2.Vpc]

    [new ec2.Vpc(this, 'VPC', { maxAzs: 2, subnetConfiguration: [...] })]
    carves one block per subnet configuration and availability zone out
    of the VPC range (default 10.0.0.0/16) with aws-cdk-lib's
    [NetworkBuilder] (network-util.ts).  Addresses are 32-bit numbers,
    kept as [Z] with their range stated; a block is its lowest address and
    its mask, as [CidrBlock] computes them; the builder is explicit state
    in the monad [M] of the prelude. *)

From stdpp Require Import base list strings pretty.
From Stdlib Require Import ZArith Lia.
From S2P Require Import Prelude.

Local Open Scope Z_scope.

(** ** Addresses: [NetworkUtils.ipToNum] and [NetworkUtils.numToIp] *)

(** [ipAddress.split('.').reduce((p, c, i) => p + parseInt(c) * 256 ** (3 - i), 0)],
    on the four parsed octets. *)
Definition ip_to_num (o : list Z) : Z :=
  fst (fold_left (λ '(acc, i) c, (acc + c * 256 ^ (3 - i), i + 1)) o (0, 0)).

(** The loop of [numToIp]: for i = 0..3, push [floor(remaining / 256 ** (3 - i))]
    and keep [remaining % 256 ** (3 - i)], or push 0 once nothing remains. *)
Fixpoint num_to_octets_from (i : Z) (fuel : nat) (remaining : Z) : list Z :=
  match fuel with
  | O => []
  | S f =>
      if decide (remaining ≠ 0) then
        remaining / 256 ^ (3 - i)
          :: num_to_octets_from (i + 1) f (remaining mod 256 ^ (3 - i))
      else 0 :: num_to_octets_from (i + 1) f remaining
  end.

Definition num_to_octets (n : Z) : list Z := num_to_octets_from 0 4 n.

Definition valid_octets (o : list Z) : Prop :=
  length o = 4%nat ∧ Forall (λ c, 0 ≤ c < 256) o.

(** ** Blocks: [CidrBlock] *)

(** [calculateNetsize(mask) = 2 ** (32 - mask)] *)
Definition netsize (mask : Z) : Z := 2 ^ (32 - mask).

(** [new CidrBlock(ip, mask)] stores [networkAddress = ip + netsize - 1];
    [minAddress()] is [networkAddress - networkAddress % networkSize]:
    the first multiple of the block size at or above [ip]. *)
Definition round_up (ip size : Z) : Z :=
  let na := ip + size - 1 in na - na mod size.

Record cidr := Cidr { cidr_min : Z; cidr_mask : Z }.

#[export] Instance cidr_eq_dec : EqDecision cidr.
Proof. solve_decision. Defined.

Definition cidr_of_offset (ip mask : Z) : cidr := Cidr (round_up ip (netsize mask)) mask.

(** [maxAddress() = minAddress() + networkSize - 1] *)
Definition cidr_max (b : cidr) : Z := cidr_min b + netsize (cidr_mask b) - 1.

(** [nextBlock().minAddress()]: the address right after the block. *)
Definition next_block_min (b : cidr) : Z := cidr_max b + 1.

(** [containsCidr(other)] *)
Definition contains_cidr (a b : cidr) : bool :=
  bool_decide (cidr_max b ≤ cidr_max a ∧ cidr_min a ≤ cidr_min b).

Definition disjoint_cidr (a b : cidr) : bool :=
  bool_decide (cidr_max a < cidr_min b ∨ cidr_max b < cidr_min a).

(** The printed form [`${minIp()}/${mask}`]. *)
Definition cidr_string (b : cidr) : string :=
  String.concat "." (map (λ c, pretty (Z.to_N c)) (num_to_octets (cidr_min b)))
  +:+ "/" +:+ pretty (Z.to_N (cidr_mask b)).

(** ** The allocator: [NetworkBuilder] *)

Record network_builder := NetworkBuilder {
  nb_network : cidr;          (** [networkCidr] *)
  nb_next : Z;                (** [nextAvailableIp] *)
  nb_subnets : list cidr      (** [subnetCidrs] *)
}.

(** [constructor(cidr)]: [nextAvailableIp = networkCidr.minAddress()]. *)
Definition network_builder_new (network : cidr) : network_builder :=
  NetworkBuilder network (cidr_min network) [].

(** One iteration of [addSubnets]' loop. *)
Definition alloc_block (mask : Z) : M network_builder cidr :=
  nb ← get;
  let b := cidr_of_offset (nb_next nb) mask in
  put (NetworkBuilder (nb_network nb) (next_block_min b) (nb_subnets nb ++ [b]));;
  mret b.

Fixpoint alloc_blocks (mask : Z) (count : nat) : M network_builder (list cidr) :=
  match count with
  | O => mret []
  | S c => b ← alloc_block mask; bs ← alloc_blocks mask c; mret (b :: bs)
  end.

(** [addSubnets(mask, count)]: the mask check, the space check on
    [nextAvailableIp + netsize * count], then the loop. *)
Definition add_subnets (mask : Z) (count : nat) : M network_builder (list cidr) :=
  if decide (mask < 16 ∨ 28 < mask) then
    throw ("x.x.x.x/" +:+ pretty (Z.to_N mask) +:+ " is not a valid network mask")
  else
    nb ← get;
    let max_ip := nb_next nb + netsize mask * Z.of_nat count in
    if decide (cidr_max (nb_network nb) < max_ip - 1) then
      throw (pretty (N.of_nat count) +:+ " of /" +:+ pretty (Z.to_N mask)
             +:+ " exceeds remaining space of " +:+ cidr_string (nb_network nb))
    else alloc_blocks mask count.

(** [addSubnet(mask) = addSubnets(mask, 1)[0]] *)
Definition add_subnet (mask : Z) : M network_builder cidr :=
  bs ← add_subnets mask 1;
  match bs with
  | b :: _ => mret b
  | [] => throw "no subnet allocated"
  end.

(** ** Rounding to the block size *)

Section RoundUp.
Context (s : Z) (Hs : 0 < s).

Lemma round_up_ge ip : ip ≤ round_up ip s.
Proof. unfold round_up. pose proof (Z.mod_pos_bound (ip + s - 1) s Hs). lia. Qed.

Lemma round_up_lt ip : round_up ip s < ip + s.
Proof. unfold round_up. pose proof (Z.mod_pos_bound (ip + s - 1) s Hs). lia. Qed.

Lemma round_up_aligned ip : round_up ip s mod s = 0.
Proof.
  unfold round_up. rewrite Zminus_mod, Z.mod_mod, Z.sub_diag by lia. done.
Qed.

(** The least multiple of [s] at or above [ip]. *)
Lemma round_up_least ip m : m mod s = 0 → ip ≤ m → round_up ip s ≤ m.
Proof.
  intros Hm Hle. unfold round_up.
  pose proof (Z.div_mod (ip + s - 1) s ltac:(lia)).
  pose proof (Z.div_mod m s ltac:(lia)).
  pose proof (Z.mod_pos_bound (ip + s - 1) s Hs).
  assert ((ip + s - 1) / s < m / s + 1); [|nia].
  apply Z.div_lt_upper_bound; [lia|]. nia.
Qed.

Lemma round_up_aligned_id ip : ip mod s = 0 → round_up ip s = ip.
Proof.
  intros H. pose proof (round_up_least ip ip H ltac:(lia)).
  pose proof (round_up_ge ip). lia.
Qed.
End RoundUp.

Lemma netsize_pos mask : mask ≤ 32 → 0 < netsize mask.
Proof. intros. unfold netsize. apply Z.pow_pos_nonneg; lia. Qed.

(** A smaller block size divides a larger one. *)
Lemma netsize_divide m1 m2 : m1 ≤ m2 ≤ 32 → netsize m1 mod netsize m2 = 0.
Proof.
  intros H. unfold netsize. replace (32 - m1) with ((m2 - m1) + (32 - m2)) by lia.
  rewrite Z.pow_add_r by lia. apply Z.mod_mul. apply Z.pow_nonzero; lia.
Qed.

#[export] Hint Resolve netsize_pos round_up_ge round_up_lt round_up_aligned : cdk.

(** ** Round trip of [ipToNum] and [numToIp] *)

(** The [remaining !== 0] test of [numToIp] only short-cuts: 0 divided or
    reduced by any power is 0. *)
Lemma num_to_octets_from_S i f r :
  num_to_octets_from i (S f) r
  = r / 256 ^ (3 - i) :: num_to_octets_from (i + 1) f (r mod 256 ^ (3 - i)).
Proof. simpl. case_decide as Hr; [done|]. assert (r = 0) as -> by lia. done. Qed.

Lemma num_to_octets_eq n :
  num_to_octets n =
    [n / 2^24; n mod 2^24 / 2^16; n mod 2^24 mod 2^16 / 2^8;
     n mod 2^24 mod 2^16 mod 2^8 / 1].
Proof. unfold num_to_octets. by rewrite !num_to_octets_from_S. Qed.

(** (C28) [ipToNum] inverts [numToIp] on every 32-bit address: printing a
    block's address and reading it back gives the address. *)
Theorem ip_num_roundtrip n : 0 ≤ n < 2^32 → ip_to_num (num_to_octets n) = n.
Proof.
  intros Hn. rewrite num_to_octets_eq. cbn -[Z.pow Z.div Z.modulo].
  change (2^32) with 4294967296 in Hn. change (2^24) with 16777216.
  change (2^16) with 65536. change (2^8) with 256. simpl (256 ^ _).
  Z.div_mod_to_equations. lia.
Qed.

(** (C29) [numToIp] inverts [ipToNum] on every valid dotted quad. *)
Theorem octets_roundtrip o : valid_octets o → num_to_octets (ip_to_num o) = o.
Proof.
  intros [Hlen Hall]. destruct o as [|a [|b [|c [|d [|]]]]]; try discriminate.
  apply Forall_cons in Hall as [Ha Hall]. apply Forall_cons in Hall as [Hb Hall].
  apply Forall_cons in Hall as [Hc Hall]. apply Forall_cons in Hall as [Hd _].
  rewrite num_to_octets_eq. cbn -[Z.pow Z.div Z.modulo].
  change (2^24) with 16777216. change (2^16) with 65536. change (2^8) with 256.
  simpl (256 ^ _). repeat f_equal; Z.div_mod_to_equations; lia.
Qed.

(** ** The allocator's invariant *)

(** Blocks listed in increasing, non-overlapping order. *)
Definition blocks_ordered (l : list cidr) : Prop :=
  ∀ i j a b, (i < j)%nat → l !! i = Some a → l !! j = Some b → cidr_max a < cidr_min b.

(** [subnetCidrs] is ordered and lies below [nextAvailableIp]. *)
Definition nb_inv (nb : network_builder) : Prop :=
  blocks_ordered (nb_subnets nb) ∧ Forall (λ b, cidr_max b < nb_next nb) (nb_subnets nb).

Lemma blocks_ordered_snoc l b :
  blocks_ordered l → Forall (λ a, cidr_max a < cidr_min b) l → blocks_ordered (l ++ [b]).
Proof.
  intros Hl Hb i j a c Hij Ha Hc.
  apply lookup_app_Some in Ha as [Ha|[Hi Ha]];
  apply lookup_app_Some in Hc as [Hc|[Hj Hc]].
  - eauto.
  - apply list_lookup_singleton_Some in Hc as [_ <-].
    eapply Forall_lookup_1 in Hb; eauto.
  - apply lookup_lt_Some in Hc. lia.
  - apply list_lookup_singleton_Some in Ha as [? _].
    apply list_lookup_singleton_Some in Hc as [? _]. lia.
Qed.

(** Ordered blocks are pairwise disjoint. *)
Lemma blocks_ordered_disjoint l i j a b :
  blocks_ordered l → i ≠ j → l !! i = Some a → l !! j = Some b →
  disjoint_cidr a b = true.
Proof.
  intros Hl Hij Ha Hb. unfold disjoint_cidr. apply bool_decide_eq_true.
  destruct (Nat.lt_total i j) as [H|[H|H]]; [left; eauto|done|right; eauto].
Qed.

Lemma alloc_block_eq mask nb :
  alloc_block mask nb =
    Ok (cidr_of_offset (nb_next nb) mask,
        NetworkBuilder (nb_network nb) (next_block_min (cidr_of_offset (nb_next nb) mask))
                       (nb_subnets nb ++ [cidr_of_offset (nb_next nb) mask])).
Proof. reflexivity. Qed.

(** A block allocated below an aligned limit [L]: what the loop promises
    of every block it returns. *)
Definition block_within (mask lo L : Z) (b : cidr) : Prop :=
  cidr_mask b = mask ∧ cidr_min b mod netsize mask = 0 ∧ lo ≤ cidr_min b ∧ cidr_max b ≤ L - 1.

(** The loop of [addSubnets]: when [count] blocks fit below the aligned
    limit [L] from [nextAvailableIp], it returns [count] aligned blocks
    between [lo] and [L], appends them to [subnetCidrs] and keeps
    [nb_inv].  It always returns (no throw in the loop). *)
Lemma alloc_blocks_spec mask L lo c nb :
  mask ≤ 32 → L mod netsize mask = 0 → lo ≤ nb_next nb →
  nb_next nb + netsize mask * Z.of_nat c ≤ L → nb_inv nb →
  ∃ bs nb', alloc_blocks mask c nb = Ok (bs, nb') ∧
    nb_inv nb' ∧ nb_network nb' = nb_network nb ∧ nb_subnets nb' = nb_subnets nb ++ bs ∧
    length bs = c ∧ Forall (block_within mask lo L) bs ∧ lo ≤ nb_next nb'.
Proof.
  intros Hm HL. pose proof (netsize_pos mask Hm) as Hs.
  revert nb; induction c as [|c IH]; intros nb Hlo Hfit [Hord Hbelow].
  { exists [], nb. rewrite app_nil_r. by repeat split. }
  set (b := cidr_of_offset (nb_next nb) mask).
  assert (Hb : round_up (nb_next nb) (netsize mask) ≤ L - netsize mask * Z.of_nat (S c)).
  { apply round_up_least; [done| |lia].
    rewrite Zminus_mod, HL, Z.mul_comm, Z.mod_mul by lia. done. }
  pose proof (round_up_ge _ Hs (nb_next nb)).
  destruct (IH (NetworkBuilder (nb_network nb) (next_block_min b) (nb_subnets nb ++ [b])))
    as (bs & nb' & E & Hinv & Hnet & Hsub & Hlen & Hall & Hnext); simpl.
  { unfold next_block_min, cidr_max, b, cidr_of_offset; simpl. lia. }
  { unfold next_block_min, cidr_max, b, cidr_of_offset; simpl. lia. }
  { split; simpl.
    - apply blocks_ordered_snoc; [done|]. eapply Forall_impl; [done|].
      unfold b, cidr_of_offset; simpl. lia.
    - apply Forall_app; split; [eapply Forall_impl; [done|]|apply Forall_singleton];
        unfold next_block_min, cidr_max, b, cidr_of_offset; simpl; lia. }
  exists (b :: bs), nb'. cbn [alloc_blocks].
  rewrite (bind_Ok_eq _ _ _ _ _ (alloc_block_eq mask nb)), (bind_Ok_eq _ _ _ _ _ E).
  split; [done|]. split; [done|]. split; [done|].
  split; [rewrite Hsub; cbn; by rewrite <- (app_assoc (nb_subnets nb) [b] bs)|]. split; [simpl; by rewrite Hlen|].
  split; [|done]. constructor; [|done]. unfold block_within, b, cidr_of_offset, cidr_max; simpl.
  split; [done|]. split; [by apply round_up_aligned|]. lia.
Qed.

Lemma aligned_trans a n s : s ≠ 0 → n ≠ 0 → a mod n = 0 → n mod s = 0 → a mod s = 0.
Proof.
  intros Hs Hn Ha Hns. apply Z.mod_divide in Ha, Hns; [|done..]. apply Z.mod_divide; [done|].
  by transitivity n.
Qed.

Lemma aligned_add a b s : s ≠ 0 → a mod s = 0 → b mod s = 0 → (a + b) mod s = 0.
Proof. intros Hs Ha Hb. by rewrite Zplus_mod, Ha, Hb. Qed.

(** The network range of the builder is a block aligned to its size, as
    [new CidrBlock(cidr)] makes it. *)
Definition network_aligned (nb : network_builder) : Prop :=
  cidr_min (nb_network nb) mod netsize (cidr_mask (nb_network nb)) = 0 ∧
  cidr_min (nb_network nb) ≤ nb_next nb.

(** [addSubnets] refuses a mask outside 16..28. *)
Lemma add_subnets_bad_mask mask count nb :
  mask < 16 ∨ 28 < mask →
  add_subnets mask count nb =
    Err ("x.x.x.x/" +:+ pretty (Z.to_N mask) +:+ " is not a valid network mask").
Proof. intros H. unfold add_subnets. by rewrite decide_True. Qed.

(** [addSubnets] refuses [count] blocks that do not fit after [nextAvailableIp]. *)
Lemma add_subnets_no_space mask count nb :
  16 ≤ mask ≤ 28 →
  cidr_max (nb_network nb) < nb_next nb + netsize mask * Z.of_nat count - 1 →
  add_subnets mask count nb =
    Err (pretty (N.of_nat count) +:+ " of /" +:+ pretty (Z.to_N mask)
         +:+ " exceeds remaining space of " +:+ cidr_string (nb_network nb)).
Proof.
  intros Hm Hfull. unfold add_subnets. rewrite decide_False by lia.
  cbv [mbind M_bind get]. by rewrite decide_True.
Qed.

(** The loop of [addSubnets] inside an aligned network, from an aligned
    [nextAvailableIp] onwards. *)
Lemma alloc_within_network mask count nb :
  16 ≤ mask ≤ 28 → cidr_mask (nb_network nb) ≤ mask →
  nb_next nb + netsize mask * Z.of_nat count - 1 ≤ cidr_max (nb_network nb) →
  nb_inv nb → network_aligned nb →
  ∃ bs nb', alloc_blocks mask count nb = Ok (bs, nb') ∧
    nb_inv nb' ∧ network_aligned nb' ∧ nb_network nb' = nb_network nb ∧
    nb_subnets nb' = nb_subnets nb ++ bs ∧ length bs = count ∧
    Forall (λ b, contains_cidr (nb_network nb) b = true ∧ cidr_mask b = mask ∧
                 cidr_min b mod netsize mask = 0) bs.
Proof.
  intros Hm Hnm Hfit Hinv [Hal Hlo].
  set (net := nb_network nb) in *.
  assert (HL : (cidr_min net + netsize (cidr_mask net)) mod netsize mask = 0).
  { pose proof (netsize_pos mask ltac:(lia)).
    pose proof (netsize_pos (cidr_mask net) ltac:(lia)).
    apply aligned_add; [lia| |apply netsize_divide; lia].
    apply (aligned_trans _ (netsize (cidr_mask net))); [lia|lia|done|].
    apply netsize_divide; lia. }
  destruct (alloc_blocks_spec mask (cidr_min net + netsize (cidr_mask net)) (cidr_min net)
              count nb) as (bs & nb' & E & Hinv' & Hnet & Hsub & Hlen & Hall & Hnext);
    [lia|exact HL|done|unfold cidr_max in Hfit; lia|done|].
  exists bs, nb'. split; [done|]. split; [done|].
  split; [unfold network_aligned; rewrite Hnet; split; [exact Hal|exact Hnext]|].
  do 3 (split; [done|]). eapply Forall_impl; [exact Hall|].
  intros b (Hmask & Hal' & Hlo' & Hhi). repeat split; [|done|done].
  unfold contains_cidr. apply bool_decide_eq_true. unfold cidr_max in *. lia.
Qed.

(** (C22) [addSubnets] with a valid mask no wider than the network and enough
    room returns [count] aligned blocks of that mask, each inside the
    network range; it appends them to [subnetCidrs], whose blocks stay
    ordered, hence pairwise disjoint. *)
Theorem add_subnets_partition mask count nb :
  16 ≤ mask ≤ 28 → cidr_mask (nb_network nb) ≤ mask →
  nb_next nb + netsize mask * Z.of_nat count - 1 ≤ cidr_max (nb_network nb) →
  nb_inv nb → network_aligned nb →
  ∃ bs nb', add_subnets mask count nb = Ok (bs, nb') ∧
    nb_inv nb' ∧ nb_subnets nb' = nb_subnets nb ++ bs ∧ length bs = count ∧
    Forall (λ b, contains_cidr (nb_network nb) b = true ∧ cidr_mask b = mask ∧
                 cidr_min b mod netsize mask = 0) bs.
Proof.
  intros Hm Hnm Hfit Hinv Hal.
  destruct (alloc_within_network mask count nb) as (bs & nb' & E & Hinv' & _ & _ & Hrest);
    [done..|].
  exists bs, nb'. split; [|done].
  unfold add_subnets. rewrite decide_False by lia. cbv [mbind M_bind get].
  by rewrite decide_False by lia.
Qed.

(** ** Every successful allocation *)

(** What the builder of a [Vpc] keeps: [subnetCidrs] ordered, below
    [nextAvailableIp] and inside the network, which is an aligned block. *)
Definition builder_ok (nb : network_builder) : Prop :=
  nb_inv nb ∧ network_aligned nb ∧ cidr_mask (nb_network nb) ≤ 32 ∧
  Forall (λ b, contains_cidr (nb_network nb) b = true ∧ cidr_mask b ≤ 32) (nb_subnets nb).

Lemma network_builder_new_ok net :
  cidr_min net mod netsize (cidr_mask net) = 0 → cidr_mask net ≤ 32 →
  builder_ok (network_builder_new net).
Proof.
  intros Hal Hm. unfold builder_ok, nb_inv, network_aligned. simpl.
  by split_and!.
Qed.

(** A mask wider than the network's gives blocks larger than the network. *)
Lemma netsize_wider m1 m2 : m1 < m2 ≤ 32 → netsize m2 < netsize m1.
Proof. intros H. unfold netsize. apply Z.pow_lt_mono_r; lia. Qed.

(** Whenever [addSubnets] returns, it keeps [builder_ok] and appends the
    [count] blocks it returns to [subnetCidrs]. *)
Lemma add_subnets_ok mask count nb bs nb' :
  builder_ok nb → add_subnets mask count nb = Ok (bs, nb') →
  builder_ok nb' ∧ nb_network nb' = nb_network nb ∧ nb_subnets nb' = nb_subnets nb ++ bs ∧
  length bs = count.
Proof.
  intros (Hinv & [Hal Hlo] & Hm32 & Hin) E. unfold add_subnets in E.
  case_decide as Hm; [discriminate|]. cbv [mbind M_bind get] in E.
  case_decide as Hfit; [discriminate|].
  destruct (decide (cidr_mask (nb_network nb) ≤ mask)) as [Hnm|Hnm].
  - destruct (alloc_within_network mask count nb)
      as (bs' & nb'' & E' & Hinv' & Hal' & Hnet & Hsub & Hlen & Hall); [lia|done|lia|done|done|].
    rewrite E' in E. injection E as <- <-. split_and!; [|done|done|done].
    split_and!; [done|done|by rewrite Hnet|]. rewrite Hnet, Hsub. apply Forall_app. split; [done|].
    eapply Forall_impl; [exact Hall|]. intros b (? & ? & _). split; [done|lia].
  - destruct count as [|c].
    + injection E as <- <-. rewrite app_nil_r. by split_and!; try done.
    + pose proof (netsize_wider mask (cidr_mask (nb_network nb)) ltac:(lia)).
      pose proof (netsize_pos mask ltac:(lia)). exfalso. apply Hfit. unfold cidr_max. nia.
Qed.

Lemma add_subnet_ok mask nb b nb' :
  builder_ok nb → add_subnet mask nb = Ok (b, nb') →
  builder_ok nb' ∧ nb_network nb' = nb_network nb ∧ nb_subnets nb' = nb_subnets nb ++ [b].
Proof.
  intros Hok (bs & nb1 & E & Hk)%bind_Ok.
  destruct (add_subnets_ok _ _ _ _ _ Hok E) as (Hok' & Hnet & Hsub & Hlen).
  destruct bs as [|b' [|]]; try discriminate. injection Hk as <- <-. done.
Qed.

(** The blocks a builder has handed out are distinct and pairwise
    disjoint. *)
Lemma builder_ok_blocks nb :
  builder_ok nb →
  NoDup (nb_subnets nb) ∧
  ∀ a b, a ∈ nb_subnets nb → b ∈ nb_subnets nb → a ≠ b → disjoint_cidr a b = true.
Proof.
  intros ([Hord _] & _ & _ & Hall). split.
  - apply NoDup_alt. intros i j a Ha Hb. destruct (decide (i = j)) as [|Hij]; [done|].
    exfalso. pose proof (Forall_lookup_1 _ _ _ _ Hall Ha) as [_ Hm].
    pose proof (netsize_pos _ Hm). unfold cidr_max in *.
    destruct (Nat.lt_total i j) as [Hlt|[Hlt|Hlt]]; [|done|];
      [specialize (Hord i j a a Hlt Ha Hb)|specialize (Hord j i a a Hlt Hb Ha)]; unfold cidr_max in Hord; lia.
  - intros a b (i & Ha)%list_elem_of_lookup (j & Hb)%list_elem_of_lookup Hab.
    eapply blocks_ordered_disjoint; [exact Hord| |exact Ha|exact Hb]. intros ->. congruence.
Qed.

(** ** Witnesses *)

Lemma ip_num_roundtrip_witness : ip_to_num (num_to_octets 167772416) = 167772416.
Proof. apply ip_num_roundtrip. split; [discriminate|reflexivity]. Defined.

Lemma octets_roundtrip_witness : num_to_octets (ip_to_num [10; 0; 1; 0]) = [10; 0; 1; 0].
Proof.
  apply octets_roundtrip. split; [reflexivity|].
  repeat constructor; discriminate.
Defined.

Lemma add_subnets_partition_witness :
  ∃ bs nb', add_subnets 24 4 (network_builder_new (Cidr 167772160 16)) = Ok (bs, nb') ∧
    nb_inv nb' ∧ nb_subnets nb' = nb_subnets (network_builder_new (Cidr 167772160 16)) ++ bs ∧
    length bs = 4%nat ∧
    Forall (λ b, contains_cidr (nb_network (network_builder_new (Cidr 167772160 16))) b = true ∧
                 cidr_mask b = 24 ∧ cidr_min b mod netsize 24 = 0) bs.
Proof.
  apply add_subnets_partition; [split; discriminate|discriminate|discriminate| |].
  - split; [intros ? ? ? ? ? Hi; discriminate|constructor].
  - split; [reflexivity|discriminate].
Defined.
