(* ===== verification/Resources.v ===== *)
(** * The nodes of the construct tree and the props of the source

    One constructor of [Node] per kind of construct the stack creates
    (src/lib/type-task-stack.ts), each carrying the fields the library
    keeps and later mutates, with references to other constructs kept as
    their paths.  The props records mirror the object literals passed in
    the source, with the optional fields of the library's interfaces as
    [option]s.  [St] is the whole program state: the construct tree. *)

From stdpp Require Import base gmap strings list pretty fin_maps.
From Stdlib Require Import ZArith.
From S2P Require Import Prelude Constructs Cidr.

(** ** Enumerations of the library *)

(** [ec2.SubnetType] *)
Inductive SubnetType := PRIVATE_ISOLATED | PRIVATE_WITH_EGRESS | PRIVATE_WITH_NAT | PUBLIC.

#[export] Instance SubnetType_eq_dec : EqDecision SubnetType.
Proof. solve_decision. Defined.

(** [elbv2.ApplicationProtocol] *)
Inductive ApplicationProtocol := HTTP | HTTPS.

#[export] Instance ApplicationProtocol_eq_dec : EqDecision ApplicationProtocol.
Proof. solve_decision. Defined.

(** [ecs.Protocol] of a port mapping *)
Inductive EcsProtocol := EcsTCP | EcsUDP.

#[export] Instance EcsProtocol_eq_dec : EqDecision EcsProtocol.
Proof. solve_decision. Defined.

(** [ecs.NetworkMode]: a Fargate task definition always uses [awsvpc]. *)
Inductive NetworkMode := AWS_VPC | BRIDGE | HOST | NONE.

#[export] Instance NetworkMode_eq_dec : EqDecision NetworkMode.
Proof. solve_decision. Defined.

(** [ec2.Port.tcp(n)], [ec2.Port.udp(n)] and [ec2.Port.tcpRange(a, b)] *)
Inductive Port := PortTcp (n : Z) | PortUdp (n : Z) | PortTcpRange (lo hi : Z).

#[export] Instance Port_eq_dec : EqDecision Port.
Proof. solve_decision. Defined.

(** [connection.toString()]: the port number, prefixed for UDP. *)
Definition port_string (p : Port) : string :=
  match p with
  | PortTcp n => pretty (Z.to_N n)
  | PortUdp n => "UDP " +:+ pretty (Z.to_N n)
  | PortTcpRange lo hi => pretty (Z.to_N lo) +:+ "-" +:+ pretty (Z.to_N hi)
  end.

(** [ec2.IPeer]: a CIDR peer ([Peer.anyIpv4()] is 0.0.0.0/0) or a
    security group, which is kept by reference. *)
Inductive Peer := PeerIpv4 (block : cidr) | PeerSecurityGroup (sg : path).

#[export] Instance Peer_eq_dec : EqDecision Peer.
Proof. solve_decision. Defined.

Definition any_ipv4 : Peer := PeerIpv4 (Cidr 0 0).

(** [elbv2.TargetType] *)
Inductive TargetType := INSTANCE | IP | LAMBDA | ALB.

#[export] Instance TargetType_eq_dec : EqDecision TargetType.
Proof. solve_decision. Defined.

(** A token standing for a value known only at deployment. *)
Inductive Token := GetAtt (resource : path) (attribute : string).

(** ** Props: the object literals of the source *)

(** [ec2.SubnetConfiguration] *)
Record SubnetConfiguration := {
  sc_name : string;
  sc_cidrMask : option Z;
  sc_subnetType : SubnetType
}.

(** [ec2.VpcProps], the fields the source sets *)
Record VpcProps := {
  vp_maxAzs : option nat;
  vp_natGateways : option nat;
  vp_subnetConfiguration : option (list SubnetConfiguration)
}.

(** [ecs.ClusterProps] *)
Record ClusterProps := { cp_vpc : option path }.

(** [ec2.SecurityGroupProps] *)
Record SecurityGroupProps := {
  sgp_vpc : path;
  sgp_allowAllOutbound : option bool;
  sgp_description : option string
}.

(** [ecs.FargateTaskDefinitionProps] *)
Record FargateTaskDefinitionProps := {
  tdp_memoryLimitMiB : option Z;
  tdp_cpu : option Z
}.

(** [ecs.LogDriver.awsLogs({ streamPrefix })] *)
Record LogDriver := { ld_streamPrefix : string }.

(** [ecs.ContainerDefinitionOptions] *)
Record ContainerDefinitionOptions := {
  cdo_image : string;              (** [ContainerImage.fromRegistry(name)] *)
  cdo_logging : option LogDriver;
  cdo_essential : option bool
}.

(** [ecs.PortMapping] *)
Record PortMapping := {
  pm_containerPort : Z;
  pm_hostPort : option Z;
  pm_protocol : option EcsProtocol
}.

(** [ec2.SubnetSelection] by type *)
Record SubnetSelection := { ss_subnetType : option SubnetType }.

(** [ecs.FargateServiceProps] *)
Record FargateServiceProps := {
  fsp_cluster : path;
  fsp_taskDefinition : path;
  fsp_desiredCount : option nat;
  fsp_vpcSubnets : option SubnetSelection;
  fsp_securityGroups : option (list path)
}.

(** [elbv2.ApplicationLoadBalancerProps] *)
Record ApplicationLoadBalancerProps := {
  albp_vpc : path;
  albp_internetFacing : option bool;
  albp_securityGroup : option path
}.

(** [elbv2.BaseApplicationListenerProps] *)
Record ApplicationListenerProps := {
  lp_port : option Z;
  lp_open : option bool
}.

(** [elbv2.HealthCheck] *)
Record HealthCheck := {
  hc_path : option string;
  hc_interval : option Z        (** seconds, [Duration.seconds(n)] *)
}.

(** [elbv2.AddApplicationTargetsProps] *)
Record AddApplicationTargetsProps := {
  atp_port : option Z;
  atp_targets : list path;
  atp_healthCheck : option HealthCheck
}.

(** [cdk.CfnOutputProps] *)
Record CfnOutputProps := { op_value : Token }.

(** ** The state the library keeps per construct *)

(** How a subnet reaches the internet: the VPC's internet gateway, or the
    NAT gateway hosted by a public subnet. *)
Inductive Router := ViaInternetGateway | ViaNatGateway (public_subnet : path).

Record Subnet := {
  sn_type : SubnetType;
  sn_az : string;
  sn_cidr : cidr;
  sn_default_route : option Router
}.

Record Vpc := {
  vpc_cidr : cidr;
  vpc_azs : list string;
  vpc_public : list path;           (** [publicSubnets] *)
  vpc_private : list path;          (** [privateSubnets] *)
  vpc_isolated : list path;         (** [isolatedSubnets] *)
  vpc_nat_subnets : list path       (** public subnets hosting a NAT gateway *)
}.

Record Cluster := { cl_vpc : path }.

(** An inline ingress rule of [AWS::EC2::SecurityGroup]. *)
Record IngressRule := {
  ir_cidrIp : cidr;
  ir_port : Port;
  ir_description : string
}.

#[export] Instance IngressRule_eq_dec : EqDecision IngressRule.
Proof. solve_decision. Defined.

Record SecurityGroup := {
  sg_vpc : path;
  sg_allowAllOutbound : bool;
  sg_description : string;
  sg_ingress : list IngressRule;     (** [directIngressRules] *)
  sg_egress : list IngressRule       (** [directEgressRules] *)
}.

(** An [AWS::EC2::SecurityGroupIngress] (or [...Egress]) between two
    groups: [sgi_source] is the other group. *)
Record SecurityGroupIngress := {
  sgi_group : path;
  sgi_source : path;
  sgi_port : Port;
  sgi_description : string
}.

Record TaskDefinition := {
  td_memory : Z;
  td_cpu : Z;
  td_networkMode : NetworkMode;
  td_containers : list path;
  td_defaultContainer : option path;
  td_taskRole : option path;         (** [taskRole], set by the constructor *)
  td_executionRole : option path     (** [executionRole], made on demand *)
}.

Record Container := {
  ct_taskDefinition : path;
  ct_name : string;
  ct_image : string;
  ct_logging : option LogDriver;
  ct_essential : bool;
  ct_portMappings : list PortMapping;
  ct_logGroup : option path          (** the log group of the [awslogs] driver *)
}.

(** A registration of the service's tasks with a target group. *)
Record LoadBalancerRegistration := {
  lb_targetGroup : path;
  lb_containerName : string;
  lb_containerPort : Z
}.

Record Service := {
  sv_cluster : path;
  sv_taskDefinition : path;
  sv_desiredCount : option nat;
  sv_subnets : list path;
  sv_securityGroups : list path;
  sv_loadBalancers : list LoadBalancerRegistration
}.

Record LoadBalancer := {
  alb_vpc : path;
  alb_internetFacing : bool;
  alb_securityGroup : path;
  alb_subnets : list path;
  alb_listeners : list path
}.

Record Listener := {
  ls_loadBalancer : path;
  ls_port : Z;
  ls_protocol : ApplicationProtocol;
  ls_defaultTargetGroups : list path
}.

Record TargetGroup := {
  tg_vpc : path;
  tg_port : Z;
  tg_protocol : ApplicationProtocol;
  tg_healthCheck : option HealthCheck;
  tg_targetType : option TargetType;
  tg_members : list (list path * Port);   (** [connectableMembers]: groups and port *)
  tg_listeners : list path
}.

(** A statement of an IAM policy: the actions it allows on the resources. *)
Record PolicyStatement := {
  ps_actions : list string;
  ps_resources : list Token
}.

(** An [iam.Role]: the service principal that may assume it, and its
    [DefaultPolicy] once a grant made one. *)
Record Role := {
  role_assumedBy : string;
  role_defaultPolicy : option path
}.

(** An [iam.Policy] attached to roles. *)
Record Policy := {
  pol_roles : list path;
  pol_statements : list PolicyStatement
}.

(** A [logs.LogGroup]: its retention in days, [None] for never expire. *)
Record LogGroup := { lg_retentionDays : option Z }.

Inductive Node :=
| NApp
| NStack
| NVpc (v : Vpc)
| NSubnet (s : Subnet)
| NCluster (c : Cluster)
| NSecurityGroup (g : SecurityGroup)
| NSecurityGroupIngress (i : SecurityGroupIngress)
| NSecurityGroupEgress (e : SecurityGroupIngress)
| NTaskDefinition (t : TaskDefinition)
| NContainer (c : Container)
| NService (s : Service)
| NLoadBalancer (l : LoadBalancer)
| NListener (l : Listener)
| NTargetGroup (t : TargetGroup)
| NOutput (o : CfnOutputProps)
| NRole (r : Role)
| NPolicy (p : Policy)
| NLogGroup (l : LogGroup).

Abbreviation St := (gmap path Node).

(** ** Reading and writing nodes by reference *)

(** Dereference a path as a node of one kind; a missing node or a node of
    another kind is a type error the TypeScript compiler rules out. *)
Definition deref {A} (kind : string) (proj : Node → option A) (p : path) : M St A :=
  t ← get;
  match t !! p ≫= proj with
  | Some a => mret a
  | None => throw ("not a " +:+ kind +:+ ": " +:+ path_str p)
  end.

Definition as_vpc (n : Node) : option Vpc := match n with NVpc v => Some v | _ => None end.
Definition as_subnet (n : Node) : option Subnet := match n with NSubnet s => Some s | _ => None end.
Definition as_cluster (n : Node) : option Cluster := match n with NCluster c => Some c | _ => None end.
Definition as_sg (n : Node) : option SecurityGroup :=
  match n with NSecurityGroup g => Some g | _ => None end.
Definition as_taskdef (n : Node) : option TaskDefinition :=
  match n with NTaskDefinition t => Some t | _ => None end.
Definition as_container (n : Node) : option Container :=
  match n with NContainer c => Some c | _ => None end.
Definition as_service (n : Node) : option Service := match n with NService s => Some s | _ => None end.
Definition as_alb (n : Node) : option LoadBalancer :=
  match n with NLoadBalancer l => Some l | _ => None end.
Definition as_listener (n : Node) : option Listener :=
  match n with NListener l => Some l | _ => None end.
Definition as_role (n : Node) : option Role := match n with NRole r => Some r | _ => None end.
Definition as_policy (n : Node) : option Policy := match n with NPolicy p => Some p | _ => None end.
Definition as_targetgroup (n : Node) : option TargetGroup :=
  match n with NTargetGroup t => Some t | _ => None end.

(** Write back the mutated state of an existing construct (a path that
    is not a construct is refused, as in [add_child]). *)
Definition set_node (p : path) (n : Node) : M St unit :=
  t ← get;
  if decide (t !! p = None) then throw ("not a construct: " +:+ path_str p)
  else put (<[p := n]> t).

(** ** Reading and writing on any tree *)

Lemma deref_Ok {A : Type} (kind : string) (proj : Node → option A) (p : path) (t : St) (a : A) :
  t !! p ≫= proj = Some a → deref kind proj p t = Ok (a, t).
Proof. intros H. unfold deref. rewrite (bind_Ok_eq _ _ _ t t) by done. by rewrite H. Qed.

Lemma deref_Err {A : Type} (kind : string) (proj : Node → option A) (p : path) (t : St) :
  t !! p ≫= proj = None → deref kind proj p t = Err ("not a " +:+ kind +:+ ": " +:+ path_str p).
Proof. intros H. unfold deref. rewrite (bind_Ok_eq _ _ _ t t) by done. by rewrite H. Qed.

Lemma set_node_Ok p n t : is_Some (t !! p) → set_node p n t = Ok ((), <[p := n]> t).
Proof.
  intros [m Hm]. unfold set_node. rewrite (bind_Ok_eq _ _ _ t t) by done.
  by rewrite decide_False by congruence.
Qed.

Lemma deref_Ok_inv {A : Type} (kind : string) (proj : Node → option A) (p : path) (t t' : St) (a : A) :
  deref kind proj p t = Ok (a, t') → t !! p ≫= proj = Some a ∧ t' = t.
Proof.
  unfold deref. rewrite (bind_Ok_eq _ _ _ t t) by done.
  destruct (t !! p ≫= proj); [by intros [= -> ->]|discriminate].
Qed.

Lemma set_node_Ok_inv p n t u t' :
  set_node p n t = Ok (u, t') → is_Some (t !! p) ∧ t' = <[p := n]> t.
Proof.
  unfold set_node. rewrite (bind_Ok_eq _ _ _ t t) by done.
  case_decide as Hp; [discriminate|]. intros [= _ <-]. split; [|done].
  by apply not_eq_None_Some.
Qed.

(** Rewrite a dereference of a node whose kind is known. *)
Ltac deref_ok :=
  match goal with
  | |- context [deref ?k ?proj ?p ?t] =>
      rewrite (deref_Ok k proj p t); [|by simplify_map_eq]
  end.

(** ** Invariance of reading and writing *)

Lemma deref_preserves {A : Type} (P : St → Prop) (kind : string) (proj : Node → option A) (p : path) :
  preserves P (deref kind proj p).
Proof. unfold deref. preserve. Qed.

Lemma set_node_preserves p n : preserves tree_wf (set_node p n).
Proof.
  intros t [] t' Hwf. unfold set_node. cbv [mbind M_bind get put throw].
  case_decide as Hp; [discriminate|]. intros [= <-].
  apply not_eq_None_Some in Hp as [n' Hn']. by eapply tree_wf_insert_existing.
Qed.

Lemma set_node_keeps q p n : preserves (λ t, is_Some (t !! q)) (set_node p n).
Proof.
  intros t [] t' Hq. unfold set_node. cbv [mbind M_bind get put throw].
  case_decide as Hp; [discriminate|]. intros [= <-].
  destruct (decide (p = q)) as [->|]; [by rewrite lookup_insert_eq|by rewrite lookup_insert_ne].
Qed.

#[export] Hint Resolve deref_preserves set_node_preserves set_node_keeps : cdk.

(** A property of the tree that the two primitive writes keep; every
    operation of the components is built from them, so it keeps it too. *)
Class StInv (P : St → Prop) := {
  inv_add_child : ∀ scope id n, preserves P (add_child scope id n);
  inv_set_node : ∀ p n, preserves P (set_node p n)
}.

#[export] Instance tree_wf_inv : StInv tree_wf.
Proof. split; auto with cdk. Qed.

(** A construct, once created, stays. *)
#[export] Instance keeps_inv q : StInv (λ t, is_Some (t !! q)).
Proof. split; auto with cdk. Qed.

#[export] Hint Resolve inv_add_child inv_set_node tree_wf_inv keeps_inv : cdk.

(** ** Locality of reading and writing *)

Lemma deref_local {A : Type} (kind : string) (proj : Node → option A) (p : path) :
  local (deref kind proj p).
Proof.
  intros t a t' E. apply deref_Ok_inv in E as [Ha ->]. split; [done|]. intros u Hu.
  apply deref_Ok. rewrite lookup_union_local; [done|done|].
  destruct (t !! p); [by eexists|discriminate].
Qed.

Lemma set_node_local p n : local (set_node p n).
Proof.
  intros t [] t' (Hp & ->)%set_node_Ok_inv. split; [rewrite dom_insert_L; set_solver|].
  intros u (Hu & Hp')%map_disjoint_insert_inv. rewrite <-insert_union_r by done.
  apply set_node_Ok. by rewrite lookup_union_local.
Qed.

#[export] Hint Resolve deref_local set_node_local : cdk.
