(* ===== verification/Network.v ===== *)
(** * The VPC: [ec2.Vpc] and its subnets

    Lines 12-27 of src/lib/type-task-stack.ts: [maxAzs: 2],
    [natGateways: 1] and two subnet configurations, a public and a
    private-with-NAT group of /24s.  The [Vpc] constructor allocates one
    block per configuration and availability zone with the
    [NetworkBuilder] of [Cidr], creates one subnet child per block,
    routes the public subnets to the internet gateway, places the NAT
    gateways in the first public subnets and routes every private subnet
    to the NAT gateway of its zone, or to one picked in turn when its zone
    has none ([PrefSet.pick]).  [select_subnets] is [vpc.selectSubnets].
    The file ends with the theorem that the subnets of every VPC so built
    have distinct, disjoint blocks inside the VPC's range
    ([vpc_new_subnets_disjoint]), from the invariant [lists_ok] kept by
    every subnet creation. *)

From stdpp Require Import base gmap strings list pretty fin_maps.
From Stdlib Require Import ZArith.
From S2P Require Import Prelude Constructs Cidr Resources.

(** [Vpc.DEFAULT_CIDR_RANGE], '10.0.0.0/16', as [new CidrBlock] reads it. *)
Definition default_cidr_range : cidr := cidr_of_offset (ip_to_num [10; 0; 0; 0]%Z) 16.

(** [stack.availabilityZones] of a stack with no environment: two tokens
    that CloudFormation resolves at deployment. *)
Definition agnostic_azs : list string :=
  ["Fn::Select[0, Fn::GetAZs]"; "Fn::Select[1, Fn::GetAZs]"].

(** [Vpc.DEFAULT_SUBNETS] *)
Definition default_subnets : list SubnetConfiguration :=
  [ {| sc_name := "Public"; sc_cidrMask := None; sc_subnetType := PUBLIC |};
    {| sc_name := "Private"; sc_cidrMask := None; sc_subnetType := PRIVATE_WITH_EGRESS |} ].

Definition is_private_type (ty : SubnetType) : bool :=
  match ty with PRIVATE_WITH_EGRESS | PRIVATE_WITH_NAT => true | _ => false end.

Definition is_public_type (ty : SubnetType) : bool :=
  match ty with PUBLIC => true | _ => false end.

(** [determineNatGatewayCount(requestedCount, subnetConfig, azCount)] *)
Definition determine_nat_gateway_count (requested : option nat)
    (cfg : list SubnetConfiguration) (az_count : nat) : M St nat :=
  let has_private := existsb (λ c, is_private_type (sc_subnetType c)) cfg in
  let has_public := existsb (λ c, is_public_type (sc_subnetType c)) cfg in
  let count := match requested with
               | Some n => Nat.min n az_count
               | None => if has_private then az_count else 0
               end in
  if decide (count = 0 ∧ has_private = true) then
    throw "If you do not want NAT gateways (natGateways=0), make sure you don't configure any PRIVATE(_WITH_NAT) subnets in 'subnetConfiguration' (make them PUBLIC or ISOLATED instead)"
  else if decide (0 < count ∧ has_public = false) then
    throw "If you configure PRIVATE subnets in 'subnetConfiguration', you must also configure PUBLIC subnets to put the NAT gateways into"
  else mret count.

(** [networkBuilder.maskForRemainingSubnets(subnetCount)] *)
Definition mask_for_remaining_subnets (nb : network_builder) (count : nat) : Z :=
  let remaining := (cidr_max (nb_network nb) - nb_next nb + 1)%Z in
  (32 - Z.log2 (remaining / Z.of_nat count))%Z.

(** [subnetId(name, i)] *)
Definition subnet_id (name : string) (i : nat) : string :=
  name +:+ "Subnet" +:+ pretty (N.of_nat (S i)).

(** Run a step of the allocator, whose state the VPC owns. *)
Definition with_builder {A} (m : M network_builder A) (nb : network_builder)
    : M St (A * network_builder) :=
  λ st, match m nb with Ok (a, nb') => Ok ((a, nb'), st) | Err e => Err e end.

(** The lists the constructor fills: [publicSubnets], [privateSubnets],
    [isolatedSubnets], with the allocator. *)
Record subnet_lists := SubnetLists {
  sl_builder : network_builder;
  sl_public : list path;
  sl_private : list path;
  sl_isolated : list path
}.

Definition push_subnet (ty : SubnetType) (p : path) (l : subnet_lists) (nb : network_builder)
    : subnet_lists :=
  match ty with
  | PUBLIC => SubnetLists nb (sl_public l ++ [p]) (sl_private l) (sl_isolated l)
  | PRIVATE_WITH_EGRESS | PRIVATE_WITH_NAT =>
      SubnetLists nb (sl_public l) (sl_private l ++ [p]) (sl_isolated l)
  | PRIVATE_ISOLATED => SubnetLists nb (sl_public l) (sl_private l) (sl_isolated l ++ [p])
  end.

(** [createSubnetResources(subnetConfig, cidrMask)]: for each zone, in
    order, allocate a block and create the subnet [<name>Subnet<i+1>]. *)
Fixpoint create_subnet_resources (vpc : path) (cfg : SubnetConfiguration) (mask : Z)
    (azs : list string) (i : nat) (l : subnet_lists) : M St subnet_lists :=
  match azs with
  | [] => mret l
  | az :: azs' =>
      '(b, nb) ← with_builder (add_subnet mask) (sl_builder l);
      p ← add_child vpc (subnet_id (sc_name cfg) i)
            (NSubnet {| sn_type := sc_subnetType cfg; sn_az := az; sn_cidr := b;
                        sn_default_route := None |});
      create_subnet_resources vpc cfg mask azs' (S i) (push_subnet (sc_subnetType cfg) p l nb)
  end.

(** [createSubnets()]: first the configurations with a [cidrMask], in
    order; then the others share what remains. *)
Fixpoint create_sized_subnets (vpc : path) (azs : list string)
    (cfgs : list SubnetConfiguration) (l : subnet_lists) : M St subnet_lists :=
  match cfgs with
  | [] => mret l
  | c :: cfgs' =>
      l' ← match sc_cidrMask c with
           | Some mask => create_subnet_resources vpc c mask azs 0 l
           | None => mret l
           end;
      create_sized_subnets vpc azs cfgs' l'
  end.

Fixpoint create_remaining_subnets (vpc : path) (azs : list string) (mask : Z)
    (cfgs : list SubnetConfiguration) (l : subnet_lists) : M St subnet_lists :=
  match cfgs with
  | [] => mret l
  | c :: cfgs' =>
      l' ← create_subnet_resources vpc c mask azs 0 l;
      create_remaining_subnets vpc azs mask cfgs' l'
  end.

Definition create_subnets (vpc : path) (azs : list string) (cfgs : list SubnetConfiguration)
    (nb : network_builder) : M St subnet_lists :=
  l ← create_sized_subnets vpc azs cfgs (SubnetLists nb [] [] []);
  let remaining := filter (λ c, sc_cidrMask c = None) cfgs in
  let mask := mask_for_remaining_subnets (sl_builder l)
                (length remaining * length azs) in
  create_remaining_subnets vpc azs mask remaining l.

(** Set the default route of a subnet ([addDefaultInternetRoute],
    [addRoute('DefaultRoute', ...)]). *)
Definition set_default_route (r : Router) (p : path) : M St unit :=
  s ← deref "Subnet" as_subnet p;
  set_node p (NSubnet {| sn_type := sn_type s; sn_az := sn_az s; sn_cidr := sn_cidr s;
                         sn_default_route := Some r |}).

(** [PrefSet.pick(pref)]: the value added for [pref], or the next value
    in turn. *)
Definition pref_pick (vals : list (string * path)) (next : nat) (pref : string)
    : M St (path * nat) :=
  match vals with
  | [] => throw "Cannot pick, set is empty"
  | _ =>
      match list_find (λ kv, kv.1 = pref) vals with
      | Some (_, (_, v)) => mret (v, next)
      | None =>
          match vals !! (next mod length vals) with
          | Some (_, v) => mret (v, S next)
          | None => throw "Cannot pick, set is empty"
          end
      end
  end.

(** [NatGatewayProvider.configureNat]: a gateway in each NAT subnet, then
    a default route to the picked gateway in each private subnet. *)
Fixpoint route_private_subnets (gws : list (string * path)) (next : nat) (privs : list path)
    : M St unit :=
  match privs with
  | [] => mret ()
  | p :: ps =>
      s ← deref "Subnet" as_subnet p;
      '(gw, next') ← pref_pick gws next (sn_az s);
      set_default_route (ViaNatGateway gw) p;;
      route_private_subnets gws next' ps
  end.

Definition nat_gateways_of (nat_subnets : list path) : M St (list (string * path)) :=
  mapM (λ p, s ← deref "Subnet" as_subnet p; mret (sn_az s, p)) nat_subnets.

(** [new ec2.Vpc(scope, id, props)] *)
Definition vpc_new (scope : path) (id : string) (props : VpcProps) : M St path :=
  vpc ← add_child scope id (NVpc {| vpc_cidr := default_cidr_range; vpc_azs := [];
          vpc_public := []; vpc_private := []; vpc_isolated := []; vpc_nat_subnets := [] |});
  let azs := take (default 3 (vp_maxAzs props)) agnostic_azs in
  let cfgs := default default_subnets (vp_subnetConfiguration props) in
  nat_count ← determine_nat_gateway_count (vp_natGateways props) cfgs (length azs);
  l ← create_subnets vpc azs cfgs (network_builder_new default_cidr_range);
  for_each (set_default_route ViaInternetGateway) (sl_public l);;
  let nat_subnets := take nat_count (sl_public l) in
  (if decide (0 < nat_count) then
     (if decide (sl_public l = []) then
        throw "There are no 'Public' subnet groups in this VPC"
      else gws ← nat_gateways_of nat_subnets; route_private_subnets gws 0 (sl_private l))
   else mret ());;
  set_node vpc (NVpc {| vpc_cidr := default_cidr_range; vpc_azs := azs;
    vpc_public := sl_public l; vpc_private := sl_private l; vpc_isolated := sl_isolated l;
    vpc_nat_subnets := if decide (0 < nat_count) then nat_subnets else [] |});;
  mret vpc.

(** [vpc.selectSubnets(selection)] by subnet type.  With no type: the
    private subnets, else the isolated ones, else the public ones. *)
Definition select_subnets (v : Vpc) (sel : SubnetSelection) : M St (list path) :=
  let ty := match ss_subnetType sel with
            | Some ty => ty
            | None => if decide (vpc_private v ≠ []) then PRIVATE_WITH_EGRESS
                      else if decide (vpc_isolated v ≠ []) then PRIVATE_ISOLATED else PUBLIC
            end in
  let subnets := match ty with
                 | PRIVATE_ISOLATED => vpc_isolated v
                 | PRIVATE_WITH_EGRESS | PRIVATE_WITH_NAT => vpc_private v
                 | PUBLIC => vpc_public v
                 end in
  if decide (subnets = []) then throw "There are no subnet groups of the selected type in this VPC"
  else mret subnets.

(** ** Invariance *)

Section Inv.
Context `{StInv P}.

Lemma with_builder_inv {A} (m : M network_builder A) nb : preserves P (with_builder m nb).
Proof. intros t x t' HP. unfold with_builder. destruct (m nb) as [[a nb']|]; by intros [= _ <-]. Qed.
#[local] Hint Resolve with_builder_inv : cdk.

Lemma determine_nat_gateway_count_inv r c n : preserves P (determine_nat_gateway_count r c n).
Proof. unfold determine_nat_gateway_count. preserve. Qed.

Lemma create_subnet_resources_inv vpc cfg mask azs i l :
  preserves P (create_subnet_resources vpc cfg mask azs i l).
Proof. revert i l. induction azs; intros; simpl; preserve. Qed.
#[local] Hint Resolve create_subnet_resources_inv : cdk.

Lemma create_sized_subnets_inv vpc azs cfgs l :
  preserves P (create_sized_subnets vpc azs cfgs l).
Proof. revert l. induction cfgs; intros; simpl; preserve. Qed.

Lemma create_remaining_subnets_inv vpc azs mask cfgs l :
  preserves P (create_remaining_subnets vpc azs mask cfgs l).
Proof. revert l. induction cfgs; intros; simpl; preserve. Qed.
#[local] Hint Resolve create_sized_subnets_inv create_remaining_subnets_inv : cdk.

Lemma create_subnets_inv vpc azs cfgs nb : preserves P (create_subnets vpc azs cfgs nb).
Proof. unfold create_subnets. preserve. Qed.

Lemma set_default_route_inv r p : preserves P (set_default_route r p).
Proof. unfold set_default_route. preserve. Qed.
#[local] Hint Resolve set_default_route_inv : cdk.

Lemma pref_pick_inv vals next pref : preserves P (pref_pick vals next pref).
Proof. unfold pref_pick. preserve. Qed.
#[local] Hint Resolve pref_pick_inv : cdk.

Lemma route_private_subnets_inv gws next privs :
  preserves P (route_private_subnets gws next privs).
Proof. revert next. induction privs; intros; simpl; preserve. Qed.

Lemma nat_gateways_of_inv l : preserves P (nat_gateways_of l).
Proof. unfold nat_gateways_of. preserve. Qed.

#[local] Hint Resolve determine_nat_gateway_count_inv create_subnets_inv
  route_private_subnets_inv nat_gateways_of_inv : cdk.

Lemma vpc_new_inv scope id props : preserves P (vpc_new scope id props).
Proof. unfold vpc_new. preserve. Qed.

Lemma select_subnets_inv v sel : preserves P (select_subnets v sel).
Proof. unfold select_subnets. preserve. Qed.
End Inv.

#[export] Hint Resolve vpc_new_inv select_subnets_inv : cdk.

(** ** Locality *)

Section Local.

Lemma with_builder_local {A} (m : M network_builder A) nb : local (with_builder m nb).
Proof.
  intros t x t' E. unfold with_builder in *.
  destruct (m nb) as [[a nb']|]; [|discriminate]. injection E as <- <-. split; [done|].
  by intros u _.
Qed.
#[local] Hint Resolve with_builder_local : cdk.

Lemma determine_nat_gateway_count_local r c n : local (determine_nat_gateway_count r c n).
Proof. unfold determine_nat_gateway_count. localize. Qed.

Lemma create_subnet_resources_local vpc cfg mask azs i l :
  local (create_subnet_resources vpc cfg mask azs i l).
Proof. revert i l. induction azs; intros; simpl; localize. Qed.
#[local] Hint Resolve create_subnet_resources_local : cdk.

Lemma create_sized_subnets_local vpc azs cfgs l : local (create_sized_subnets vpc azs cfgs l).
Proof. revert l. induction cfgs; intros; simpl; localize. Qed.

Lemma create_remaining_subnets_local vpc azs mask cfgs l :
  local (create_remaining_subnets vpc azs mask cfgs l).
Proof. revert l. induction cfgs; intros; simpl; localize. Qed.
#[local] Hint Resolve create_sized_subnets_local create_remaining_subnets_local : cdk.

Lemma create_subnets_local vpc azs cfgs nb : local (create_subnets vpc azs cfgs nb).
Proof. unfold create_subnets. localize. Qed.

Lemma set_default_route_local r p : local (set_default_route r p).
Proof. unfold set_default_route. localize. Qed.
#[local] Hint Resolve set_default_route_local : cdk.

Lemma pref_pick_local vals next pref : local (pref_pick vals next pref).
Proof. unfold pref_pick. localize. Qed.
#[local] Hint Resolve pref_pick_local : cdk.

Lemma route_private_subnets_local gws next privs : local (route_private_subnets gws next privs).
Proof. revert next. induction privs; intros; simpl; localize. Qed.

Lemma nat_gateways_of_local l : local (nat_gateways_of l).
Proof. unfold nat_gateways_of. localize. Qed.

#[local] Hint Resolve determine_nat_gateway_count_local create_subnets_local
  route_private_subnets_local nat_gateways_of_local : cdk.

Lemma vpc_new_local scope id props : local (vpc_new scope id props).
Proof. unfold vpc_new. localize. Qed.

Lemma select_subnets_local v sel : local (select_subnets v sel).
Proof. unfold select_subnets. localize. Qed.
End Local.

#[export] Hint Resolve vpc_new_local select_subnets_local : cdk.

(** ** The blocks of a VPC's subnets *)

Definition subnet_block (t : St) (p : path) : option cidr :=
  match t !! p with Some (NSubnet s) => Some (sn_cidr s) | _ => None end.

Definition sl_all (l : subnet_lists) : list path := sl_public l ++ sl_private l ++ sl_isolated l.

(** While the subnets of the VPC at [vpc] are created: the builder keeps
    [builder_ok] on [net], and the subnets listed so far have, in some
    order, exactly the blocks handed out so far. *)
Definition lists_ok (vpc : path) (net : cidr) (l : subnet_lists) (t : St) : Prop :=
  builder_ok (sl_builder l) ∧ nb_network (sl_builder l) = net ∧
  Forall (λ q, q ≠ vpc) (sl_all l) ∧
  map (subnet_block t) (sl_all l) ≡ₚ map Some (nb_subnets (sl_builder l)).

Lemma sl_all_push ty p l nb : sl_all (push_subnet ty p l nb) ≡ₚ sl_all l ++ [p].
Proof. unfold sl_all. destruct ty; simpl; rewrite <-!app_assoc; solve_Permutation. Qed.

Lemma sl_builder_push ty p l nb : sl_builder (push_subnet ty p l nb) = nb.
Proof. by destruct ty. Qed.

Lemma with_builder_Ok {A} (m : M network_builder A) nb t a nb' t' :
  with_builder m nb t = Ok ((a, nb'), t') → m nb = Ok (a, nb') ∧ t' = t.
Proof. unfold with_builder. destruct (m nb) as [[??]|]; [by intros [= -> -> ->]|discriminate]. Qed.

(** Every listed subnet resolves to a block. *)
Lemma lists_ok_some vpc net l t :
  lists_ok vpc net l t → Forall (λ q, is_Some (subnet_block t q)) (sl_all l).
Proof.
  intros (_ & _ & _ & Hp). apply Forall_forall. intros q Hq.
  assert (Hin : subnet_block t q ∈ map Some (nb_subnets (sl_builder l))).
  { rewrite <-Hp. by apply list_elem_of_fmap_2. }
  apply list_elem_of_fmap in Hin as (b & -> & _). by eexists.
Qed.

(** A fresh node leaves the blocks of existing subnets as they were. *)
Lemma subnet_blocks_insert_fresh t p n qs :
  t !! p = None → Forall (λ q, is_Some (subnet_block t q)) qs →
  map (subnet_block (<[p := n]> t)) qs = map (subnet_block t) qs.
Proof.
  intros Hp Hqs. apply map_ext_Forall. eapply Forall_impl; [exact Hqs|].
  intros q Hq. unfold subnet_block in *. rewrite lookup_insert_ne; [done|].
  intros ->. rewrite Hp in Hq. by destruct Hq.
Qed.

Lemma create_subnet_resources_ok vpc cfg mask azs i l t l' t' net :
  lists_ok vpc net l t → create_subnet_resources vpc cfg mask azs i l t = Ok (l', t') →
  lists_ok vpc net l' t'.
Proof.
  revert i l t. induction azs as [|az azs IH]; intros i l t Hok E; simpl in E;
    [by injection E as <- <-|].
  apply bind_Ok in E as ([b nb] & t1 & Hw & E). apply with_builder_Ok in Hw as [Hb ->].
  apply bind_Ok in E as (p & t2 & Ha & E).
  destruct (add_subnet_ok _ _ _ _ (proj1 Hok) Hb) as (Hbok & Hnet & Hsub).
  pose proof (lists_ok_some _ _ _ _ Hok) as Hsome.
  apply add_child_Ok in Ha as (_ & _ & Hfresh & -> & ->).
  eapply IH; [|exact E]. destruct Hok as (_ & Hnet0 & Hne & Hperm).
  unfold lists_ok. rewrite sl_builder_push. split_and!; [done|by rewrite Hnet|..].
  - rewrite sl_all_push. apply Forall_app. split; [done|]. constructor; [|done].
    apply not_eq_sym, app_single_neq.
  - rewrite sl_all_push, map_app, subnet_blocks_insert_fresh by done.
    rewrite Hsub, map_app, Hperm. simpl. unfold subnet_block at 1.
    by rewrite lookup_insert_eq.
Qed.
#[local] Hint Resolve create_subnet_resources_ok : cdk.

Lemma create_sized_subnets_ok vpc azs cfgs l t l' t' net :
  lists_ok vpc net l t → create_sized_subnets vpc azs cfgs l t = Ok (l', t') →
  lists_ok vpc net l' t'.
Proof.
  revert l t. induction cfgs as [|c cfgs IH]; intros l t Hok E; simpl in E;
    [by injection E as <- <-|].
  apply bind_Ok in E as (l1 & t1 & E1 & E). eapply IH; [|exact E].
  destruct (sc_cidrMask c); [eauto with cdk|by injection E1 as <- <-].
Qed.

Lemma create_remaining_subnets_ok vpc azs mask cfgs l t l' t' net :
  lists_ok vpc net l t → create_remaining_subnets vpc azs mask cfgs l t = Ok (l', t') →
  lists_ok vpc net l' t'.
Proof.
  revert l t. induction cfgs as [|c cfgs IH]; intros l t Hok E; simpl in E;
    [by injection E as <- <-|].
  apply bind_Ok in E as (l1 & t1 & E1 & E). eauto with cdk.
Qed.

Lemma create_subnets_ok vpc azs cfgs nb t l t' :
  builder_ok nb → nb_subnets nb = [] → create_subnets vpc azs cfgs nb t = Ok (l, t') →
  lists_ok vpc (nb_network nb) l t'.
Proof.
  intros Hok Hnil (l1 & t1 & E1 & E)%bind_Ok.
  eapply create_remaining_subnets_ok; [|exact E].
  eapply create_sized_subnets_ok; [|exact E1].
  unfold lists_ok; simpl. rewrite Hnil. by split_and!.
Qed.

(** After their creation, routing changes no subnet's block. *)
Section Blocks.
Variable f : path → option cidr.
Let blocks_are (t : St) : Prop := ∀ q, subnet_block t q = f q.

Lemma set_default_route_blocks r p : preserves blocks_are (set_default_route r p).
Proof.
  intros t [] t' HP (s & t1 & Hd & Hs)%bind_Ok.
  apply deref_Ok_inv in Hd as [Hs0 ->]. apply set_node_Ok_inv in Hs as [_ ->].
  intros q. rewrite <-HP. unfold subnet_block. destruct (decide (q = p)) as [->|Hq].
  - rewrite lookup_insert_eq. destruct (t !! p) as [[]|]; simpl in Hs0; try discriminate.
    by injection Hs0 as ->.
  - by rewrite lookup_insert_ne by congruence.
Qed.
#[local] Hint Resolve set_default_route_blocks : cdk.

Lemma route_private_subnets_blocks gws next privs :
  preserves blocks_are (route_private_subnets gws next privs).
Proof. revert next. induction privs; intros; simpl; [preserve|]. unfold pref_pick. preserve. Qed.

Lemma nat_gateways_of_blocks l : preserves blocks_are (nat_gateways_of l).
Proof. unfold nat_gateways_of. preserve. Qed.
End Blocks.

Lemma default_builder_ok : builder_ok (network_builder_new default_cidr_range).
Proof. apply network_builder_new_ok; vm_compute; [reflexivity|discriminate]. Qed.

(** (C20) [new ec2.Vpc(...)] never gives two subnets overlapping address
    blocks: for every scope, id, props and tree it succeeds on, the
    subnets the VPC lists (public, private, isolated) all exist, have
    distinct, pairwise disjoint blocks, and every block lies inside the
    VPC's range. *)
Theorem vpc_new_subnets_disjoint scope id props t v t' x :
  vpc_new scope id props t = Ok (v, t') → t' !! v = Some (NVpc x) →
  ∃ bs, map (subnet_block t') (vpc_public x ++ vpc_private x ++ vpc_isolated x) = map Some bs ∧
    NoDup bs ∧ (∀ a b, a ∈ bs → b ∈ bs → a ≠ b → disjoint_cidr a b = true) ∧
    Forall (λ b, contains_cidr (vpc_cidr x) b = true) bs.
Proof.
  unfold vpc_new. intros (vpc & t1 & _ & E)%bind_Ok Hx.
  apply bind_Ok in E as (nc & t2 & _ & E). apply bind_Ok in E as (l & t3 & Hc & E).
  apply bind_Ok in E as ([] & t4 & Hf & E). apply bind_Ok in E as ([] & t5 & Hn & E).
  apply bind_Ok in E as ([] & t6 & Hs & [= <- <-]).
  apply set_node_Ok_inv in Hs as [_ ->]. rewrite lookup_insert_eq in Hx.
  injection Hx as <-. simpl.
  destruct (create_subnets_ok _ _ _ _ _ _ _ default_builder_ok eq_refl Hc)
    as (Hok & Hnet & Hne & Hperm).
  assert (Hb : ∀ q, subnet_block t5 q = subnet_block t3 q).
  { assert (H4 : ∀ q, subnet_block t4 q = subnet_block t3 q).
    { revert Hf. apply (preserves_for_each _ _ _ (λ p, set_default_route_blocks _ _ p)).
      by intros q. }
    revert Hn. case_match; [case_match; [discriminate|]|by intros [= <-]].
    intros Hn. exact (preserves_bind _ _ _ (nat_gateways_of_blocks (subnet_block t3) _)
                        (λ gws, route_private_subnets_blocks (subnet_block t3) gws 0 _)
                        t4 () t5 H4 Hn). }
  assert (Hmap : ∀ n, map (subnet_block (<[vpc := n]> t5)) (sl_all l) =
                      map (subnet_block t3) (sl_all l)).
  { intros n. apply map_ext_Forall. eapply Forall_impl; [exact Hne|]. intros q Hq.
    unfold subnet_block at 1. rewrite lookup_insert_ne by congruence. apply Hb. }
  fold (sl_all l). rewrite Hmap.
  destruct (Permutation_map_inv _ _ Hperm) as (bs & Hbs0 & Hbs). rewrite Hbs0.
  destruct (builder_ok_blocks _ Hok) as [Hnd Hdisj].
  exists bs. split; [done|]. split; [by rewrite <-Hbs|]. split.
  - intros a b Ha Hb' Hab. apply Hdisj; [by rewrite Hbs..|done].
  - destruct Hok as (_ & _ & _ & Hall). rewrite <-Hbs. eapply Forall_impl; [exact Hall|].
    intros b [Hin _]. rewrite Hnet in Hin. exact Hin.
Qed.

(** (C21) The VPC's range, 10.0.0.0/16, holds exactly 256 blocks of the
    source's [cidrMask: 24]: [addSubnets(24, count)] on a fresh builder
    returns for every count up to 256 and throws for every larger one. *)
Theorem default_range_capacity (count : nat) :
  is_ok (add_subnets 24 count (network_builder_new default_cidr_range)) =
    bool_decide (count ≤ 256)%nat.
Proof.
  set (nb := network_builder_new default_cidr_range).
  assert (Hfit : (nb_next nb + netsize 24 * Z.of_nat count - 1 ≤ cidr_max (nb_network nb))%Z
                 ↔ (count ≤ 256)%nat).
  { assert (H1 : nb_next nb = 167772160%Z) by reflexivity.
    assert (H2 : cidr_max (nb_network nb) = 167837695%Z) by reflexivity.
    assert (H3 : netsize 24 = 256%Z) by reflexivity.
    rewrite H1, H2, H3. lia. }
  destruct (decide (count ≤ 256)%nat) as [Hc|Hc].
  - rewrite bool_decide_true by done. destruct default_builder_ok as (Hinv & Hal & _ & _).
    destruct (alloc_within_network 24 count nb ltac:(lia) ltac:(by vm_compute)
                (proj2 Hfit Hc) Hinv Hal) as (bs & nb' & E & _).
    unfold add_subnets. rewrite decide_False by lia. cbv [mbind M_bind get].
    rewrite decide_False; [by rewrite E|]. pose proof (proj2 Hfit Hc). lia.
  - rewrite bool_decide_false by done. rewrite add_subnets_no_space; [done|lia|].
    apply Z.nle_gt. by rewrite Hfit.
Qed.
