(* ===== verification/SecurityGroups.v ===== *)
(** * Security groups: [ec2.SecurityGroup] and [ec2.Connections]

    Lines 33-39 and 52-56 of src/lib/type-task-stack.ts create two
    security groups and add one ingress rule to each; [addListener] and
    [addTargets] add more through the groups' [Connections].  The library
    keeps a rule with a CIDR peer inline in the group, deduplicated by
    value ([addDirectIngressRule]).  A rule whose peer is another group
    becomes an [AWS::EC2::SecurityGroupIngress] child construct, whose id
    is derived from the peer and the port, so the library skips a second
    rule with the same peer and port whatever its description. *)

From stdpp Require Import base gmap strings list pretty fin_maps.
From Stdlib Require Import ZArith.
From S2P Require Import Prelude LogicalId Constructs Cidr Resources.

(** [Names.uniqueId(construct)]: [makeUniqueId] of the ids of the path
    below the app, which is the construct's path in the tree. *)
Definition unique_id (p : path) : string := allocate_logical_id p.

(** [peer.uniqueId] *)
Definition peer_unique_id (peer : Peer) : string :=
  match peer with
  | PeerIpv4 block => cidr_string block
  | PeerSecurityGroup g => unique_id g
  end.

(** The id and the default description of a rule: [`from ${peer}:${port}`]. *)
Definition rule_id (dir : string) (peer : Peer) (port : Port) : string :=
  dir +:+ " " +:+ peer_unique_id peer +:+ ":" +:+ port_string port.

(** [new ec2.SecurityGroup(scope, id, props)]: [allowAllOutbound] is
    [props.allowAllOutbound !== false]; the description defaults to the
    node's path. *)
Definition security_group_new (scope : path) (id : string) (props : SecurityGroupProps)
    : M St path :=
  add_child scope id (NSecurityGroup {|
    sg_vpc := sgp_vpc props;
    sg_allowAllOutbound := default true (sgp_allowAllOutbound props);
    sg_description := default (path_str (scope ++ [sanitize_id id])) (sgp_description props);
    sg_ingress := [];
    sg_egress := [] |}).

Definition with_ingress (g : SecurityGroup) (rules : list IngressRule) : SecurityGroup :=
  {| sg_vpc := sg_vpc g; sg_allowAllOutbound := sg_allowAllOutbound g;
     sg_description := sg_description g; sg_ingress := rules; sg_egress := sg_egress g |}.

Definition with_egress (g : SecurityGroup) (rules : list IngressRule) : SecurityGroup :=
  {| sg_vpc := sg_vpc g; sg_allowAllOutbound := sg_allowAllOutbound g;
     sg_description := sg_description g; sg_ingress := sg_ingress g; sg_egress := rules |}.

(** [securityGroup.addIngressRule(peer, connection, description?)] *)
Definition add_ingress_rule (sg : path) (peer : Peer) (port : Port)
    (description : option string) : M St unit :=
  let desc := default (rule_id "from" peer port) description in
  g ← deref "SecurityGroup" as_sg sg;
  match peer with
  | PeerIpv4 block =>
      let rule := {| ir_cidrIp := block; ir_port := port; ir_description := desc |} in
      if decide (rule ∈ sg_ingress g) then mret ()
      else set_node sg (NSecurityGroup (with_ingress g (sg_ingress g ++ [rule])))
  | PeerSecurityGroup src =>
      t ← get;
      match try_find_child t sg (rule_id "from" peer port) with
      | Some _ => mret ()
      | None =>
          _ ← add_child sg (rule_id "from" peer port)
                (NSecurityGroupIngress {| sgi_group := sg; sgi_source := src;
                                          sgi_port := port; sgi_description := desc |});
          mret ()
      end
  end.

(** [securityGroup.addEgressRule(peer, connection, description?)]: ignored
    when the group allows all outbound traffic. *)
Definition add_egress_rule (sg : path) (peer : Peer) (port : Port)
    (description : option string) : M St unit :=
  let desc := default (rule_id "to" peer port) description in
  g ← deref "SecurityGroup" as_sg sg;
  if sg_allowAllOutbound g then mret () else
  match peer with
  | PeerIpv4 block =>
      let rule := {| ir_cidrIp := block; ir_port := port; ir_description := desc |} in
      if decide (rule ∈ sg_egress g) then mret ()
      else set_node sg (NSecurityGroup (with_egress g (sg_egress g ++ [rule])))
  | PeerSecurityGroup dst =>
      t ← get;
      match try_find_child t sg (rule_id "to" peer port) with
      | Some _ => mret ()
      | None =>
          _ ← add_child sg (rule_id "to" peer port)
                (NSecurityGroupEgress {| sgi_group := sg; sgi_source := dst;
                                         sgi_port := port; sgi_description := desc |});
          mret ()
      end
  end.

(** [connections.allowFrom(other, port, description)] where [other] is a
    peer: every group of these connections admits it. *)
Definition allow_from (groups : list path) (peer : Peer) (port : Port)
    (description : option string) : M St unit :=
  for_each (λ g, add_ingress_rule g peer port description) groups.

(** [connections.allowTo(other, port, description)] between two sets of
    groups: egress on ours towards each of theirs, then [other.allowFrom]
    on theirs from each of ours (the [skip] flag stops the recursion). *)
Definition allow_to (groups others : list path) (port : Port)
    (description : option string) : M St unit :=
  for_each (λ g, for_each (λ o, add_egress_rule g (PeerSecurityGroup o) port description) others)
    groups;;
  for_each (λ o, for_each (λ g, add_ingress_rule o (PeerSecurityGroup g) port description) groups)
    others.

(** ** Invariance *)

Section Inv.
Context `{StInv P}.

Lemma security_group_new_inv scope id props : preserves P (security_group_new scope id props).
Proof. unfold security_group_new. preserve. Qed.

Lemma add_ingress_rule_inv sg peer port d : preserves P (add_ingress_rule sg peer port d).
Proof. unfold add_ingress_rule. preserve. Qed.

Lemma add_egress_rule_inv sg peer port d : preserves P (add_egress_rule sg peer port d).
Proof. unfold add_egress_rule. preserve. Qed.
#[local] Hint Resolve add_ingress_rule_inv add_egress_rule_inv : cdk.

Lemma allow_from_inv gs peer port d : preserves P (allow_from gs peer port d).
Proof. unfold allow_from. preserve. Qed.

Lemma allow_to_inv gs os port d : preserves P (allow_to gs os port d).
Proof. unfold allow_to. preserve. Qed.
End Inv.

#[export] Hint Resolve security_group_new_inv add_ingress_rule_inv add_egress_rule_inv
  allow_from_inv allow_to_inv : cdk.

(** ** Adding a rule twice *)

(** (C24) [addIngressRule] is idempotent: once a rule has been added, adding
    it again changes nothing.  A rule from a block is recognised by its
    block, port and description; a rule from a group by its construct id
    [from <peer uniqueId>:<port>], so a second rule between the same groups
    on the same port is dropped whatever its description. *)
Theorem add_ingress_rule_idempotent sg peer port d d' t t1 :
  add_ingress_rule sg peer port d t = Ok ((), t1) →
  (∀ block, peer = PeerIpv4 block → d' = d) →
  add_ingress_rule sg peer port d' t1 = Ok ((), t1).
Proof.
  unfold add_ingress_rule. intros (g & t0 & Hg & Hk)%bind_Ok Hd.
  apply deref_Ok_inv in Hg as [Hg ->].
  destruct peer as [block|src].
  - rewrite (Hd block) by done. clear Hd. case_decide as Hin.
    + injection Hk as <-. rewrite (bind_Ok_eq _ _ _ g t) by (by apply deref_Ok).
      by rewrite decide_True.
    + apply set_node_Ok_inv in Hk as [_ ->].
      rewrite (bind_Ok_eq _ _ _ (with_ingress g _) _)
        by (apply deref_Ok; by rewrite lookup_insert_eq).
      rewrite decide_True; [done|]. simpl. apply elem_of_app. right. constructor.
  - clear Hd. rewrite (bind_Ok_eq _ _ _ t t) in Hk by done.
    destruct (try_find_child t sg _) eqn:Ef.
    + injection Hk as <-. rewrite (bind_Ok_eq _ _ _ g t) by (by apply deref_Ok).
      rewrite (bind_Ok_eq _ _ _ t t) by done. by rewrite Ef.
    + apply bind_Ok in Hk as (p & t2 & Ha & [= <-]).
      apply add_child_Ok in Ha as (_ & _ & _ & -> & ->).
      rewrite (bind_Ok_eq _ _ _ g _)
        by (apply deref_Ok; rewrite lookup_insert_ne; [done|apply not_eq_sym, app_single_neq]).
      rewrite (bind_Ok_eq _ _ _ _ _) by done.
      unfold try_find_child. by rewrite lookup_insert_eq.
Qed.

(** [addIngressRule] from a block: the rule, if not already there, is
    appended to the group's inline rules; nothing else changes. *)
Lemma add_ingress_rule_block sg g block port d t :
  t !! sg = Some (NSecurityGroup g) →
  let r := {| ir_cidrIp := block; ir_port := port;
              ir_description := default (rule_id "from" (PeerIpv4 block) port) d |} in
  add_ingress_rule sg (PeerIpv4 block) port d t =
    Ok ((), if decide (r ∈ sg_ingress g) then t
            else <[sg := NSecurityGroup (with_ingress g (sg_ingress g ++ [r]))]> t).
Proof.
  intros Hg r. unfold add_ingress_rule.
  rewrite (bind_Ok_eq _ _ _ g t) by (apply deref_Ok; by rewrite Hg).
  fold r. case_decide; [done|]. apply set_node_Ok. by rewrite Hg.
Qed.

(** Two groups under the root, with no rule. *)
Definition two_groups : St :=
  let g := {| sg_vpc := ["Vpc"]; sg_allowAllOutbound := true; sg_description := "group";
              sg_ingress := []; sg_egress := [] |} in
  {[ [] := NApp; ["A"] := NSecurityGroup g; ["B"] := NSecurityGroup g ]}.

Definition two_groups_linked : St :=
  match add_ingress_rule ["B"] (PeerSecurityGroup ["A"]) (PortTcp 8080) (Some "from A") two_groups
  return St with Ok (_, t) => t | Err _ => ∅ end.

Lemma two_groups_linked_spec :
  add_ingress_rule ["B"] (PeerSecurityGroup ["A"]) (PortTcp 8080) (Some "from A") two_groups
  = Ok ((), two_groups_linked).
Proof.
  assert (Hok : is_ok (add_ingress_rule ["B"] (PeerSecurityGroup ["A"]) (PortTcp 8080) (Some "from A")
                         two_groups) = true) by (vm_compute; reflexivity).
  unfold two_groups_linked.
  destruct (add_ingress_rule _ _ _ _ two_groups) as [[[] t]|e]; [reflexivity|discriminate Hok].
Qed.

Lemma add_ingress_rule_idempotent_witness :
  add_ingress_rule ["B"] (PeerSecurityGroup ["A"]) (PortTcp 8080) (Some "Load balancer to target")
    two_groups_linked = Ok ((), two_groups_linked).
Proof.
  apply (add_ingress_rule_idempotent _ _ _ (Some "from A") _ two_groups);
    [exact two_groups_linked_spec|discriminate].
Defined.

(** ** Locality *)

Lemma security_group_new_local scope id props : local (security_group_new scope id props).
Proof. unfold security_group_new. localize. Qed.

Lemma add_ingress_rule_local sg peer port d : local (add_ingress_rule sg peer port d).
Proof. unfold add_ingress_rule. localize. Qed.

Lemma add_egress_rule_local sg peer port d : local (add_egress_rule sg peer port d).
Proof. unfold add_egress_rule. localize. Qed.
#[local] Hint Resolve add_ingress_rule_local add_egress_rule_local : cdk.

Lemma allow_from_local gs peer port d : local (allow_from gs peer port d).
Proof. unfold allow_from. localize. Qed.

Lemma allow_to_local gs os port d : local (allow_to gs os port d).
Proof. unfold allow_to. localize. Qed.

#[export] Hint Resolve security_group_new_local add_ingress_rule_local add_egress_rule_local
  allow_from_local allow_to_local : cdk.
