(* ===== verification/Iam.v ===== *)
(** * IAM roles and policies, log groups: [iam.Role], [iam.Policy], [logs.LogGroup]

    The stack names none of these, but two of its calls make them.
    [new ecs.FargateTaskDefinition] (line 40) makes the task role.  The
    [awslogs] driver of the container (line 48) makes a log group under
    the container, makes the task definition's execution role
    ([obtainExecutionRole]) and grants it the right to write to the log
    group ([logGroup.grantWrite]).  A grant adds a statement to the
    role's [DefaultPolicy], which the first grant creates and attaches to
    the role ([Role.addToPrincipalPolicy]). *)

From stdpp Require Import base gmap strings list fin_maps.
From Stdlib Require Import ZArith.
From S2P Require Import Prelude Constructs Resources.

(** The principal of the roles ECS tasks assume. *)
Definition ecs_tasks_principal : string := "ecs-tasks.amazonaws.com".

(** [new iam.Role(scope, id, { assumedBy })] *)
Definition iam_role_new (scope : path) (id : string) (principal : string) : M St path :=
  add_child scope id (NRole {| role_assumedBy := principal; role_defaultPolicy := None |}).

(** [role.addToPrincipalPolicy(statement)]: the first statement creates
    the [DefaultPolicy] child of the role and attaches it to the role. *)
Definition role_add_to_principal_policy (role : path) (stmt : PolicyStatement) : M St unit :=
  r ← deref "Role" as_role role;
  match role_defaultPolicy r with
  | None =>
      pol ← add_child role "DefaultPolicy" (NPolicy {| pol_roles := [role]; pol_statements := [stmt] |});
      set_node role (NRole {| role_assumedBy := role_assumedBy r; role_defaultPolicy := Some pol |})
  | Some pol =>
      p ← deref "Policy" as_policy pol;
      set_node pol (NPolicy {| pol_roles := pol_roles p; pol_statements := pol_statements p ++ [stmt] |})
  end.

(** [Grant.addToPrincipal({ grantee, actions, resourceArns })] *)
Definition grant (grantee : path) (actions : list string) (resources : list Token) : M St unit :=
  role_add_to_principal_policy grantee {| ps_actions := actions; ps_resources := resources |}.

(** [new logs.LogGroup(scope, id, { retention })]; [Infinity] is [None]. *)
Definition log_group_new (scope : path) (id : string) (retention : option Z) : M St path :=
  add_child scope id (NLogGroup {| lg_retentionDays := retention |}).

(** The actions of [logGroup.grantWrite(grantee)]. *)
Definition log_write_actions : list string := ["logs:CreateLogStream"; "logs:PutLogEvents"].

(** [logGroup.grantWrite(grantee)] *)
Definition log_group_grant_write (lg grantee : path) : M St unit :=
  grant grantee log_write_actions [GetAtt lg "Arn"].

(** ** Invariance and locality *)

Section Inv.
Context `{StInv P}.

Lemma iam_role_new_inv scope id pr : preserves P (iam_role_new scope id pr).
Proof. unfold iam_role_new. preserve. Qed.

Lemma role_add_to_principal_policy_inv role stmt : preserves P (role_add_to_principal_policy role stmt).
Proof. unfold role_add_to_principal_policy. preserve. Qed.
#[local] Hint Resolve role_add_to_principal_policy_inv : cdk.

Lemma log_group_new_inv scope id r : preserves P (log_group_new scope id r).
Proof. unfold log_group_new. preserve. Qed.

Lemma log_group_grant_write_inv lg g : preserves P (log_group_grant_write lg g).
Proof. unfold log_group_grant_write, grant. preserve. Qed.
End Inv.

#[export] Hint Resolve iam_role_new_inv log_group_new_inv log_group_grant_write_inv : cdk.

Section Local.

Lemma iam_role_new_local scope id pr : local (iam_role_new scope id pr).
Proof. unfold iam_role_new. localize. Qed.

Lemma role_add_to_principal_policy_local role stmt : local (role_add_to_principal_policy role stmt).
Proof. unfold role_add_to_principal_policy. localize. Qed.
#[local] Hint Resolve role_add_to_principal_policy_local : cdk.

Lemma log_group_new_local scope id r : local (log_group_new scope id r).
Proof. unfold log_group_new. localize. Qed.

Lemma log_group_grant_write_local lg g : local (log_group_grant_write lg g).
Proof. unfold log_group_grant_write, grant. localize. Qed.
End Local.

#[export] Hint Resolve iam_role_new_local log_group_new_local log_group_grant_write_local : cdk.

(** ** The statements of a role *)

(** The statements of the role's default policy; a role without one has
    none. *)
Definition role_statements (t : St) (r : path) : option (list PolicyStatement) :=
  match t !! r with
  | Some (NRole ro) =>
      match role_defaultPolicy ro with
      | None => Some []
      | Some pol => match t !! pol with Some (NPolicy p) => Some (pol_statements p) | _ => None end
      end
  | _ => None
  end.

(** A role that can take a statement: its default policy is a policy
    other than itself, or it has none and its child id [DefaultPolicy] is
    free. *)
Definition role_ready (t : St) (r : path) : Prop :=
  match t !! r with
  | Some (NRole ro) =>
      match role_defaultPolicy ro with
      | None => t !! (r ++ ["DefaultPolicy"]) = None
      | Some pol => pol ≠ r ∧ ∃ p, t !! pol = Some (NPolicy p)
      end
  | _ => False
  end.

Lemma role_add_to_principal_policy_total r st sts :
  total (λ t, role_ready t r ∧ role_statements t r = Some sts)
    (role_add_to_principal_policy r st)
    (λ _ t', role_ready t' r ∧ role_statements t' r = Some (sts ++ [st])).
Proof.
  intros t [Hr Hs]. unfold role_ready, role_statements in *.
  destruct (t !! r) as [[| | | | | | | | | | | | | | |ro| |]|] eqn:Er; try done.
  unfold role_add_to_principal_policy.
  rewrite (bind_Ok_eq _ _ _ ro t) by (apply deref_Ok; by rewrite Er).
  destruct (role_defaultPolicy ro) as [pol|] eqn:Ep.
  - destruct Hr as (Hne & p & Hp). rewrite Hp in Hs. injection Hs as <-.
    rewrite (bind_Ok_eq _ _ _ p t) by (apply deref_Ok; by rewrite Hp).
    rewrite set_node_Ok by by eexists.
    eexists _, _. split; [reflexivity|].
    rewrite lookup_insert_ne, Er, Ep by done. simpl. rewrite lookup_insert_eq.
    split; [split; [done|by eexists]|done].
  - injection Hs as <-.
    rewrite (bind_Ok_eq _ _ _ (r ++ ["DefaultPolicy"]) _)
      by (apply add_child_Ok; split_and!; [done|by eexists|exact Hr|done|done]).
    rewrite set_node_Ok by (rewrite lookup_insert_ne by apply not_eq_sym, app_single_neq; by eexists).
    eexists _, _. split; [reflexivity|]. rewrite lookup_insert_eq. simpl.
    rewrite lookup_insert_ne, lookup_insert_eq by apply app_single_neq.
    split; [split; [apply not_eq_sym, app_single_neq|by eexists]|done].
Qed.

(** The statement of a grant. *)
Definition grant_statement (g : list string * list Token) : PolicyStatement :=
  {| ps_actions := g.1; ps_resources := g.2 |}.

(** (C11) The grants a role receives refine the abstract list of its
    permissions: from a role that can take statements, any sequence of
    [Grant.addToPrincipal] calls to it returns, and the role's default
    policy then holds the statements it held before followed by those of
    the grants, in the order of the calls.  The first grant creates the
    policy; the others append to it. *)
Theorem role_grants_refine r grants sts :
  total (λ t, role_ready t r ∧ role_statements t r = Some sts)
    (for_each (λ g, grant r g.1 g.2) grants)
    (λ _ t', role_ready t' r ∧ role_statements t' r = Some (sts ++ map grant_statement grants)).
Proof.
  pose (I := λ gs t, role_ready t r ∧ role_statements t r = Some (sts ++ map grant_statement gs)).
  assert (Hstep : ∀ gs g, total (I gs) (grant r g.1 g.2) (λ _, I (gs ++ [g]))).
  { intros gs g. eapply total_consequence;
      [apply role_add_to_principal_policy_total|intros t Ht; exact Ht|].
    intros _ t' [? Hs]. unfold I. rewrite Hs. split; [done|]. by rewrite map_app, app_assoc. }
  eapply total_consequence; [exact (total_for_each I _ grants Hstep [])| |].
  - intros t [? Hs]. unfold I. rewrite Hs. split; [done|]. simpl. by rewrite app_nil_r.
  - intros a t' H. exact H.
Qed.

(** A role under the root, without a policy. *)
Definition lone_role : St :=
  {[ [] := NApp; ["R"] := NRole {| role_assumedBy := ecs_tasks_principal; role_defaultPolicy := None |} ]}.

Lemma role_grants_refine_witness :
  ∃ a t', for_each (λ g, grant ["R"] g.1 g.2)
            [(["s3:GetObject"], []); (["sqs:SendMessage"], [])] lone_role = Ok (a, t') ∧
          role_ready t' ["R"] ∧
          role_statements t' ["R"] =
            Some ([] ++ map grant_statement [(["s3:GetObject"], []); (["sqs:SendMessage"], [])]).
Proof. apply role_grants_refine. split; vm_compute; reflexivity. Defined.
