(* ===== verification/Elb.v ===== *)
(** * The application load balancer: [elbv2.ApplicationLoadBalancer]

    Lines 71-92 of src/lib/type-task-stack.ts: the ALB, [addListener] on
    port 80 with [open: true], and [addTargets] on port 8080 with the
    service as target and a health check.  The target group calls its
    targets through the interface [AppTarget], the library's
    [IApplicationLoadBalancerTarget].  The ECS service implements it in
    [Ecs], so the theorems of this file hold for any target.  A target
    registers its security groups with the target group
    ([registerConnectable]).  Every listener of the group, present or
    added later ([registerListener]), then opens the load balancer's
    group to the target's groups on the target port. *)

From stdpp Require Import base gmap strings list pretty fin_maps.
From Stdlib Require Import ZArith.
From S2P Require Import Prelude Constructs Cidr Resources Network SecurityGroups.

(** [elbv2.IApplicationLoadBalancerTarget.attachToApplicationTargetGroup],
    with what a target promises the group: attaching it keeps every
    invariant of the tree, and touches only the constructs it reads. *)
Class AppTarget := {
  attach_to_application_target_group : path → path → M St TargetType;
  attach_inv : ∀ P `{StInv P} x tg, preserves P (attach_to_application_target_group x tg);
  attach_local : ∀ x tg, local (attach_to_application_target_group x tg)
}.

(** [defaultProtocolForPort(port)] *)
Definition default_protocol_for_port (port : Z) : M St ApplicationProtocol :=
  if decide (port = 80 ∨ port = 8000 ∨ port = 8008 ∨ port = 8080)%Z then mret HTTP
  else if decide (port = 443 ∨ port = 8443)%Z then mret HTTPS
  else throw ("Don't know default protocol for port: " +:+ pretty (Z.to_N port)
              +:+ "; please supply a protocol").

(** [defaultPortForProtocol(proto)] *)
Definition default_port_for_protocol (proto : ApplicationProtocol) : Z :=
  match proto with HTTP => 80 | HTTPS => 443 end.

(** [determineProtocolAndPort(protocol, port)] *)
Definition determine_protocol_and_port (proto : option ApplicationProtocol) (port : option Z)
    : M St (option (ApplicationProtocol * Z)) :=
  match proto, port with
  | None, None => mret None
  | Some pr, Some po => mret (Some (pr, po))
  | None, Some po => pr ← default_protocol_for_port po; mret (Some (pr, po))
  | Some pr, None => mret (Some (pr, default_port_for_protocol pr))
  end.

(** [new elbv2.ApplicationLoadBalancer(scope, id, props)]: not internet
    facing unless told, in the public subnets when internet facing; the
    given security group, or a new one that allows no outbound traffic. *)
Definition application_load_balancer_new (scope : path) (id : string)
    (props : ApplicationLoadBalancerProps) : M St path :=
  let internet_facing := default false (albp_internetFacing props) in
  lb ← add_child scope id (NLoadBalancer {|
         alb_vpc := albp_vpc props; alb_internetFacing := internet_facing;
         alb_securityGroup := default [] (albp_securityGroup props);
         alb_subnets := []; alb_listeners := [] |});
  v ← deref "Vpc" as_vpc (albp_vpc props);
  subnets ← select_subnets v {| ss_subnetType := if internet_facing then Some PUBLIC else None |};
  sg ← match albp_securityGroup props with
       | Some g => mret g
       | None => security_group_new lb "SecurityGroup"
                   {| sgp_vpc := albp_vpc props; sgp_allowAllOutbound := Some false;
                      sgp_description := Some ("Automatically created Security Group for ELB "
                                               +:+ unique_id lb) |}
       end;
  set_node lb (NLoadBalancer {|
    alb_vpc := albp_vpc props; alb_internetFacing := internet_facing;
    alb_securityGroup := sg; alb_subnets := subnets; alb_listeners := [] |});;
  mret lb.

(** [alb.addListener(id, props)]: [new ApplicationListener(this, id, ...)],
    pushed on the load balancer's listeners; unless [open] is false, the
    load balancer's group admits anyone on the listener port. *)
Definition add_listener (lb : path) (id : string) (props : ApplicationListenerProps)
    : M St path :=
  pp ← determine_protocol_and_port None (lp_port props);
  match pp with
  | None => throw "At least one of 'port' or 'protocol' is required"
  | Some (proto, port) =>
      l ← add_child lb id (NListener {| ls_loadBalancer := lb; ls_port := port;
                                        ls_protocol := proto; ls_defaultTargetGroups := [] |});
      a ← deref "ApplicationLoadBalancer" as_alb lb;
      set_node lb (NLoadBalancer {|
        alb_vpc := alb_vpc a; alb_internetFacing := alb_internetFacing a;
        alb_securityGroup := alb_securityGroup a; alb_subnets := alb_subnets a;
        alb_listeners := alb_listeners a ++ [l] |});;
      (if default true (lp_open props) then
         allow_from [alb_securityGroup a] any_ipv4 (PortTcp port)
           (Some ("Allow from anyone on port " +:+ pretty (Z.to_N port)))
       else mret ());;
      mret l
  end.

(** [listener.registerConnectable(connectable, portRange)]: the load
    balancer's connections [allowTo] the target. *)
Definition listener_register_connectable (lis : path) (groups : list path) (port : Port)
    : M St unit :=
  l ← deref "ApplicationListener" as_listener lis;
  a ← deref "ApplicationLoadBalancer" as_alb (ls_loadBalancer l);
  allow_to [alb_securityGroup a] groups port (Some "Load balancer to target").

Definition tg_update (t : TargetGroup) (tt : option TargetType)
    (members : list (list path * Port)) (listeners : list path) : TargetGroup :=
  {| tg_vpc := tg_vpc t; tg_port := tg_port t; tg_protocol := tg_protocol t;
     tg_healthCheck := tg_healthCheck t; tg_targetType := tt; tg_members := members;
     tg_listeners := listeners |}.

(** [targetGroup.registerConnectable(connectable, portRange)]: notify the
    listeners known so far, then remember the member for later ones. *)
Definition register_connectable (tg : path) (groups : list path) (port : Port) : M St unit :=
  t ← deref "ApplicationTargetGroup" as_targetgroup tg;
  for_each (λ l, listener_register_connectable l groups port) (tg_listeners t);;
  t' ← deref "ApplicationTargetGroup" as_targetgroup tg;
  set_node tg (NTargetGroup (tg_update t' (tg_targetType t') (tg_members t' ++ [(groups, port)])
                                       (tg_listeners t'))).

(** [targetGroup.registerListener(listener)]: notify it of every member,
    then remember it. *)
Definition register_listener (tg : path) (lis : path) : M St unit :=
  t ← deref "ApplicationTargetGroup" as_targetgroup tg;
  for_each (λ m, listener_register_connectable lis m.1 m.2) (tg_members t);;
  t' ← deref "ApplicationTargetGroup" as_targetgroup tg;
  set_node tg (NTargetGroup (tg_update t' (tg_targetType t') (tg_members t')
                                       (tg_listeners t' ++ [lis]))).

(** [addLoadBalancerTarget(props)]: all targets of a group have one type. *)
Definition add_load_balancer_target (tg : path) (tt : TargetType) : M St unit :=
  t ← deref "ApplicationTargetGroup" as_targetgroup tg;
  match tg_targetType t with
  | Some tt' =>
      if decide (tt' ≠ tt) then
        throw "Already have a of type, adding another; make all targets the same type."
      else mret ()
  | None => set_node tg (NTargetGroup (tg_update t (Some tt) (tg_members t) (tg_listeners t)))
  end.

Section WithTarget.
Context `{AppTarget}.

(** [targetGroup.addTarget(...targets)] *)
Definition add_target (tg : path) (targets : list path) : M St unit :=
  for_each (λ x, tt ← attach_to_application_target_group x tg;
                 add_load_balancer_target tg tt) targets.

(** [new ApplicationTargetGroup(scope, id, props)] with a port: the
    protocol follows the port, then the targets are added. *)
Definition application_target_group_new (scope : path) (id : string) (vpc : path)
    (props : AddApplicationTargetsProps) : M St path :=
  pp ← determine_protocol_and_port None (atp_port props);
  match pp with
  | None => throw "At least one of 'port' or 'protocol' is required for a non-Lambda TargetGroup"
  | Some (proto, port) =>
      tg ← add_child scope id (NTargetGroup {|
             tg_vpc := vpc; tg_port := port; tg_protocol := proto;
             tg_healthCheck := atp_healthCheck props; tg_targetType := None;
             tg_members := []; tg_listeners := [] |});
      add_target tg (atp_targets props);;
      mret tg
  end.

(** [listener.addTargetGroups(id, { targetGroups })] with no priority:
    the default action forwards to the groups, which register the listener. *)
Definition add_target_groups (lis : path) (tgs : list path) : M St unit :=
  l ← deref "ApplicationListener" as_listener lis;
  set_node lis (NListener {| ls_loadBalancer := ls_loadBalancer l; ls_port := ls_port l;
                             ls_protocol := ls_protocol l; ls_defaultTargetGroups := tgs |});;
  for_each (λ tg, register_listener tg lis) tgs.

(** [listener.addTargets(id, props)]: a target group [<id>Group] under
    the listener in the load balancer's VPC, made the default action. *)
Definition add_targets (lis : path) (id : string) (props : AddApplicationTargetsProps)
    : M St path :=
  l ← deref "ApplicationListener" as_listener lis;
  a ← deref "ApplicationLoadBalancer" as_alb (ls_loadBalancer l);
  tg ← application_target_group_new lis (id +:+ "Group") (alb_vpc a) props;
  add_target_groups lis [tg];;
  mret tg.
End WithTarget.

(** ** Invariance *)

Section Inv.
Context `{StInv P}.

Lemma default_protocol_for_port_inv port : preserves P (default_protocol_for_port port).
Proof. unfold default_protocol_for_port. preserve. Qed.
#[local] Hint Resolve default_protocol_for_port_inv : cdk.

Lemma determine_protocol_and_port_inv pr po : preserves P (determine_protocol_and_port pr po).
Proof. unfold determine_protocol_and_port. preserve. Qed.
#[local] Hint Resolve determine_protocol_and_port_inv : cdk.

Lemma application_load_balancer_new_inv scope id props :
  preserves P (application_load_balancer_new scope id props).
Proof. unfold application_load_balancer_new. preserve. Qed.

Lemma add_listener_inv lb id props : preserves P (add_listener lb id props).
Proof. unfold add_listener. preserve. Qed.

Lemma listener_register_connectable_inv lis gs port :
  preserves P (listener_register_connectable lis gs port).
Proof. unfold listener_register_connectable. preserve. Qed.
#[local] Hint Resolve listener_register_connectable_inv : cdk.

Lemma register_connectable_inv tg gs port : preserves P (register_connectable tg gs port).
Proof. unfold register_connectable. preserve. Qed.

Lemma register_listener_inv tg lis : preserves P (register_listener tg lis).
Proof. unfold register_listener. preserve. Qed.

Lemma add_load_balancer_target_inv tg tt : preserves P (add_load_balancer_target tg tt).
Proof. unfold add_load_balancer_target. preserve. Qed.
#[local] Hint Resolve register_listener_inv add_load_balancer_target_inv : cdk.

Context `{AppTarget}.
#[local] Hint Resolve attach_inv : cdk.

Lemma add_target_inv tg xs : preserves P (add_target tg xs).
Proof. unfold add_target. preserve. Qed.
#[local] Hint Resolve add_target_inv : cdk.

Lemma application_target_group_new_inv scope id vpc props :
  preserves P (application_target_group_new scope id vpc props).
Proof. unfold application_target_group_new. preserve. Qed.

Lemma add_target_groups_inv lis tgs : preserves P (add_target_groups lis tgs).
Proof. unfold add_target_groups. preserve. Qed.
#[local] Hint Resolve application_target_group_new_inv add_target_groups_inv : cdk.

Lemma add_targets_inv lis id props : preserves P (add_targets lis id props).
Proof. unfold add_targets. preserve. Qed.
End Inv.

#[export] Hint Resolve application_load_balancer_new_inv add_listener_inv
  register_connectable_inv add_targets_inv : cdk.

(** ** Adding an open listener *)

Lemma determine_protocol_http port t :
  (port = 80 ∨ port = 8000 ∨ port = 8008 ∨ port = 8080)%Z →
  determine_protocol_and_port None (Some port) t = Ok (Some (HTTP, port), t).
Proof.
  intros Hp. unfold determine_protocol_and_port, default_protocol_for_port.
  by rewrite decide_True.
Qed.

(** An inline rule from a block, added to a group of the tree, is in the
    group after the call, and no other node changes. *)
Lemma add_ingress_rule_block_mem sg g block port d t :
  t !! sg = Some (NSecurityGroup g) →
  ∃ t' g', add_ingress_rule sg (PeerIpv4 block) port d t = Ok ((), t') ∧
    t' !! sg = Some (NSecurityGroup g') ∧
    {| ir_cidrIp := block; ir_port := port;
       ir_description := default (rule_id "from" (PeerIpv4 block) port) d |} ∈ sg_ingress g' ∧
    ∀ q, q ≠ sg → t' !! q = t !! q.
Proof.
  intros Hg. rewrite (add_ingress_rule_block sg g) by done. simpl. case_decide as Hin.
  - by exists t, g.
  - eexists _, _. split; [done|]. rewrite lookup_insert_eq. split; [done|]. split.
    + simpl. apply elem_of_app. right. constructor.
    + intros q Hq. by rewrite lookup_insert_ne.
Qed.

(** (C23) [alb.addListener(id, { port, open })] with an HTTP port and the
    listener open (the default): on any tree where [lb] is a load balancer
    whose security group exists and the id is free, it creates the
    listener with that port and protocol HTTP, appends it to the load
    balancer's listeners, and leaves in the load balancer's group an
    inline rule admitting 0.0.0.0/0 on that port. *)
Theorem add_listener_open lb id props a g port t :
  t !! lb = Some (NLoadBalancer a) → t !! alb_securityGroup a = Some (NSecurityGroup g) →
  sanitize_id id ≠ "" → t !! (lb ++ [sanitize_id id]) = None →
  lp_port props = Some port → (port = 80 ∨ port = 8000 ∨ port = 8008 ∨ port = 8080)%Z →
  default true (lp_open props) = true →
  ∃ t' a' g', add_listener lb id props t = Ok (lb ++ [sanitize_id id], t') ∧
    t' !! (lb ++ [sanitize_id id]) =
      Some (NListener {| ls_loadBalancer := lb; ls_port := port; ls_protocol := HTTP;
                         ls_defaultTargetGroups := [] |}) ∧
    t' !! lb = Some (NLoadBalancer a') ∧
    alb_listeners a' = alb_listeners a ++ [lb ++ [sanitize_id id]] ∧
    alb_securityGroup a' = alb_securityGroup a ∧
    t' !! alb_securityGroup a = Some (NSecurityGroup g') ∧
    {| ir_cidrIp := Cidr 0 0; ir_port := PortTcp port;
       ir_description := "Allow from anyone on port " +:+ pretty (Z.to_N port) |} ∈ sg_ingress g'.
Proof.
  intros Ha Hg Hid Hfresh Hport Hhttp Hopen. unfold add_listener. rewrite Hport.
  rewrite (bind_Ok_eq _ _ _ (Some (HTTP, port)) t) by (by apply determine_protocol_http).
  set (l := lb ++ [sanitize_id id]). set (ln := NListener _).
  rewrite (bind_Ok_eq _ _ _ l (<[l := ln]> t))
    by (apply add_child_Ok; split_and!; [done|by eexists|done|done|done]).
  rewrite (bind_Ok_eq _ _ _ a _) by (apply deref_Ok; by rewrite lookup_insert_fresh with (v := NLoadBalancer a)).
  set (a' := {| alb_vpc := _ |}).
  rewrite (bind_Ok_eq _ _ _ () (<[lb := NLoadBalancer a']> (<[l := ln]> t)))
    by (apply set_node_Ok; by rewrite lookup_insert_fresh with (v := NLoadBalancer a)).
  rewrite Hopen. unfold allow_from, for_each.
  assert (Hsg : <[lb := NLoadBalancer a']> (<[l := ln]> t) !! alb_securityGroup a =
                Some (NSecurityGroup g)).
  { rewrite lookup_insert_ne by congruence. by apply lookup_insert_fresh. }
  destruct (add_ingress_rule_block_mem _ _ (Cidr 0 0) (PortTcp port)
              (Some ("Allow from anyone on port " +:+ pretty (Z.to_N port))) _ Hsg)
    as (t3 & g' & E3 & Hg' & Hin & Hframe).
  exists t3, a', g'. unfold any_ipv4.
  rewrite (bind_Ok_eq _ _ _ () t3) by (by rewrite (bind_Ok_eq _ _ _ () t3 E3)).
  split_and!; [done| | |done|done|done|done].
  - rewrite Hframe; [rewrite lookup_insert_ne; [by rewrite lookup_insert_eq|]|unfold l; congruence].
    apply app_single_neq.
  - rewrite Hframe by congruence. by rewrite lookup_insert_eq.
Qed.

(** ** Locality *)

Section Local.

Lemma default_protocol_for_port_local port : local (default_protocol_for_port port).
Proof. unfold default_protocol_for_port. localize. Qed.
#[local] Hint Resolve default_protocol_for_port_local : cdk.

Lemma determine_protocol_and_port_local pr po : local (determine_protocol_and_port pr po).
Proof. unfold determine_protocol_and_port. localize. Qed.
#[local] Hint Resolve determine_protocol_and_port_local : cdk.

Lemma application_load_balancer_new_local scope id props :
  local (application_load_balancer_new scope id props).
Proof. unfold application_load_balancer_new. localize. Qed.

Lemma add_listener_local lb id props : local (add_listener lb id props).
Proof. unfold add_listener. localize. Qed.

Lemma listener_register_connectable_local lis gs port :
  local (listener_register_connectable lis gs port).
Proof. unfold listener_register_connectable. localize. Qed.
#[local] Hint Resolve listener_register_connectable_local : cdk.

Lemma register_connectable_local tg gs port : local (register_connectable tg gs port).
Proof. unfold register_connectable. localize. Qed.

Lemma register_listener_local tg lis : local (register_listener tg lis).
Proof. unfold register_listener. localize. Qed.

Lemma add_load_balancer_target_local tg tt : local (add_load_balancer_target tg tt).
Proof. unfold add_load_balancer_target. localize. Qed.
#[local] Hint Resolve register_listener_local add_load_balancer_target_local : cdk.

Context `{AppTarget}.
#[local] Hint Resolve attach_local : cdk.

Lemma add_target_local tg xs : local (add_target tg xs).
Proof. unfold add_target. localize. Qed.
#[local] Hint Resolve add_target_local : cdk.

Lemma application_target_group_new_local scope id vpc props :
  local (application_target_group_new scope id vpc props).
Proof. unfold application_target_group_new. localize. Qed.

Lemma add_target_groups_local lis tgs : local (add_target_groups lis tgs).
Proof. unfold add_target_groups. localize. Qed.
#[local] Hint Resolve application_target_group_new_local add_target_groups_local : cdk.

Lemma add_targets_local lis id props : local (add_targets lis id props).
Proof. unfold add_targets. localize. Qed.
End Local.

#[export] Hint Resolve application_load_balancer_new_local add_listener_local
  register_connectable_local add_targets_local : cdk.
