(* ===== verification/Ecs.v ===== *)
(** * ECS: [ecs.Cluster], [ecs.FargateTaskDefinition], containers, [ecs.FargateService]

    Lines 28-30, 40-49, 58-69 of src/lib/type-task-stack.ts.  The task
    definition keeps the list of its containers and its default container,
    the first essential one ([_linkContainer]).  [addPortMappings] mutates
    the container in place, so the service that holds the task definition
    by reference sees the mapping added after the service was created
    (line 67, after line 58).  The service as a load balancer target
    reads the default container's first port mapping and throws when the
    container has none. *)

From stdpp Require Import base gmap strings list pretty fin_maps.
From Stdlib Require Import ZArith.
From S2P Require Import Prelude Constructs Cidr Resources Network SecurityGroups Iam Elb.

(** [new ecs.Cluster(scope, id, { vpc })]; without a VPC the library
    creates its own, which the stack never asks for. *)
Definition cluster_new (scope : path) (id : string) (props : ClusterProps) : M St path :=
  match cp_vpc props with
  | Some v => add_child scope id (NCluster {| cl_vpc := v |})
  | None => throw "ecs.Cluster without a vpc is not modelled"
  end.

(** A task definition with other containers, default container and roles. *)
Definition td_with (t : TaskDefinition) (cs : list path) (dc : option path)
    (task_role exec_role : option path) : TaskDefinition :=
  {| td_memory := td_memory t; td_cpu := td_cpu t; td_networkMode := td_networkMode t;
     td_containers := cs; td_defaultContainer := dc;
     td_taskRole := task_role; td_executionRole := exec_role |}.

(** [new ecs.FargateTaskDefinition(scope, id, props)]: cpu 256 and memory
    512 MiB unless given, FARGATE compatibility, network mode [awsvpc];
    the constructor then makes the task role, [new iam.Role(this,
    'TaskRole', { assumedBy: ecs-tasks })]. *)
Definition fargate_task_definition_new (scope : path) (id : string)
    (props : FargateTaskDefinitionProps) : M St path :=
  td ← add_child scope id (NTaskDefinition {|
    td_memory := default 512%Z (tdp_memoryLimitMiB props);
    td_cpu := default 256%Z (tdp_cpu props);
    td_networkMode := AWS_VPC;
    td_containers := [];
    td_defaultContainer := None;
    td_taskRole := None;
    td_executionRole := None |});
  r ← iam_role_new td "TaskRole" ecs_tasks_principal;
  t ← deref "TaskDefinition" as_taskdef td;
  set_node td (NTaskDefinition (td_with t (td_containers t) (td_defaultContainer t)
                                        (Some r) (td_executionRole t)));;
  mret td.

(** [taskDefinition.obtainExecutionRole()]: the execution role, made on
    the first call as [new iam.Role(this, 'ExecutionRole', ...)]. *)
Definition obtain_execution_role (td : path) : M St path :=
  t ← deref "TaskDefinition" as_taskdef td;
  match td_executionRole t with
  | Some r => mret r
  | None =>
      r ← iam_role_new td "ExecutionRole" ecs_tasks_principal;
      t' ← deref "TaskDefinition" as_taskdef td;
      set_node td (NTaskDefinition (td_with t' (td_containers t') (td_defaultContainer t')
                                            (td_taskRole t') (Some r)));;
      mret r
  end.

Definition with_log_group (c : Container) (lg : option path) : Container :=
  {| ct_taskDefinition := ct_taskDefinition c; ct_name := ct_name c; ct_image := ct_image c;
     ct_logging := ct_logging c; ct_essential := ct_essential c;
     ct_portMappings := ct_portMappings c; ct_logGroup := lg |}.

(** [AwsLogDriver.bind(container, container)]: a log group
    [new logs.LogGroup(container, 'LogGroup', { retention: Infinity })],
    then [logGroup.grantWrite(taskDefinition.obtainExecutionRole())]. *)
Definition aws_log_driver_bind (ct td : path) : M St unit :=
  lg ← log_group_new ct "LogGroup" None;
  r ← obtain_execution_role td;
  log_group_grant_write lg r;;
  c ← deref "ContainerDefinition" as_container ct;
  set_node ct (NContainer (with_log_group c (Some lg))).

(** [taskDefinition.addContainer(id, props)]: a [ContainerDefinition]
    child of the task definition (essential unless told otherwise, named
    after its id); its log driver is bound; then [_linkContainer]:
    appended to [containers], and the default container if none is yet
    and it is essential. *)
Definition add_container (td : path) (id : string) (opts : ContainerDefinitionOptions)
    : M St path :=
  _ ← deref "TaskDefinition" as_taskdef td;
  let essential := default true (cdo_essential opts) in
  c ← add_child td id (NContainer {|
        ct_taskDefinition := td;
        ct_name := sanitize_id id;
        ct_image := cdo_image opts;
        ct_logging := cdo_logging opts;
        ct_essential := essential;
        ct_portMappings := [];
        ct_logGroup := None |});
  (match cdo_logging opts with Some _ => aws_log_driver_bind c td | None => mret () end);;
  t ← deref "TaskDefinition" as_taskdef td;
  set_node td (NTaskDefinition (td_with t (td_containers t ++ [c])
    (match td_defaultContainer t with
     | None => if essential then Some c else None
     | Some d => Some d
     end) (td_taskRole t) (td_executionRole t)));;
  mret c.

Definition with_port_mappings (c : Container) (pms : list PortMapping) : Container :=
  {| ct_taskDefinition := ct_taskDefinition c; ct_name := ct_name c; ct_image := ct_image c;
     ct_logging := ct_logging c; ct_essential := ct_essential c; ct_portMappings := pms;
     ct_logGroup := ct_logGroup c |}.

(** [PortMap.validate()] and the bridge default of [addPortMappings] for
    one mapping, in the network mode of the container's task definition. *)
Definition check_port_mapping (mode : NetworkMode) (pm : PortMapping) : M St PortMapping :=
  match pm_hostPort pm with
  | Some h =>
      if decide ((mode = AWS_VPC ∨ mode = HOST) ∧ h ≠ pm_containerPort pm) then
        throw "The host port must be left out or must be the same as the container port for AwsVpc or Host network mode."
      else mret pm
  | None =>
      if decide (mode = BRIDGE) then
        mret {| pm_containerPort := pm_containerPort pm; pm_hostPort := Some 0%Z;
                pm_protocol := pm_protocol pm |}
      else mret pm
  end.

Fixpoint check_port_mappings (mode : NetworkMode) (pms : list PortMapping)
    : M St (list PortMapping) :=
  match pms with
  | [] => mret []
  | pm :: pms' => pm' ← check_port_mapping mode pm; rest ← check_port_mappings mode pms';
                  mret (pm' :: rest)
  end.

(** [container.addPortMappings(...portMappings)] *)
Definition add_port_mappings (ct : path) (pms : list PortMapping) : M St unit :=
  c ← deref "ContainerDefinition" as_container ct;
  t ← deref "TaskDefinition" as_taskdef (ct_taskDefinition c);
  pms' ← check_port_mappings (td_networkMode t) pms;
  set_node ct (NContainer (with_port_mappings c (ct_portMappings c ++ pms'))).

(** [new ecs.FargateService(scope, id, props)]: the task definition must
    be Fargate compatible (awsvpc); [configureAwsVpcNetworkingWithSecurityGroups]
    selects the subnets of the cluster's VPC (default: no public IP, so
    the default selection) and creates a security group when none is given. *)
Definition fargate_service_new (scope : path) (id : string) (props : FargateServiceProps)
    : M St path :=
  t ← deref "TaskDefinition" as_taskdef (fsp_taskDefinition props);
  if decide (td_networkMode t ≠ AWS_VPC) then
    throw "Supplied TaskDefinition is not configured for compatibility with Fargate" else
  cl ← deref "Cluster" as_cluster (fsp_cluster props);
  s ← add_child scope id (NService {|
        sv_cluster := fsp_cluster props;
        sv_taskDefinition := fsp_taskDefinition props;
        sv_desiredCount := fsp_desiredCount props;
        sv_subnets := [];
        sv_securityGroups := [];
        sv_loadBalancers := [] |});
  sgs ← match fsp_securityGroups props with
        | Some (g :: gs) => mret (g :: gs)
        | _ => g ← security_group_new s "SecurityGroup"
                     {| sgp_vpc := cl_vpc cl; sgp_allowAllOutbound := None;
                        sgp_description := None |}; mret [g]
        end;
  v ← deref "Vpc" as_vpc (cl_vpc cl);
  subnets ← select_subnets v (default {| ss_subnetType := None |} (fsp_vpcSubnets props));
  sv ← deref "FargateService" as_service s;
  set_node s (NService {|
    sv_cluster := sv_cluster sv; sv_taskDefinition := sv_taskDefinition sv;
    sv_desiredCount := sv_desiredCount sv; sv_subnets := subnets;
    sv_securityGroups := sgs; sv_loadBalancers := sv_loadBalancers sv |});;
  mret s.

(** [containerDefinition.containerPort]: the first port mapping's
    container port; a container with no mapping throws. *)
Definition container_port (c : Container) : M St Z :=
  match ct_portMappings c with
  | pm :: _ => mret (pm_containerPort pm)
  | [] => throw ("Container " +:+ ct_name c +:+ " hasn't defined any ports. Call addPortMappings().")
  end.

(** [containerDefinition.findPortMapping(port, protocol)]: the first
    mapping of that port and protocol (TCP when not given). *)
Definition find_port_mapping (c : Container) (port : Z) (proto : EcsProtocol)
    : option PortMapping :=
  snd <$> list_find (λ pm, pm_containerPort pm = port ∧ default EcsTCP (pm_protocol pm) = proto)
            (ct_portMappings c).

(** [taskDefinition.findContainer(name)]: the first of its containers with
    that name. *)
Fixpoint find_container (cs : list path) (name : string) : M St (option Container) :=
  match cs with
  | [] => mret None
  | p :: cs' =>
      c ← deref "ContainerDefinition" as_container p;
      if decide (ct_name c = name) then mret (Some c) else find_container cs' name
  end.

(** [taskDefinition._portRangeFromPortMapping(portMapping)] *)
Definition port_range_from_port_mapping (mode : NetworkMode) (pm : PortMapping) : Port :=
  let udp := bool_decide (pm_protocol pm = Some EcsUDP) in
  match pm_hostPort pm with
  | Some h =>
      if decide (h ≠ 0%Z) then (if udp then PortUdp h else PortTcp h)
      else if decide (mode = BRIDGE) then PortTcpRange 32768 65535
      else if udp then PortUdp (pm_containerPort pm) else PortTcp (pm_containerPort pm)
  | None =>
      if decide (mode = BRIDGE) then PortTcpRange 32768 65535
      else if udp then PortUdp (pm_containerPort pm) else PortTcp (pm_containerPort pm)
  end.

Definition with_load_balancers (s : Service) (lbs : list LoadBalancerRegistration) : Service :=
  {| sv_cluster := sv_cluster s; sv_taskDefinition := sv_taskDefinition s;
     sv_desiredCount := sv_desiredCount s; sv_subnets := sv_subnets s;
     sv_securityGroups := sv_securityGroups s; sv_loadBalancers := lbs |}.

(** [service.attachToApplicationTargetGroup(targetGroup)]: the default
    load balancer target, i.e. the default container
    ([defaultContainer!.containerName]), validated by [_validateTarget]
    (the container exists and maps its [containerPort], the first
    mapping's port, over TCP); then [registerConnectable] of the
    service's groups on that port, and [attachToELBv2], which records
    the registration and answers target type IP in awsvpc mode. *)
Definition service_attach_to_application_target_group (svc tg : path) : M St TargetType :=
  s ← deref "FargateService" as_service svc;
  t ← deref "TaskDefinition" as_taskdef (sv_taskDefinition s);
  dc ← match td_defaultContainer t with
       | Some d => mret d
       | None => throw "Cannot read properties of undefined (reading 'containerName')"
       end;
  d ← deref "ContainerDefinition" as_container dc;
  oc ← find_container (td_containers t) (ct_name d);
  c ← match oc with
      | Some c => mret c
      | None => throw ("No container named '" +:+ ct_name d +:+ "'. Did you call addContainer()?")
      end;
  port ← container_port c;
  pm ← match find_port_mapping c port EcsTCP with
       | Some pm => mret pm
       | None => throw ("Container '" +:+ ct_name c +:+ "' has no mapping for port "
                        +:+ pretty (Z.to_N port) +:+ " and protocol tcp. Did you call container.addPortMappings()?")
       end;
  register_connectable tg (sv_securityGroups s) (port_range_from_port_mapping (td_networkMode t) pm);;
  if decide (td_networkMode t = NONE) then
    throw "Cannot use a load balancer if NetworkMode is None. Use Bridge, Host or AwsVpc instead."
  else
  s' ← deref "FargateService" as_service svc;
  set_node svc (NService (with_load_balancers s' (sv_loadBalancers s' ++
    [{| lb_targetGroup := tg; lb_containerName := ct_name c;
        lb_containerPort := pm_containerPort pm |}])));;
  mret (if decide (td_networkMode t = AWS_VPC) then IP else INSTANCE).

(** ** Invariance *)

Section Inv.
Context `{StInv P}.

Lemma cluster_new_inv scope id props : preserves P (cluster_new scope id props).
Proof. unfold cluster_new. preserve. Qed.

Lemma fargate_task_definition_new_inv scope id props :
  preserves P (fargate_task_definition_new scope id props).
Proof. unfold fargate_task_definition_new. preserve. Qed.

Lemma obtain_execution_role_inv td : preserves P (obtain_execution_role td).
Proof. unfold obtain_execution_role. preserve. Qed.
#[local] Hint Resolve obtain_execution_role_inv : cdk.

Lemma aws_log_driver_bind_inv ct td : preserves P (aws_log_driver_bind ct td).
Proof. unfold aws_log_driver_bind. preserve. Qed.
#[local] Hint Resolve aws_log_driver_bind_inv : cdk.

Lemma add_container_inv td id opts : preserves P (add_container td id opts).
Proof. unfold add_container. preserve. Qed.

Lemma check_port_mappings_inv mode pms : preserves P (check_port_mappings mode pms).
Proof. induction pms; simpl; [preserve|]. unfold check_port_mapping. preserve. Qed.
#[local] Hint Resolve check_port_mappings_inv : cdk.

Lemma add_port_mappings_inv ct pms : preserves P (add_port_mappings ct pms).
Proof. unfold add_port_mappings. preserve. Qed.

Lemma fargate_service_new_inv scope id props : preserves P (fargate_service_new scope id props).
Proof. unfold fargate_service_new. preserve. Qed.

Lemma container_port_inv c : preserves P (container_port c).
Proof. unfold container_port. preserve. Qed.

Lemma find_container_inv cs name : preserves P (find_container cs name).
Proof. induction cs; simpl; preserve. Qed.
#[local] Hint Resolve container_port_inv find_container_inv : cdk.

Lemma service_attach_inv svc tg :
  preserves P (service_attach_to_application_target_group svc tg).
Proof. unfold service_attach_to_application_target_group. preserve. Qed.
End Inv.

#[export] Hint Resolve cluster_new_inv fargate_task_definition_new_inv add_container_inv
  add_port_mappings_inv fargate_service_new_inv : cdk.

(** ** Attaching a service whose container maps no port *)

Lemma find_container_head dc cs c t :
  t !! dc = Some (NContainer c) → find_container (dc :: cs) (ct_name c) t = Ok (Some c, t).
Proof.
  intros Hc. simpl. rewrite (bind_Ok_eq _ _ _ c t) by (apply deref_Ok; by rewrite Hc).
  by rewrite decide_True.
Qed.

(** [attachToApplicationTargetGroup] reads [containerPort] of the default
    container; when the container has no port mapping yet, it throws. *)
Lemma service_attach_no_ports svc tg s d dc cs c t :
  t !! svc = Some (NService s) →
  t !! sv_taskDefinition s = Some (NTaskDefinition d) →
  td_defaultContainer d = Some dc → td_containers d = dc :: cs →
  t !! dc = Some (NContainer c) → ct_portMappings c = [] →
  service_attach_to_application_target_group svc tg t =
    Err ("Container " +:+ ct_name c +:+ " hasn't defined any ports. Call addPortMappings().").
Proof.
  intros Hs Hd Hdc Hcs Hc Hpm. unfold service_attach_to_application_target_group.
  rewrite (bind_Ok_eq _ _ _ s t) by (apply deref_Ok; by rewrite Hs).
  rewrite (bind_Ok_eq _ _ _ d t) by (apply deref_Ok; by rewrite Hd).
  rewrite Hdc, (bind_Ok_eq _ _ _ dc t) by done.
  rewrite (bind_Ok_eq _ _ _ c t) by (apply deref_Ok; by rewrite Hc).
  rewrite Hcs, (bind_Ok_eq _ _ _ (Some c) t) by (by apply find_container_head).
  rewrite (bind_Ok_eq _ _ _ c t) by done.
  apply bind_Err_eq. unfold container_port. by rewrite Hpm.
Qed.

(** ** Locality *)

Section Local.

Lemma cluster_new_local scope id props : local (cluster_new scope id props).
Proof. unfold cluster_new. localize. Qed.

Lemma fargate_task_definition_new_local scope id props :
  local (fargate_task_definition_new scope id props).
Proof. unfold fargate_task_definition_new. localize. Qed.

Lemma obtain_execution_role_local td : local (obtain_execution_role td).
Proof. unfold obtain_execution_role. localize. Qed.
#[local] Hint Resolve obtain_execution_role_local : cdk.

Lemma aws_log_driver_bind_local ct td : local (aws_log_driver_bind ct td).
Proof. unfold aws_log_driver_bind. localize. Qed.
#[local] Hint Resolve aws_log_driver_bind_local : cdk.

Lemma add_container_local td id opts : local (add_container td id opts).
Proof. unfold add_container. localize. Qed.

Lemma check_port_mappings_local mode pms : local (check_port_mappings mode pms).
Proof. induction pms; simpl; [localize|]. unfold check_port_mapping. localize. Qed.
#[local] Hint Resolve check_port_mappings_local : cdk.

Lemma add_port_mappings_local ct pms : local (add_port_mappings ct pms).
Proof. unfold add_port_mappings. localize. Qed.

Lemma fargate_service_new_local scope id props : local (fargate_service_new scope id props).
Proof. unfold fargate_service_new. localize. Qed.

Lemma container_port_local c : local (container_port c).
Proof. unfold container_port. localize. Qed.

Lemma find_container_local cs name : local (find_container cs name).
Proof. induction cs; simpl; localize. Qed.
#[local] Hint Resolve container_port_local find_container_local : cdk.

Lemma service_attach_local svc tg : local (service_attach_to_application_target_group svc tg).
Proof. unfold service_attach_to_application_target_group. localize. Qed.
End Local.

#[export] Hint Resolve cluster_new_local fargate_task_definition_new_local add_container_local
  add_port_mappings_local fargate_service_new_local : cdk.

(** The ECS service is an [IApplicationLoadBalancerTarget]. *)
#[export] Instance service_target : AppTarget := {|
  attach_to_application_target_group := service_attach_to_application_target_group;
  attach_inv := @service_attach_inv;
  attach_local := service_attach_local |}.

(** ** Port mappings of a container of an awsvpc task definition *)

(** A mapping awsvpc mode refuses: a host port other than the container port. *)
Definition awsvpc_conflict (pm : PortMapping) : bool :=
  match pm_hostPort pm with Some h => bool_decide (h ≠ pm_containerPort pm) | None => false end.

Definition host_port_error : string :=
  "The host port must be left out or must be the same as the container port for AwsVpc or Host network mode.".

Lemma check_port_mappings_awsvpc pms t :
  check_port_mappings AWS_VPC pms t =
    if existsb awsvpc_conflict pms then Err host_port_error else Ok (pms, t).
Proof.
  induction pms as [|pm pms IH]; [done|]. simpl.
  unfold check_port_mapping, awsvpc_conflict. cbv [mbind M_bind mret M_ret throw].
  destruct (pm_hostPort pm) as [h|].
  - destruct (decide (h = pm_containerPort pm)) as [<-|Hne].
    + rewrite decide_False by tauto. rewrite bool_decide_false by tauto. simpl.
      rewrite IH. by destruct (existsb _ _).
    + rewrite decide_True by auto. by rewrite bool_decide_true.
  - rewrite decide_False by done. simpl. rewrite IH. by destruct (existsb _ _).
Qed.

(** (C25) [addPortMappings] on a container of an awsvpc task definition
    appends the mappings to the container's, in order, and changes nothing
    else; it throws, and leaves the container as it was, when a mapping
    gives a host port other than its container port. *)
Theorem add_port_mappings_awsvpc ct c d pms t :
  t !! ct = Some (NContainer c) →
  t !! ct_taskDefinition c = Some (NTaskDefinition d) →
  td_networkMode d = AWS_VPC →
  add_port_mappings ct pms t =
    if existsb awsvpc_conflict pms then Err host_port_error
    else Ok ((), <[ct := NContainer (with_port_mappings c (ct_portMappings c ++ pms))]> t).
Proof.
  intros Hc Hd Hm. unfold add_port_mappings.
  rewrite (bind_Ok_eq _ _ _ c t) by (apply deref_Ok; by rewrite Hc).
  rewrite (bind_Ok_eq _ _ _ d t) by (apply deref_Ok; by rewrite Hd).
  rewrite Hm. destruct (existsb awsvpc_conflict pms) eqn:E.
  - apply bind_Err_eq. by rewrite check_port_mappings_awsvpc, E.
  - rewrite (bind_Ok_eq _ _ _ pms t) by (by rewrite check_port_mappings_awsvpc, E).
    apply set_node_Ok. by rewrite Hc.
Qed.
