(* ===== verification/Stack.v ===== *)
(** * [TypeTaskStack] and the app entry point

    [type_task_stack] is the constructor of src/lib/type-task-stack.ts,
    one bind per statement, in the source's order and with the source's
    literals; [app_main] is src/bin/type-task.ts. *)

From stdpp Require Import base gmap strings list pretty fin_maps.
From Stdlib Require Import ZArith Ascii.
From S2P Require Import Prelude LogicalId Constructs Cidr Resources Network SecurityGroups Elb Ecs.

(** [VALID_STACKNAME_REGEX = /^[A-Za-z][A-Za-z0-9-]*$/] *)
Definition is_alpha (c : ascii) : bool :=
  let n := nat_of_ascii c in (bool_decide (65 ≤ n ≤ 90) || bool_decide (97 ≤ n ≤ 122))%bool.

Definition is_alnum_dash (c : ascii) : bool :=
  let n := nat_of_ascii c in
  (is_alpha c || bool_decide (48 ≤ n ≤ 57) || bool_decide (n = 45))%bool.

Fixpoint all_alnum_dash (s : string) : bool :=
  match s with
  | EmptyString => true
  | String c s' => (is_alnum_dash c && all_alnum_dash s')%bool
  end.

Definition valid_stack_name (s : string) : bool :=
  match s with
  | EmptyString => false
  | String c s' => (is_alpha c && all_alnum_dash s')%bool
  end.

(** [makeStackName(components)]: a single component of at most 128
    characters is the name; a longer one is shortened to 128 characters
    by [makeUniqueResourceName]; the ids of a stack nested in constructs
    are named by [makeUniqueId]. *)
Definition make_stack_name (components : list string) : result string :=
  match components with
  | [c] => if decide (String.length c ≤ 128) then Ok c else make_unique_resource_name components 128
  | _ => make_unique_id components
  end.

Definition stack_name_length_error (name : string) : string :=
  "Stack name must be <= 128 characters. Stack name: '" +:+ name +:+ "'".

Definition stack_name_pattern_error (name : string) : string :=
  "Stack name must match the regular expression: /^[A-Za-z][A-Za-z0-9-]*$/, got '" +:+ name +:+ "'".

(** [new Stack(scope, id, props)] without [stackName]: the node, then the
    name generated from the ids of the path below the app
    ([generateStackName]), checked for its length first, then against
    the pattern. *)
Definition stack_new (scope : path) (id : string) : M St path :=
  this ← add_child scope id NStack;
  match make_stack_name this with
  | Err e => throw e
  | Ok name =>
      if decide (128 < String.length name) then throw (stack_name_length_error name)
      else if negb (valid_stack_name name) then throw (stack_name_pattern_error name)
      else mret this
  end.

(** [new cdk.CfnOutput(scope, id, { value })]; the value is a token and
    never undefined. *)
Definition cfn_output_new (scope : path) (id : string) (props : CfnOutputProps) : M St path :=
  add_child scope id (NOutput props).

(** The literals of the source. *)
Definition vpc_props : VpcProps := {|
  vp_maxAzs := Some 2;
  vp_natGateways := Some 1;
  vp_subnetConfiguration := Some [
    {| sc_name := "public-subnet1"; sc_cidrMask := Some 24%Z; sc_subnetType := PUBLIC |};
    {| sc_name := "private-subnet1"; sc_cidrMask := Some 24%Z;
       sc_subnetType := PRIVATE_WITH_NAT |} ] |}.

Definition container_options : ContainerDefinitionOptions := {|
  cdo_image := "amazon/amazon-ecs-sample";
  cdo_logging := Some {| ld_streamPrefix := "ecs" |};
  cdo_essential := None |}.

Definition health_check : HealthCheck := {| hc_path := Some "/"; hc_interval := Some 30%Z |}.

(** Lines 12-30: the VPC and the cluster in it. *)
Definition stack_network (this : path) : M St (path * path) :=
  vpc ← vpc_new this "VPC" vpc_props;
  cluster ← cluster_new this "EcsCluster" {| cp_vpc := Some vpc |};
  mret (vpc, cluster).

(** Lines 33-37 *)
Definition alb_security_group_props (vpc : path) : SecurityGroupProps :=
  {| sgp_vpc := vpc; sgp_allowAllOutbound := Some true;
     sgp_description := Some "Allow HTTP traffic to ALB" |}.

(** Lines 32-39: the ALB's security group, open to HTTP from anywhere. *)
Definition stack_alb_security_group (this vpc : path) : M St path :=
  albSecurityGroup ← security_group_new this "AlbSecurityGroup" (alb_security_group_props vpc);
  add_ingress_rule albSecurityGroup any_ipv4 (PortTcp 80)
    (Some "Allow HTTP traffic from anywhere");;
  mret albSecurityGroup.

(** Lines 40-43 *)
Definition task_definition_props : FargateTaskDefinitionProps :=
  {| tdp_memoryLimitMiB := Some 512%Z; tdp_cpu := Some 256%Z |}.

(** Lines 40-49: the Fargate task definition and its container. *)
Definition stack_task_definition (this : path) : M St (path * path) :=
  taskDefinition ← fargate_task_definition_new this "TaskDef" task_definition_props;
  container ← add_container taskDefinition "DefaultContainer" container_options;
  mret (taskDefinition, container).

(** Lines 52-55 *)
Definition service_security_group_props (vpc : path) : SecurityGroupProps :=
  {| sgp_vpc := vpc; sgp_allowAllOutbound := Some true; sgp_description := None |}.

(** Lines 58-64 *)
Definition service_props (cluster taskDefinition serviceSecurityGroup : path)
    : FargateServiceProps :=
  {| fsp_cluster := cluster; fsp_taskDefinition := taskDefinition;
     fsp_desiredCount := Some 2;
     fsp_vpcSubnets := Some {| ss_subnetType := Some PRIVATE_WITH_NAT |};
     fsp_securityGroups := Some [serviceSecurityGroup] |}.

(** Lines 51-64: the service's security group, open to the ALB's group on
    8080, and the Fargate service in the private subnets. *)
Definition stack_service (this vpc cluster taskDefinition albSecurityGroup : path)
    : M St path :=
  serviceSecurityGroup ← security_group_new this "ServiceSecurityGroup"
    (service_security_group_props vpc);
  add_ingress_rule serviceSecurityGroup (PeerSecurityGroup albSecurityGroup) (PortTcp 8080)
    (Some "Allow traffic from ALB");;
  fargate_service_new this "FargateService"
    (service_props cluster taskDefinition serviceSecurityGroup).

(** The port mapping of line 68. *)
Definition container_port_mapping : PortMapping :=
  {| pm_containerPort := 8080; pm_hostPort := None; pm_protocol := None |}.

(** Lines 66-69: map container port 8080. *)
Definition stack_port_mapping (container : path) : M St unit :=
  add_port_mappings container [container_port_mapping].

(** Lines 72-76 *)
Definition alb_props (vpc albSecurityGroup : path) : ApplicationLoadBalancerProps :=
  {| albp_vpc := vpc; albp_internetFacing := Some true;
     albp_securityGroup := Some albSecurityGroup |}.

(** Lines 79-82 *)
Definition listener_props : ApplicationListenerProps :=
  {| lp_port := Some 80%Z; lp_open := Some true |}.

(** Lines 85-92 *)
Definition targets_props (service : path) : AddApplicationTargetsProps :=
  {| atp_port := Some 8080%Z; atp_targets := [service]; atp_healthCheck := Some health_check |}.

(** Lines 71-92: the internet-facing ALB, its open listener on 80 and the
    target group on 8080 that forwards to the service. *)
Definition stack_load_balancer (this vpc albSecurityGroup service : path) : M St path :=
  alb ← application_load_balancer_new this "ALB" (alb_props vpc albSecurityGroup);
  listener ← add_listener alb "Listener" listener_props;
  _ ← add_targets listener "ECS" (targets_props service);
  mret alb.

(** Lines 95-97 *)
Definition output_props (alb : path) : CfnOutputProps := {| op_value := GetAtt alb "DNSName" |}.

(** Lines 94-97: the ALB's DNS name as a stack output. *)
Definition stack_output (this alb : path) : M St path :=
  cfn_output_new this "ALBDnsName" (output_props alb).

(** [constructor(scope, id, props)] of [TypeTaskStack]: its statements in
    order; returns the stack. *)
Definition type_task_stack (scope : path) (id : string) : M St path :=
  this ← stack_new scope id;
  '(vpc, cluster) ← stack_network this;
  albSecurityGroup ← stack_alb_security_group this vpc;
  '(taskDefinition, container) ← stack_task_definition this;
  service ← stack_service this vpc cluster taskDefinition albSecurityGroup;
  stack_port_mapping container;;
  alb ← stack_load_balancer this vpc albSecurityGroup service;
  _ ← stack_output this alb;
  mret this.

(** [new cdk.App()]: the root of the tree. *)
Definition app_new : St := {[ [] := NApp ]}.

(** src/bin/type-task.ts: [new TypeTaskStack(app, 'TypeTaskStack')]. *)
Definition app_main : result (path * St) := type_task_stack [] "TypeTaskStack" app_new.

(** ** Invariance *)

Section Inv.
Context `{StInv P}.

Lemma stack_new_inv scope id : preserves P (stack_new scope id).
Proof. unfold stack_new. preserve. Qed.

Lemma cfn_output_new_inv scope id props : preserves P (cfn_output_new scope id props).
Proof. unfold cfn_output_new. preserve. Qed.
#[local] Hint Resolve stack_new_inv cfn_output_new_inv : cdk.

Lemma stack_network_inv this : preserves P (stack_network this).
Proof. unfold stack_network. preserve. Qed.

Lemma stack_alb_security_group_inv this vpc : preserves P (stack_alb_security_group this vpc).
Proof. unfold stack_alb_security_group. preserve. Qed.

Lemma stack_task_definition_inv this : preserves P (stack_task_definition this).
Proof. unfold stack_task_definition. preserve. Qed.

Lemma stack_service_inv this vpc cl td sg : preserves P (stack_service this vpc cl td sg).
Proof. unfold stack_service. preserve. Qed.

Lemma stack_port_mapping_inv c : preserves P (stack_port_mapping c).
Proof. unfold stack_port_mapping. preserve. Qed.

Lemma stack_load_balancer_inv this vpc sg svc : preserves P (stack_load_balancer this vpc sg svc).
Proof. unfold stack_load_balancer. preserve. Qed.

Lemma stack_output_inv this alb : preserves P (stack_output this alb).
Proof. unfold stack_output. preserve. Qed.

#[local] Hint Resolve stack_network_inv stack_alb_security_group_inv stack_task_definition_inv
  stack_service_inv stack_port_mapping_inv stack_load_balancer_inv stack_output_inv : cdk.

Lemma type_task_stack_inv scope id : preserves P (type_task_stack scope id).
Proof. unfold type_task_stack. preserve. Qed.
End Inv.

(** ** Locality *)

Section Local.

Lemma stack_new_local scope id : local (stack_new scope id).
Proof. unfold stack_new. localize. Qed.

Lemma cfn_output_new_local scope id props : local (cfn_output_new scope id props).
Proof. unfold cfn_output_new. localize. Qed.
#[local] Hint Resolve stack_new_local cfn_output_new_local : cdk.

Lemma stack_network_local this : local (stack_network this).
Proof. unfold stack_network. localize. Qed.

Lemma stack_alb_security_group_local this vpc : local (stack_alb_security_group this vpc).
Proof. unfold stack_alb_security_group. localize. Qed.

Lemma stack_task_definition_local this : local (stack_task_definition this).
Proof. unfold stack_task_definition. localize. Qed.

Lemma stack_service_local this vpc cl td sg : local (stack_service this vpc cl td sg).
Proof. unfold stack_service. localize. Qed.

Lemma stack_port_mapping_local c : local (stack_port_mapping c).
Proof. unfold stack_port_mapping. localize. Qed.

Lemma stack_load_balancer_local this vpc sg svc : local (stack_load_balancer this vpc sg svc).
Proof. unfold stack_load_balancer. localize. Qed.

Lemma stack_output_local this alb : local (stack_output this alb).
Proof. unfold stack_output. localize. Qed.

#[local] Hint Resolve stack_network_local stack_alb_security_group_local
  stack_task_definition_local stack_service_local stack_port_mapping_local
  stack_load_balancer_local stack_output_local : cdk.

Lemma type_task_stack_local scope id : local (type_task_stack scope id).
Proof. unfold type_task_stack. localize. Qed.
End Local.

(** ** The stack constructor *)

(** (C1) src/bin/type-task.ts runs to completion: the constructor throws
    nowhere.  The stack is at path [TypeTaskStack] of a well-formed tree. *)
Theorem app_main_ok : ∃ st, app_main = Ok (["TypeTaskStack"], st) ∧ tree_wf st.
Proof.
  assert (Hp : (match app_main with Ok (p, _) => p | Err _ => [] end) = ["TypeTaskStack"])
    by (vm_compute; reflexivity).
  destruct app_main as [[p st]|e] eqn:E; [|discriminate]. subst p.
  exists st. split; [done|].
  eapply (type_task_stack_inv (P := tree_wf)); [apply tree_wf_root|exact E].
Qed.

(** ** Order of the statements and references between constructs *)

(** The container ports the tasks of the service at [svc] expose: the
    port mappings of its task definition's default container, read through
    the references the service holds. *)
Definition service_container_ports (t : St) (svc : path) : list Z :=
  match t !! svc with
  | Some (NService s) =>
      match t !! sv_taskDefinition s with
      | Some (NTaskDefinition d) =>
          match td_defaultContainer d with
          | Some dc => match t !! dc with
                       | Some (NContainer c) => map pm_containerPort (ct_portMappings c)
                       | _ => []
                       end
          | None => []
          end
      | _ => []
      end
  | _ => []
  end.

(** The statements of the constructor up to line 63, returning the
    container and the service. *)
Definition type_task_stack_upto_service (scope : path) (id : string) : M St (path * path) :=
  this ← stack_new scope id;
  '(vpc, cluster) ← stack_network this;
  albSecurityGroup ← stack_alb_security_group this vpc;
  '(taskDefinition, container) ← stack_task_definition this;
  service ← stack_service this vpc cluster taskDefinition albSecurityGroup;
  mret (container, service).

(** The tree just before line 79, [alb.addListener('Listener', ...)]. *)
Definition before_listener : St :=
  match type_task_stack_upto_service [] "TypeTaskStack" app_new return St with
  | Ok (_, t) =>
      match stack_port_mapping ["TypeTaskStack"; "TaskDef"; "DefaultContainer"] t return St with
      | Ok (_, t) =>
          match application_load_balancer_new ["TypeTaskStack"] "ALB"
                  (alb_props ["TypeTaskStack"; "VPC"] ["TypeTaskStack"; "AlbSecurityGroup"]) t return St with
          | Ok (_, t) => t
          | Err _ => ∅
          end
      | Err _ => ∅
      end
  | Err _ => ∅
  end.

(** The tree just before [listener.addTargets] when lines 66-69 come
    after it: the service and the listener exist, no port is mapped. *)
Definition before_targets : St :=
  match (this ← stack_new [] "TypeTaskStack";
         '(vpc, cluster) ← stack_network this;
         albSecurityGroup ← stack_alb_security_group this vpc;
         '(taskDefinition, container) ← stack_task_definition this;
         _ ← stack_service this vpc cluster taskDefinition albSecurityGroup;
         alb ← application_load_balancer_new this "ALB" (alb_props vpc albSecurityGroup);
         add_listener alb "Listener" listener_props) app_new return St with
  | Ok (_, t) => t
  | Err _ => ∅
  end.

(** The tree just before lines 66-69. *)
Definition before_port_mapping : St :=
  match type_task_stack_upto_service [] "TypeTaskStack" app_new return St with Ok (_, t) => t | Err _ => ∅ end.

(** (C6) Lines 66-69 run after the service is created (line 57) and still
    reach it: the service holds a reference to the task definition, which
    holds the container, so adding port 8080 to the container adds it to
    the ports of the service's tasks.  This holds of any tree in which the
    service's default container belongs to its awsvpc task definition. *)
Theorem port_mapping_reaches_service t svc s d dc c :
  t !! svc = Some (NService s) →
  t !! sv_taskDefinition s = Some (NTaskDefinition d) →
  td_defaultContainer d = Some dc →
  t !! dc = Some (NContainer c) →
  ct_taskDefinition c = sv_taskDefinition s →
  td_networkMode d = AWS_VPC →
  ∃ t', stack_port_mapping dc t = Ok ((), t') ∧
        service_container_ports t' svc = service_container_ports t svc ++ [8080%Z].
Proof.
  intros Hs Hd Hdc Hc Htd Hm. unfold stack_port_mapping.
  rewrite (add_port_mappings_awsvpc dc c d) by (try rewrite Htd; done). simpl.
  eexists. split; [reflexivity|]. unfold service_container_ports.
  rewrite lookup_insert_ne, Hs by (intros ->; congruence).
  rewrite lookup_insert_ne, Hd by (intros ->; congruence).
  rewrite Hdc, lookup_insert_eq, Hc. simpl. by rewrite map_app.
Qed.

Lemma port_mapping_reaches_service_witness :
  ∃ t', stack_port_mapping ["TypeTaskStack"; "TaskDef"; "DefaultContainer"] before_port_mapping
          = Ok ((), t') ∧
        service_container_ports t' ["TypeTaskStack"; "FargateService"] =
          service_container_ports before_port_mapping ["TypeTaskStack"; "FargateService"] ++ [8080%Z].
Proof. eapply port_mapping_reaches_service; vm_compute; reflexivity. Defined.

Lemma add_port_mappings_awsvpc_witness :
  add_port_mappings ["TypeTaskStack"; "TaskDef"; "DefaultContainer"]
    [{| pm_containerPort := 8080; pm_hostPort := Some 80%Z; pm_protocol := None |}]
    before_port_mapping = Err host_port_error.
Proof.
  erewrite add_port_mappings_awsvpc; [reflexivity|vm_compute; reflexivity..].
Defined.

(** ** Registering the service before its port mapping *)

(** (C7) Lines 85-92 need the container's port: on any tree where the
    listener belongs to a load balancer, the target group's id is free and
    the service's default container (the first of its task definition)
    maps no port yet, [listener.addTargets('ECS', ...)] of the source
    throws "Container <name> hasn't defined any ports. Call
    addPortMappings().". *)
Theorem add_targets_before_port_mapping lis l a svc s d dc cs c t :
  t !! lis = Some (NListener l) →
  t !! ls_loadBalancer l = Some (NLoadBalancer a) →
  t !! (lis ++ ["ECSGroup"]) = None →
  t !! svc = Some (NService s) →
  t !! sv_taskDefinition s = Some (NTaskDefinition d) →
  td_defaultContainer d = Some dc → td_containers d = dc :: cs →
  t !! dc = Some (NContainer c) → ct_portMappings c = [] →
  add_targets lis "ECS" (targets_props svc) t =
    Err ("Container " +:+ ct_name c +:+ " hasn't defined any ports. Call addPortMappings().").
Proof.
  intros Hl Ha Hfresh Hs Hd Hdc Hcs Hc Hpm. unfold add_targets.
  rewrite (bind_Ok_eq _ _ _ l t) by (apply deref_Ok; by rewrite Hl).
  rewrite (bind_Ok_eq _ _ _ a t) by (apply deref_Ok; by rewrite Ha).
  apply bind_Err_eq. unfold application_target_group_new.
  rewrite (bind_Ok_eq _ _ _ (Some (HTTP, 8080%Z)) t) by reflexivity. simpl.
  rewrite (bind_Ok_eq _ _ _ (lis ++ ["ECSGroup"]) _)
    by (apply add_child_Ok; split_and!; [done|by eexists|exact Hfresh|done|done]).
  apply bind_Err_eq. unfold add_target. simpl. apply bind_Err_eq, bind_Err_eq.
  apply (service_attach_no_ports _ _ s d dc cs c); try done; by apply lookup_insert_fresh.
Qed.

(** ** The stack's name *)

(** Under the app, the constructor's first statement makes the stack's
    node and then names it. *)
Lemma stack_new_under_app id :
  sanitize_id id ≠ "" →
  stack_new [] id app_new =
    match make_stack_name [sanitize_id id] with
    | Err e => Err e
    | Ok name =>
        if decide (128 < String.length name) then Err (stack_name_length_error name)
        else if negb (valid_stack_name name) then Err (stack_name_pattern_error name)
        else Ok ([sanitize_id id], <[[sanitize_id id] := NStack]> app_new)
    end.
Proof.
  intros Hne. unfold stack_new.
  rewrite (bind_Ok_eq _ _ _ [sanitize_id id] (<[[sanitize_id id] := NStack]> app_new))
    by (apply add_child_Ok; split_and!; [done|by eexists|by apply lookup_singleton_ne|done|done]).
  destruct (make_stack_name _) as [name|e]; [|done].
  case_decide; [done|]. by destruct (valid_stack_name name).
Qed.

(** (C26) The constructor checks the stack's name before anything else: under
    a fresh app, an id whose sanitised form has at most 128 characters
    and does not match [/^[A-Za-z][A-Za-z0-9-]*$/] makes it throw, and
    nothing is created. *)
Theorem type_task_stack_bad_name id :
  sanitize_id id ≠ "" → (String.length (sanitize_id id) ≤ 128)%nat →
  valid_stack_name (sanitize_id id) = false →
  type_task_stack [] id app_new = Err (stack_name_pattern_error (sanitize_id id)).
Proof.
  intros Hne Hlen Hbad. unfold type_task_stack. apply bind_Err_eq.
  rewrite stack_new_under_app by done. simpl. rewrite decide_True by done.
  rewrite decide_False by lia. by rewrite Hbad.
Qed.

(** (C27) A stack id longer than 128 characters is not refused for its
    length: under a fresh app the generated name is shortened by
    [makeUniqueResourceName] to at most 128 characters, and the
    constructor's first statement then succeeds or throws the pattern
    error only. *)
Theorem type_task_stack_long_id id :
  (128 < String.length (sanitize_id id))%nat →
  ∃ name, make_stack_name [sanitize_id id] = Ok name ∧ (String.length name ≤ 128)%nat ∧
    stack_new [] id app_new =
      if valid_stack_name name then Ok ([sanitize_id id], <[[sanitize_id id] := NStack]> app_new)
      else Err (stack_name_pattern_error name).
Proof.
  intros Hlen. assert (Hne : sanitize_id id ≠ "") by (intros E; rewrite E in Hlen; simpl in Hlen; lia).
  rewrite stack_new_under_app by done.
  destruct (make_stack_name [sanitize_id id]) as [name|e] eqn:E.
  - assert (Hn : (String.length name ≤ 128)%nat).
    { unfold make_stack_name in E. rewrite decide_False in E by lia.
      apply (make_unique_resource_name_length [sanitize_id id] 128 name); [unfold hash_len; lia|exact E]. }
    exists name. split_and!; [done|done|]. rewrite decide_False by lia.
    by destruct (valid_stack_name name).
  - exfalso. unfold make_stack_name in E. rewrite decide_False in E by lia.
    destruct (make_unique_resource_name_ok [sanitize_id id] 128) as [name Hn]; [|congruence].
    exists (sanitize_id id). split; [by left|]. intros Hc. rewrite Hc in Hlen. simpl in Hlen. lia.
Qed.

Lemma type_task_stack_bad_name_witness :
  type_task_stack [] "Type_Task" app_new = Err (stack_name_pattern_error (sanitize_id "Type_Task")).
Proof. apply (type_task_stack_bad_name "Type_Task"); vm_compute; [discriminate|lia|reflexivity]. Defined.

(** A second stack beside [TypeTaskStack] in the app. *)
Lemma add_targets_before_port_mapping_witness :
  add_targets ["TypeTaskStack"; "ALB"; "Listener"] "ECS"
    (targets_props ["TypeTaskStack"; "FargateService"]) before_targets =
  Err "Container DefaultContainer hasn't defined any ports. Call addPortMappings().".
Proof.
  etransitivity; [eapply add_targets_before_port_mapping|]; vm_compute; reflexivity.
Defined.

Lemma add_listener_open_witness :
  ∃ a g, before_listener !! ["TypeTaskStack"; "ALB"] = Some (NLoadBalancer a) ∧
    before_listener !! alb_securityGroup a = Some (NSecurityGroup g) ∧
    ∃ t' a' g',
      add_listener ["TypeTaskStack"; "ALB"] "Listener" listener_props before_listener
        = Ok (["TypeTaskStack"; "ALB"] ++ [sanitize_id "Listener"], t') ∧
      t' !! (["TypeTaskStack"; "ALB"] ++ [sanitize_id "Listener"]) =
        Some (NListener {| ls_loadBalancer := ["TypeTaskStack"; "ALB"]; ls_port := 80;
                           ls_protocol := HTTP; ls_defaultTargetGroups := [] |}) ∧
      t' !! ["TypeTaskStack"; "ALB"] = Some (NLoadBalancer a') ∧
      alb_listeners a' = alb_listeners a ++ [["TypeTaskStack"; "ALB"] ++ [sanitize_id "Listener"]] ∧
      alb_securityGroup a' = alb_securityGroup a ∧
      t' !! alb_securityGroup a = Some (NSecurityGroup g') ∧
      {| ir_cidrIp := Cidr 0 0; ir_port := PortTcp 80;
         ir_description := "Allow from anyone on port " +:+ pretty (Z.to_N 80) |} ∈ sg_ingress g'.
Proof.
  eexists _, _. split; [vm_compute; reflexivity|]. split; [vm_compute; reflexivity|].
  eapply add_listener_open; [vm_compute; reflexivity..|discriminate|vm_compute; reflexivity
                           |reflexivity|left; reflexivity|reflexivity].
Defined.

(** A valid name of 129 characters. *)
Fixpoint a_string (n : nat) : string :=
  match n with O => EmptyString | S n => String "a"%char (a_string n) end.

Definition long_stack_name : string := String "T"%char (a_string 128).

Lemma type_task_stack_long_id_witness :
  ∃ name, make_stack_name [sanitize_id long_stack_name] = Ok name ∧ (String.length name ≤ 128)%nat ∧
    stack_new [] long_stack_name app_new =
      if valid_stack_name name
      then Ok ([sanitize_id long_stack_name], <[[sanitize_id long_stack_name] := NStack]> app_new)
      else Err (stack_name_pattern_error name).
Proof. apply type_task_stack_long_id. vm_compute. lia. Defined.
