(* ===== verification/Traffic.v ===== *)
(** * What the deployed stack lets through

    The comments of src/lib/type-task-stack.ts state the intent of the
    wiring.  Lines 32-39 make a "security group for the ALB" that allows
    HTTP "from anywhere".  Lines 51-56 make a "security group for the ECS
    service" that allows "traffic from ALB".  Lines 84-92 "add the ECS
    service as a target to the listener".  This file gives the meaning of
    that configuration as EC2 and ELB apply it:
    - a packet comes from an address and carries the security groups of
      its network interface;
    - a group admits it on a port when an inline rule's block contains
      the address, or when an ingress resource names one of the packet's
      groups, with the port in the rule's range;
    - a listener forwards to its default target groups;
    - a target group sends to the tasks of the services registered with
      it, on the registered container port.
    [deliver] follows a request through the load balancer to the
    containers. *)

From stdpp Require Import base gmap strings list fin_maps.
From Stdlib Require Import ZArith.
From S2P Require Import Prelude Constructs Cidr Resources Network SecurityGroups Elb Ecs Stack.

Local Open Scope Z_scope.

(** ** Admission by security groups *)

Record Packet := { pk_ip : Z; pk_groups : list path }.

(** A client on the internet: an address, no security group. *)
Definition client (ip : Z) : Packet := {| pk_ip := ip; pk_groups := [] |}.

Definition cidr_contains_ip (b : cidr) (ip : Z) : bool :=
  bool_decide (cidr_min b ≤ ip ≤ cidr_max b).

Definition port_admits (p : Port) (n : Z) : bool :=
  match p with
  | PortTcp m => bool_decide (m = n)
  | PortUdp _ => false
  | PortTcpRange lo hi => bool_decide (lo ≤ n ≤ hi)
  end.

Definition inline_admits (r : IngressRule) (pk : Packet) (port : Z) : bool :=
  cidr_contains_ip (ir_cidrIp r) (pk_ip pk) && port_admits (ir_port r) port.

Definition group_rule_admits (sg : path) (pk : Packet) (port : Z) (n : Node) : bool :=
  match n with
  | NSecurityGroupIngress i =>
      bool_decide (sgi_group i = sg ∧ sgi_source i ∈ pk_groups pk) && port_admits (sgi_port i) port
  | _ => false
  end.

Definition sg_admits (t : St) (sg : path) (pk : Packet) (port : Z) : bool :=
  match t !! sg with
  | Some (NSecurityGroup g) =>
      existsb (λ r, inline_admits r pk port) (sg_ingress g)
      || existsb (λ kv, group_rule_admits sg pk port kv.2) (map_to_list t)
  | _ => false
  end.

(** An interface with several groups admits what one of them admits. *)
Definition sgs_admit (t : St) (sgs : list path) (pk : Packet) (port : Z) : bool :=
  existsb (λ g, sg_admits t g pk port) sgs.

(** ** Forwarding by the load balancer *)

Definition listener_at (t : St) (p : path) : list (path * Listener) :=
  match t !! p with Some (NListener l) => [(p, l)] | _ => [] end.

(** The listeners of [lb] on [port]. *)
Definition listeners_on (t : St) (a : LoadBalancer) (port : Z) : list (path * Listener) :=
  filter (λ pl, ls_port pl.2 = port) (flat_map (listener_at t) (alb_listeners a)).

(** The services registered with target group [tg], with the registration. *)
Definition registrations (t : St) (tg : path) : list (path * Service * LoadBalancerRegistration) :=
  flat_map (λ kv, match kv.2 with
                  | NService s =>
                      map (λ r, (kv.1, s, r))
                        (filter (λ r, lb_targetGroup r = tg) (sv_loadBalancers s))
                  | _ => []
                  end) (map_to_list t).

Definition container_at (t : St) (p : path) : list Container :=
  match t !! p with Some (NContainer c) => [c] | _ => [] end.

(** The service's container of that name maps the port. *)
Definition container_accepts (t : St) (s : Service) (name : string) (port : Z) : bool :=
  match t !! sv_taskDefinition s with
  | Some (NTaskDefinition td) =>
      existsb (λ c, bool_decide (ct_name c = name) &&
                    existsb (λ pm, bool_decide (pm_containerPort pm = port)) (ct_portMappings c))
        (flat_map (container_at t) (td_containers td))
  | _ => false
  end.

(** The load balancer (address [alb_ip], its group) reaches the task of
    service [s] registered by [r]: the service's groups admit it on the
    registered port, and the container of that name maps the port. *)
Definition target_reachable (t : St) (a : LoadBalancer) (alb_ip : Z) (s : Service)
    (r : LoadBalancerRegistration) : bool :=
  sgs_admit t (sv_securityGroups s) {| pk_ip := alb_ip; pk_groups := [alb_securityGroup a] |}
    (lb_containerPort r)
  && container_accepts t s (lb_containerName r) (lb_containerPort r).

(** From the load balancer to the tasks of the services registered with
    the default target groups of the listeners on [port]: (service,
    container, container port). *)
Definition forward (t : St) (a : LoadBalancer) (port alb_ip : Z) : list (path * string * Z) :=
  flat_map (λ pl,
    flat_map (λ tg,
      flat_map (λ '(sp, s, r),
        if target_reachable t a alb_ip s r
        then [(sp, lb_containerName r, lb_containerPort r)] else [])
        (registrations t tg))
      (ls_defaultTargetGroups pl.2))
    (listeners_on t a port).

(** A request to the load balancer [lb] on [port]: admitted by its group,
    then forwarded. *)
Definition deliver (t : St) (lb : path) (pk : Packet) (port alb_ip : Z)
    : list (path * string * Z) :=
  match t !! lb with
  | Some (NLoadBalancer a) =>
      if sg_admits t (alb_securityGroup a) pk port then forward t a port alb_ip else []
  | _ => []
  end.

(** ** Admission lemmas *)

(** A group that no group rule names admits what its inline rules admit,
    whatever groups the packet carries. *)
Lemma sg_admits_inline_only t sg g pk port :
  t !! sg = Some (NSecurityGroup g) →
  existsb (λ kv, group_rule_admits sg pk port kv.2) (map_to_list t) = false →
  sg_admits t sg pk port = existsb (λ r, inline_admits r pk port) (sg_ingress g).
Proof. intros Hg Hn. unfold sg_admits. by rewrite Hg, Hn, orb_false_r. Qed.

(** The ingress resources of a tree, in the order of its bindings. *)
Definition ingresses (l : list (path * Node)) : list SecurityGroupIngress :=
  omap (λ kv, match kv.2 with NSecurityGroupIngress i => Some i | _ => None end) l.

(** The group rules that admit a packet are found among the ingress
    resources alone. *)
Lemma group_rules_ingresses sg pk port l :
  existsb (λ kv, group_rule_admits sg pk port kv.2) l
  = existsb (λ i, bool_decide (sgi_group i = sg ∧ sgi_source i ∈ pk_groups pk)
                  && port_admits (sgi_port i) port) (ingresses l).
Proof. induction l as [|[k []] l IH]; simpl; rewrite ?IH; done. Qed.

(** The block 0.0.0.0/0 contains every 32-bit address. *)
Lemma any_ipv4_contains ip : 0 ≤ ip < 2^32 → cidr_contains_ip (Cidr 0 0) ip = true.
Proof. intros H. unfold cidr_contains_ip, cidr_max, netsize. simpl. apply bool_decide_eq_true. lia. Qed.

(** ** The deployed stack *)

(** The tree src/bin/type-task.ts builds. *)
Definition final_state : St := match app_main return St with Ok (_, st) => st | Err _ => ∅ end.

Definition alb_path : path := ["TypeTaskStack"; "ALB"].
Definition alb_sg_path : path := ["TypeTaskStack"; "AlbSecurityGroup"].
Definition service_path : path := ["TypeTaskStack"; "FargateService"].
Definition service_sg_path : path := ["TypeTaskStack"; "ServiceSecurityGroup"].

Definition http_from_anywhere (d : string) : IngressRule :=
  {| ir_cidrIp := Cidr 0 0; ir_port := PortTcp 80; ir_description := d |}.

Lemma final_alb : ∃ a, final_state !! alb_path = Some (NLoadBalancer a) ∧
                       alb_securityGroup a = alb_sg_path.
Proof. eexists. split; [vm_compute; reflexivity|reflexivity]. Qed.

(** The ALB's group holds line 39's rule and the one of [open: true]. *)
Lemma final_alb_sg : ∃ g, final_state !! alb_sg_path = Some (NSecurityGroup g) ∧
  sg_ingress g = [http_from_anywhere "Allow HTTP traffic from anywhere";
                  http_from_anywhere "Allow from anyone on port 80"].
Proof. eexists. split; [vm_compute; reflexivity|reflexivity]. Qed.

(** From the load balancer on port 80, whatever its own address. *)
Lemma final_forward a alb_ip :
  final_state !! alb_path = Some (NLoadBalancer a) →
  forward final_state a 80 alb_ip = [(service_path, "DefaultContainer", 8080)].
Proof.
  intros Ha. assert (Hq : Some (NLoadBalancer a) = final_state !! alb_path) by done.
  vm_compute in Hq. injection Hq as Ha'. subst a. vm_compute. reflexivity.
Qed.

(** The only ingress resource of the deployed tree: the service's group
    admits the ALB's group on 8080 (line 56). *)
Lemma final_ingresses :
  ingresses (map_to_list final_state) =
    [{| sgi_group := service_sg_path; sgi_source := alb_sg_path; sgi_port := PortTcp 8080;
        sgi_description := "Allow traffic from ALB" |}].
Proof. vm_compute. reflexivity. Qed.

Lemma final_service : ∃ s, final_state !! service_path = Some (NService s) ∧
  sv_securityGroups s = [service_sg_path].
Proof. eexists. split; [vm_compute; reflexivity|reflexivity]. Qed.

Lemma final_service_sg : ∃ g, final_state !! service_sg_path = Some (NSecurityGroup g) ∧
  sg_ingress g = [].
Proof. eexists. split; [vm_compute; reflexivity|reflexivity]. Qed.

(** The ALB's group admits an IPv4 packet exactly on port 80. *)
Lemma final_alb_sg_admits pk port :
  0 ≤ pk_ip pk < 2^32 → sg_admits final_state alb_sg_path pk port = bool_decide (port = 80).
Proof.
  intros Hip. destruct final_alb_sg as (g & Hg & Hr).
  rewrite (sg_admits_inline_only _ _ g _ _ Hg); last first.
  { rewrite group_rules_ingresses, final_ingresses. cbn [existsb].
    by rewrite bool_decide_false by (intros [? _]; discriminate). }
  rewrite Hr. unfold inline_admits. simpl. rewrite any_ipv4_contains by done. simpl.
  rewrite orb_false_r, orb_diag. apply bool_decide_ext. lia.
Qed.

(** (C2) The service's tasks admit only what comes from the ALB's group,
    on the container port: for the security groups the deployed service
    really has, a packet is admitted exactly when it carries the ALB's
    group and is sent to port 8080.  A client on the internet, which
    carries no group, reaches no task directly. *)
Theorem service_admits_only_alb :
  ∃ s, final_state !! service_path = Some (NService s) ∧
    ∀ pk port, sgs_admit final_state (sv_securityGroups s) pk port = true ↔
               alb_sg_path ∈ pk_groups pk ∧ port = 8080.
Proof.
  destruct final_service as (s & Hs & Hsgs). destruct final_service_sg as (g & Hg & Hr).
  exists s. split; [exact Hs|]. intros pk port. rewrite Hsgs. unfold sgs_admit. cbn [existsb].
  unfold sg_admits. rewrite Hg, Hr, group_rules_ingresses, final_ingresses. cbn [existsb].
  rewrite !orb_false_r, orb_false_l.
  clear Hs Hg. simpl. rewrite andb_true_iff, !bool_decide_eq_true.
  split; [intros [[_ ?] ?]; split; [done|lia]|intros [? ->]; by split].
Qed.

(** (C3) The load balancer's group admits an IPv4 packet exactly when it
    is sent to port 80, whatever groups it carries: the group the deployed
    load balancer really has, with its rules of lines 39 and 81. *)
Theorem alb_open_on_80_only :
  ∃ a, final_state !! alb_path = Some (NLoadBalancer a) ∧
    ∀ pk port, 0 ≤ pk_ip pk < 2^32 →
      (sg_admits final_state (alb_securityGroup a) pk port = true ↔ port = 80).
Proof.
  destruct final_alb as (a & Ha & Hsg). exists a. split; [exact Ha|].
  intros pk port Hip. rewrite Hsg, final_alb_sg_admits by done. apply bool_decide_eq_true.
Qed.

(** ** The architecture the stack promises *)

(** What the stack is for, seen from the network: a request to the load
    balancer on port 80 reaches the container [DefaultContainer] of the
    service on port 8080; a request on any other port reaches nothing. *)
Definition reach_spec (port : Z) : list (path * string * Z) :=
  if decide (port = 80) then [(service_path, "DefaultContainer", 8080)] else [].

(** (C4) The forwarding semantics of the deployed configuration refines
    [reach_spec]: for every packet from an IPv4 address, whatever security
    groups it carries, and whatever the load balancer's own address, the
    containers the request reaches are exactly those [reach_spec] names. *)
Theorem deliver_refines_reach_spec pk port alb_ip :
  0 ≤ pk_ip pk < 2^32 →
  deliver final_state alb_path pk port alb_ip = reach_spec port.
Proof.
  intros Hip. destruct final_alb as (a & Ha & Hsg).
  unfold deliver. rewrite Ha, Hsg, final_alb_sg_admits by done. unfold reach_spec.
  case_decide as Hp.
  - subst port. rewrite bool_decide_true by done. by apply final_forward.
  - by rewrite bool_decide_false by done.
Qed.

(** ** Line 39 and the open listener *)

(** Lines 32-39 without the rule of line 39. *)
Definition stack_alb_security_group_no_rule (this vpc : path) : M St path :=
  security_group_new this "AlbSecurityGroup" (alb_security_group_props vpc).

(** The constructor without line 39. *)
Definition type_task_stack_no_line39 (scope : path) (id : string) : M St path :=
  this ← stack_new scope id;
  '(vpc, cluster) ← stack_network this;
  albSecurityGroup ← stack_alb_security_group_no_rule this vpc;
  '(taskDefinition, container) ← stack_task_definition this;
  service ← stack_service this vpc cluster taskDefinition albSecurityGroup;
  stack_port_mapping container;;
  alb ← stack_load_balancer this vpc albSecurityGroup service;
  _ ← stack_output this alb;
  mret this.

Definition final_state_no_line39 : St :=
  match type_task_stack_no_line39 [] "TypeTaskStack" app_new return St with Ok (_, st) => st | Err _ => ∅ end.

Lemma service_admits_only_alb_witness :
  ∃ s, final_state !! service_path = Some (NService s) ∧
    sgs_admit final_state (sv_securityGroups s) (client 16909060) 8080 = false ∧
    sgs_admit final_state (sv_securityGroups s)
      {| pk_ip := 167772170; pk_groups := [alb_sg_path] |} 8080 = true.
Proof.
  destruct service_admits_only_alb as (s & Hs & H). exists s. split; [exact Hs|split].
  - apply not_true_iff_false. intros Hc. apply H in Hc as [Hc _]. by apply not_elem_of_nil in Hc.
  - apply H. split; [by left|reflexivity].
Defined.

Lemma alb_open_on_80_only_witness :
  ∃ a, final_state !! alb_path = Some (NLoadBalancer a) ∧
    sg_admits final_state (alb_securityGroup a) (client 16909060) 443 = false ∧
    sg_admits final_state (alb_securityGroup a) (client 16909060) 80 = true.
Proof.
  destruct alb_open_on_80_only as (a & Ha & H). exists a. split; [exact Ha|split].
  - apply not_true_iff_false. intros Hc. apply H in Hc; [discriminate Hc|split; [discriminate|reflexivity]].
  - apply H; [split; [discriminate|reflexivity]|reflexivity].
Defined.

Lemma deliver_refines_reach_spec_witness :
  deliver final_state alb_path {| pk_ip := 3232235777; pk_groups := [service_sg_path] |} 443 167772170
  = reach_spec 443.
Proof. apply deliver_refines_reach_spec. split; [discriminate|reflexivity]. Defined.
