(* ===== verification/TrafficEquiv.v ===== *)
(** * Trees that serve the same traffic

    Two construct trees are equivalent, [t ≡ t'], when they agree at every
    path once rule descriptions are erased and duplicate rules of a group
    are merged ([normalize_node]).  A description is a comment for the
    console, and a duplicate rule admits nothing the first one does not.
    This equivalence is coarser than equality: the trees that line 39
    leaves different are equivalent.  [sg_admits] and [deliver] are
    [Proper] for it, so the traffic theorems can be rewritten along it.
    The equivalence is [stdpp]'s pointwise [Equiv] on maps, built on the
    equivalence of nodes given here. *)

From stdpp Require Import base gmap strings list fin_maps.
From Stdlib Require Import ZArith.
From S2P Require Import Prelude Constructs Cidr Resources Network SecurityGroups Elb Ecs Stack Traffic.

(** ** Normal form of a node *)

Definition strip_rule (r : IngressRule) : IngressRule :=
  {| ir_cidrIp := ir_cidrIp r; ir_port := ir_port r; ir_description := "" |}.

(** The rules without descriptions, each at its first occurrence. *)
Definition normalize_rules (rs : list IngressRule) : list IngressRule :=
  reverse (remove_dups (reverse (map strip_rule rs))).

Definition strip_sgi (i : SecurityGroupIngress) : SecurityGroupIngress :=
  {| sgi_group := sgi_group i; sgi_source := sgi_source i; sgi_port := sgi_port i;
     sgi_description := "" |}.

Definition normalize_node (n : Node) : Node :=
  match n with
  | NSecurityGroup g =>
      NSecurityGroup {| sg_vpc := sg_vpc g; sg_allowAllOutbound := sg_allowAllOutbound g;
                        sg_description := sg_description g;
                        sg_ingress := normalize_rules (sg_ingress g);
                        sg_egress := normalize_rules (sg_egress g) |}
  | NSecurityGroupIngress i => NSecurityGroupIngress (strip_sgi i)
  | NSecurityGroupEgress e => NSecurityGroupEgress (strip_sgi e)
  | n => n
  end.

#[export] Instance node_equiv : Equiv Node := λ n n', normalize_node n = normalize_node n'.

#[export] Instance node_equivalence : Equivalence (≡@{Node}).
Proof. unfold equiv, node_equiv. split; repeat intro; congruence. Qed.

(** Two trees are equivalent iff their normal forms are equal; the right
    side is decided by evaluation. *)
Lemma st_equiv_fmap (t t' : St) : t ≡ t' ↔ normalize_node <$> t = normalize_node <$> t'.
Proof.
  split.
  - intros H. apply map_eq. intros i. rewrite !lookup_fmap.
    specialize (H i). inversion H; simpl; [by f_equal|done].
  - intros H i. apply (f_equal (lookup i)) in H. rewrite !lookup_fmap in H.
    destruct (t !! i), (t' !! i); simplify_eq/=; by constructor.
Qed.

(** ** Observations that only see the normal form *)

Lemma existsb_fmap_ext {A B} (f : B → bool) (g : A → B) (h : A → bool) (l : list A) :
  (∀ x, f (g x) = h x) → existsb f (g <$> l) = existsb h l.
Proof. intros H. induction l as [|x l IH]; simpl; [done|rewrite H; f_equal; exact IH]. Qed.

Lemma flat_map_fmap_ext {A B C} (f : B → list C) (g : A → B) (h : A → list C) (l : list A) :
  (∀ x, f (g x) = h x) → flat_map f (g <$> l) = flat_map h l.
Proof. intros H. induction l as [|x l IH]; simpl; [done|rewrite H; f_equal; exact IH]. Qed.

Lemma existsb_normalize_rules rs pk port :
  existsb (λ r, inline_admits r pk port) (normalize_rules rs)
  = existsb (λ r, inline_admits r pk port) rs.
Proof.
  apply Bool.eq_iff_eq_true. rewrite !existsb_exists. unfold normalize_rules.
  setoid_rewrite <-list_elem_of_In.
  setoid_rewrite elem_of_reverse. setoid_rewrite elem_of_remove_dups. setoid_rewrite elem_of_reverse.
  split.
  - intros (x & (r & -> & Hr)%list_elem_of_fmap & Hx). by exists r.
  - intros (r & Hr & Hx). exists (strip_rule r). split; [by apply list_elem_of_fmap_2|done].
Qed.

(** A rule appended after one equal up to its description is invisible. *)
Lemma normalize_rules_snoc rs r r0 :
  r0 ∈ rs → strip_rule r = strip_rule r0 → normalize_rules (rs ++ [r]) = normalize_rules rs.
Proof.
  intros Hr0 Hs. unfold normalize_rules. f_equal. rewrite map_app, reverse_app.
  assert (Hin : strip_rule r ∈ reverse (map strip_rule rs))
    by (rewrite elem_of_reverse, Hs; by apply list_elem_of_fmap_2).
  revert Hin. generalize (reverse (map strip_rule rs)). intros l Hl. simpl.
  case_match; [done|contradiction].
Qed.

Section Normalize.
Context (t : St).
Let nt : St := normalize_node <$> t.

Lemma sg_admits_normalize sg pk port : sg_admits nt sg pk port = sg_admits t sg pk port.
Proof.
  unfold sg_admits, nt. rewrite lookup_fmap, map_to_list_fmap.
  rewrite (existsb_fmap_ext _ _ (λ kv, group_rule_admits sg pk port kv.2)) by (intros [? []]; done).
  destruct (t !! sg) as [[]|]; simpl; try done. by rewrite existsb_normalize_rules.
Qed.

Lemma sgs_admit_normalize sgs pk port : sgs_admit nt sgs pk port = sgs_admit t sgs pk port.
Proof.
  induction sgs as [|g sgs IH]; simpl; [done|]. by rewrite sg_admits_normalize, IH.
Qed.

Lemma listeners_on_normalize a port : listeners_on nt a port = listeners_on t a port.
Proof.
  unfold listeners_on. f_equal. apply flat_map_ext. intros p.
  unfold listener_at, nt. rewrite lookup_fmap. by destruct (t !! p) as [[]|].
Qed.

Lemma registrations_normalize tg : registrations nt tg = registrations t tg.
Proof. unfold registrations, nt. rewrite map_to_list_fmap. apply flat_map_fmap_ext. by intros [? []]. Qed.

Lemma container_accepts_normalize s name port :
  container_accepts nt s name port = container_accepts t s name port.
Proof.
  unfold container_accepts, nt. rewrite lookup_fmap.
  destruct (t !! sv_taskDefinition s) as [[]|]; simpl; try done.
  f_equal. apply flat_map_ext. intros p. unfold container_at. rewrite lookup_fmap.
  by destruct (t !! p) as [[]|].
Qed.

Lemma forward_normalize a port alb_ip : forward nt a port alb_ip = forward t a port alb_ip.
Proof.
  unfold forward. rewrite listeners_on_normalize.
  apply flat_map_ext. intros pl. apply flat_map_ext. intros tg.
  rewrite registrations_normalize. apply flat_map_ext. intros [[sp s] r].
  unfold target_reachable. by rewrite sgs_admit_normalize, container_accepts_normalize.
Qed.

Lemma deliver_normalize lb pk port alb_ip : deliver nt lb pk port alb_ip = deliver t lb pk port alb_ip.
Proof.
  unfold deliver. unfold nt at 1. rewrite lookup_fmap.
  destruct (t !! lb) as [[]|]; simpl; try done.
  by rewrite sg_admits_normalize, forward_normalize.
Qed.
End Normalize.

(** ** The traffic is [Proper] for the equivalence *)

#[export] Instance sg_admits_proper : Proper ((≡) ==> (=) ==> (=) ==> (=) ==> (=)) sg_admits.
Proof.
  intros t t' Ht sg ? <- pk ? <- port ? <-.
  by rewrite <-(sg_admits_normalize t), <-(sg_admits_normalize t'), (proj1 (st_equiv_fmap t t') Ht).
Qed.

#[export] Instance deliver_proper : Proper ((≡) ==> (=) ==> (=) ==> (=) ==> (=) ==> (=)) deliver.
Proof.
  intros t t' Ht lb ? <- pk ? <- port ? <- ip ? <-.
  by rewrite <-(deliver_normalize t), <-(deliver_normalize t'), (proj1 (st_equiv_fmap t t') Ht).
Qed.

(** ** Redundant rules *)

(** (C9) Adding to a group an inline rule that it already has, up to the
    description, succeeds and leaves a tree equivalent to the one before:
    [addIngressRule] compares rules with their descriptions, so it keeps
    the second copy, but no packet can tell. *)
Theorem add_ingress_rule_redundant t sg g block port d r0 :
  t !! sg = Some (NSecurityGroup g) → r0 ∈ sg_ingress g →
  ir_cidrIp r0 = block → ir_port r0 = port →
  ∃ t', add_ingress_rule sg (PeerIpv4 block) port d t = Ok ((), t') ∧ t' ≡ t.
Proof.
  intros Hg Hr0 <- <-. rewrite (add_ingress_rule_block _ g) by done.
  eexists; split; [reflexivity|]. case_decide; [done|].
  apply st_equiv_fmap, map_eq. intros i. rewrite fmap_insert.
  destruct (decide (i = sg)) as [->|]; [|by rewrite lookup_insert_ne].
  rewrite lookup_insert_eq, lookup_fmap, Hg. simpl. do 3 f_equal.
  by apply (normalize_rules_snoc _ _ r0).
Qed.

(** ** Line 39 *)

(** Equal normal forms are decided on the lists of bindings: the [gmap]
    terms themselves are too large to compare by conversion. *)
Lemma st_equiv_to_list (t t' : St) :
  map_to_list (normalize_node <$> t) = map_to_list (normalize_node <$> t') → t ≡ t'.
Proof. intros H. apply st_equiv_fmap, map_to_list_inj. by rewrite H. Qed.

Lemma final_state_line39_equiv : final_state_no_line39 ≡ final_state.
Proof. apply st_equiv_to_list. vm_compute. reflexivity. Qed.

(** (C8) Line 39 is redundant: the listener's [open: true] (line 81) adds
    a rule from 0.0.0.0/0 on port 80 to the ALB's group, so the tree built
    without line 39 differs from the stack's only by that rule's
    description: the two trees are equivalent, every group admits the
    same packets on every port in both, and every request to every load
    balancer is delivered to the same containers. *)
Theorem line39_redundant :
  final_state_no_line39 ≡ final_state ∧
  (∀ sg pk port, sg_admits final_state_no_line39 sg pk port = sg_admits final_state sg pk port) ∧
  (∀ lb pk port alb_ip,
     deliver final_state_no_line39 lb pk port alb_ip = deliver final_state lb pk port alb_ip).
Proof.
  pose proof final_state_line39_equiv as E.
  split_and!; [exact E|intros ???; by rewrite E|intros ????; by rewrite E].
Qed.

(** The ALB's group just before line 79: it holds line 39's rule. *)
Definition before_listener_alb_sg : SecurityGroup :=
  Eval vm_compute in
  match before_listener !! alb_sg_path with
  | Some (NSecurityGroup g) => g
  | _ => {| sg_vpc := []; sg_allowAllOutbound := true; sg_description := "";
            sg_ingress := []; sg_egress := [] |}
  end.

Lemma add_ingress_rule_redundant_witness :
  ∃ t', add_ingress_rule alb_sg_path (PeerIpv4 (Cidr 0 0)) (PortTcp 80)
          (Some "Allow from anyone on port 80") before_listener = Ok ((), t') ∧
        t' ≡ before_listener.
Proof.
  apply (add_ingress_rule_redundant before_listener alb_sg_path before_listener_alb_sg _ _ _
           (http_from_anywhere "Allow HTTP traffic from anywhere")).
  - vm_compute. reflexivity.
  - apply list_elem_of_In. vm_compute. auto.
  - reflexivity.
  - reflexivity.
Defined.
