(* ===== verification/Health.v ===== *)
(** * Health checks of the target group: when a task receives traffic

    [listener.addTargets('ECS', { healthCheck: { path: '/', interval:
    Duration.seconds(30) } })] (lines 85-92) configures the checks that
    the load balancer sends to every registered task.  The remaining
    settings are the Elastic Load Balancing defaults for an HTTP target
    group: the traffic port, a healthy threshold of 5 consecutive passes,
    an unhealthy threshold of 2 consecutive failures, and a timeout of 5
    seconds.  Each target is a small state machine ([health_step]); the
    states a target can be in are those [reachable] from its registration.
    A check passes when the load balancer reaches the task
    ([Traffic.target_reachable]) and the application answers.

    The theorems are liveness properties, bounded: from every reachable
    state, enough consecutive passes make the target healthy and enough
    consecutive failures make it unhealthy; in the deployed stack a task
    whose application answers becomes healthy within 150 s, and one that
    stops answering is taken out within 60 s. *)

From stdpp Require Import base gmap strings list fin_maps.
From Stdlib Require Import ZArith.
From S2P Require Import Prelude Constructs Cidr Resources Network SecurityGroups Elb Ecs Stack Traffic.

Inductive TargetHealth := HInitial | HHealthy | HUnhealthy.

#[export] Instance TargetHealth_eq_dec : EqDecision TargetHealth.
Proof. solve_decision. Defined.

(** The health of a target and its counts of consecutive passes and
    failures since the last change. *)
Record TargetState := { ts_health : TargetHealth; ts_passes : nat; ts_failures : nat }.

Definition target_registered : TargetState :=
  {| ts_health := HInitial; ts_passes := 0; ts_failures := 0 |}.

Record HealthParams := {
  hp_path : string;
  hp_port : Z;
  hp_interval : Z;        (** seconds between checks *)
  hp_timeout : Z;
  hp_healthy : nat;       (** [HealthyThresholdCount] *)
  hp_unhealthy : nat      (** [UnhealthyThresholdCount] *)
}.

(** The check a target group's [healthCheck] prop configures for targets
    registered on [port], with the service's defaults for what it leaves
    out. *)
Definition health_params (hc : option HealthCheck) (port : Z) : HealthParams :=
  {| hp_path := default "/" (hc ≫= hc_path); hp_port := port;
     hp_interval := default 30%Z (hc ≫= hc_interval); hp_timeout := 5%Z;
     hp_healthy := 5; hp_unhealthy := 2 |}.

(** One check, passed or failed. *)
Definition health_step (hp : HealthParams) (ok : bool) (s : TargetState) : TargetState :=
  if ok then
    if bool_decide (hp_healthy hp ≤ S (ts_passes s))
    then {| ts_health := HHealthy; ts_passes := 0; ts_failures := 0 |}
    else {| ts_health := ts_health s; ts_passes := S (ts_passes s); ts_failures := 0 |}
  else
    if bool_decide (hp_unhealthy hp ≤ S (ts_failures s))
    then {| ts_health := HUnhealthy; ts_passes := 0; ts_failures := 0 |}
    else {| ts_health := ts_health s; ts_passes := 0; ts_failures := S (ts_failures s) |}.

(** A sequence of checks, in order. *)
Definition health_run (hp : HealthParams) (oks : list bool) (s : TargetState) : TargetState :=
  foldl (λ s ok, health_step hp ok s) s oks.

(** The states a target reaches from its registration. *)
Inductive reachable (hp : HealthParams) : TargetState → Prop :=
| reach_registered : reachable hp target_registered
| reach_step s ok : reachable hp s → reachable hp (health_step hp ok s).

(** The outcome of a check of the task of [s] registered by [r], sent by
    the load balancer [lb] from [alb_ip], when the application [answers]. *)
Definition check_passes (t : St) (lb : path) (alb_ip : Z) (s : Service)
    (r : LoadBalancerRegistration) (answers : bool) : bool :=
  match t !! lb with
  | Some (NLoadBalancer a) => target_reachable t a alb_ip s r && answers
  | _ => false
  end.

(** The check of the target group [tg], for the port of its first
    registration. *)
Definition target_group_params (t : St) (tg : path) : option HealthParams :=
  match t !! tg, registrations t tg with
  | Some (NTargetGroup g), (_, _, r) :: _ => Some (health_params (tg_healthCheck g) (lb_containerPort r))
  | _, _ => None
  end.

(** ** The state machine *)

Section Machine.
Context (hp : HealthParams).
Hypotheses (Hh : 0 < hp_healthy hp) (Hu : 0 < hp_unhealthy hp).

(** The counters stay below the thresholds. *)
Lemma reachable_counters s : reachable hp s → ts_passes s < hp_healthy hp ∧ ts_failures s < hp_unhealthy hp.
Proof.
  induction 1 as [|s ok _ IH]; [simpl; lia|].
  unfold health_step. destruct ok; repeat case_bool_decide; simpl; lia.
Qed.

Lemma health_run_app oks1 oks2 s :
  health_run hp (oks1 ++ oks2) s = health_run hp oks2 (health_run hp oks1 s).
Proof. apply foldl_app. Qed.

Lemma reachable_run oks s : reachable hp s → reachable hp (health_run hp oks s).
Proof. revert s. induction oks; intros s Hs; simpl; [done|]. by apply IHoks, reach_step. Qed.

Lemma health_run_replicate_S ok k s :
  health_run hp (replicate (S k) ok) s = health_run hp (replicate k ok) (health_step hp ok s).
Proof. done. Qed.

Lemma healthy_stays k s : ts_health s = HHealthy → ts_health (health_run hp (replicate k true) s) = HHealthy.
Proof.
  revert s. induction k as [|k IH]; intros s Hs; simpl; [done|].
  apply IH. unfold health_step. by case_bool_decide.
Qed.

Lemma unhealthy_stays k s : ts_health s = HUnhealthy → ts_health (health_run hp (replicate k false) s) = HUnhealthy.
Proof.
  revert s. induction k as [|k IH]; intros s Hs; simpl; [done|].
  apply IH. unfold health_step. by case_bool_decide.
Qed.

Lemma passes_make_healthy k s :
  ts_passes s < hp_healthy hp → hp_healthy hp ≤ ts_passes s + k →
  ts_health (health_run hp (replicate k true) s) = HHealthy.
Proof.
  revert s. induction k as [|k IH]; intros s Hp Hk; [simpl in *; lia|].
  rewrite health_run_replicate_S. unfold health_step. case_bool_decide.
  - by apply healthy_stays.
  - apply IH; simpl; lia.
Qed.

Lemma failures_make_unhealthy k s :
  ts_failures s < hp_unhealthy hp → hp_unhealthy hp ≤ ts_failures s + k →
  ts_health (health_run hp (replicate k false) s) = HUnhealthy.
Proof.
  revert s. induction k as [|k IH]; intros s Hp Hk; [simpl in *; lia|].
  rewrite health_run_replicate_S. unfold health_step. case_bool_decide.
  - by apply unhealthy_stays.
  - apply IH; simpl; lia.
Qed.

(** The passes counted are the last checks of the history. *)
Lemma run_passes_suffix oks :
  ∃ pre, oks = pre ++ replicate (ts_passes (health_run hp oks target_registered)) true.
Proof.
  induction oks as [|ok oks IH] using rev_ind; [by exists []|].
  rewrite health_run_app. destruct IH as [pre Hpre]. cbn [health_run foldl]. unfold health_step.
  destruct ok; [case_bool_decide|case_bool_decide]; cbn [ts_passes].
  all: try (exists (oks ++ [true]); simpl; by rewrite app_nil_r).
  all: try (exists (oks ++ [false]); simpl; by rewrite app_nil_r).
  exists pre. rewrite replicate_S_end, app_assoc, <-Hpre. done.
Qed.

(** Safety: a target registered is marked healthy only after
    [hp_healthy] consecutive passes. *)
Lemma healthy_after_passes oks :
  ts_health (health_run hp oks target_registered) = HHealthy →
  ∃ pre post, oks = pre ++ replicate (hp_healthy hp) true ++ post.
Proof.
  induction oks as [|ok oks IH] using rev_ind; [done|].
  rewrite health_run_app. cbn [health_run foldl]. unfold health_step.
  destruct (run_passes_suffix oks) as [pre Hpre].
  destruct ok; case_bool_decide; cbn [ts_health]; intros Hh';
    try (destruct (IH Hh') as (p & q & ->); eexists p, (q ++ [_]); by rewrite <-!app_assoc);
    try discriminate Hh'.
  exists (pre ++ replicate (S (ts_passes (health_run hp oks target_registered)) - hp_healthy hp) true), [].
  rewrite app_nil_r, <-app_assoc, <-replicate_add, Hpre at 1.
  rewrite <-app_assoc. f_equal. rewrite <-replicate_S_end. f_equal. lia.
Qed.
End Machine.

(** ** The deployed target group *)

Definition tg_path : path := alb_path ++ ["Listener"; "ECSGroup"].

(** The check that lines 88-91 configure, for the service registered on 8080. *)
Definition deployed_params : HealthParams := health_params (Some health_check) 8080.

(** The service and its registration with the target group. *)
Definition deployed_service : Service :=
  Eval vm_compute in
  match registrations final_state tg_path with
  | (_, s, _) :: _ => s
  | [] => {| sv_cluster := []; sv_taskDefinition := []; sv_desiredCount := None;
             sv_subnets := []; sv_securityGroups := []; sv_loadBalancers := [] |}
  end.

Definition deployed_registration : LoadBalancerRegistration :=
  Eval vm_compute in
  match registrations final_state tg_path with
  | (_, _, r) :: _ => r
  | [] => {| lb_targetGroup := []; lb_containerName := ""; lb_containerPort := 0 |}
  end.

Lemma deployed_registrations :
  registrations final_state tg_path = [(service_path, deployed_service, deployed_registration)].
Proof. vm_compute. reflexivity. Qed.

(** Every check of the registered task reaches it, from any address of the
    load balancer: its outcome is the application's answer. *)
Lemma deployed_checks_reach alb_ip sp s r answers :
  (sp, s, r) ∈ registrations final_state tg_path →
  check_passes final_state alb_path alb_ip s r answers = answers.
Proof.
  rewrite deployed_registrations, list_elem_of_singleton. intros; simplify_eq.
  destruct answers; vm_compute; reflexivity.
Qed.

Lemma deployed_checks_reach_all alb_ip sp s r (answers : list bool) :
  (sp, s, r) ∈ registrations final_state tg_path →
  check_passes final_state alb_path alb_ip s r <$> answers = answers.
Proof.
  intros Hr. rewrite <-(list_fmap_id answers) at 2. apply list_fmap_ext.
  intros _ b _. by apply (deployed_checks_reach _ sp).
Qed.

(** ** Liveness *)

(** Liveness of the health checks: from every state a target can
    reach, [hp_healthy] consecutive passing checks make it healthy and
    [hp_unhealthy] consecutive failing checks make it unhealthy, whatever
    came before; more passes keep it healthy, more failures unhealthy. *)
Theorem health_checks_live hp s k :
  0 < hp_healthy hp → 0 < hp_unhealthy hp → reachable hp s →
  (hp_healthy hp ≤ k → ts_health (health_run hp (replicate k true) s) = HHealthy) ∧
  (hp_unhealthy hp ≤ k → ts_health (health_run hp (replicate k false) s) = HUnhealthy).
Proof.
  intros Hh Hu Hs. destruct (reachable_counters hp Hh Hu s Hs).
  split; intros; [apply passes_make_healthy|apply failures_make_unhealthy]; lia.
Qed.

(** (C5) In the deployed stack the target group checks path "/" on port
    8080 every 30 s (lines 88-91), and every check of the service's task
    reaches it: line 56 admits the ALB's group on 8080, lines 66-69 map the
    port.  So, whatever state its target is in, a task whose application
    answers five checks in a row is healthy after them, within 150 s, and
    one that fails two in a row is unhealthy after them, within 60 s. *)
Theorem deployed_targets_live alb_ip sp s r st :
  (sp, s, r) ∈ registrations final_state tg_path → reachable deployed_params st →
  target_group_params final_state tg_path = Some deployed_params ∧
  hp_path deployed_params = "/" ∧ hp_port deployed_params = 8080%Z ∧
  (hp_interval deployed_params * Z.of_nat (hp_healthy deployed_params) = 150)%Z ∧
  (hp_interval deployed_params * Z.of_nat (hp_unhealthy deployed_params) = 60)%Z ∧
  ts_health (health_run deployed_params
    (check_passes final_state alb_path alb_ip s r <$> replicate 5 true) st) = HHealthy ∧
  ts_health (health_run deployed_params
    (check_passes final_state alb_path alb_ip s r <$> replicate 2 false) st) = HUnhealthy.
Proof.
  intros Hr Hs. rewrite !(deployed_checks_reach_all alb_ip sp s r) by done.
  destruct (health_checks_live deployed_params st 5 ltac:(vm_compute; lia) ltac:(vm_compute; lia) Hs)
    as [Hh _].
  destruct (health_checks_live deployed_params st 2 ltac:(vm_compute; lia) ltac:(vm_compute; lia) Hs)
    as [_ Hu].
  split_and!; [vm_compute; reflexivity..|apply Hh|apply Hu]; vm_compute; lia.
Qed.

Lemma deployed_targets_live_witness :
  ts_health (health_run deployed_params
    (check_passes final_state alb_path 167772170 deployed_service deployed_registration
       <$> replicate 5 true) target_registered) = HHealthy.
Proof.
  destruct (deployed_targets_live 167772170 service_path deployed_service deployed_registration
              target_registered) as (_ & _ & _ & _ & _ & H & _).
  - rewrite deployed_registrations. by apply list_elem_of_singleton.
  - constructor.
  - exact H.
Defined.

