(* ===== verification/Layout.v ===== *)
(** * The network layout of the deployed stack

    What lines 12-27 ([maxAzs: 2], [natGateways: 1], a public and a
    private-with-NAT /24 configuration), line 62 (the service in the
    [PRIVATE_WITH_NAT] subnets) and line 74 (an internet-facing ALB) give
    on the tree that src/bin/type-task.ts builds: the subnet blocks, their
    zones and routes, and where the service and the load balancer run. *)

From stdpp Require Import base gmap strings list fin_maps.
From Stdlib Require Import ZArith.
From S2P Require Import Prelude Constructs Cidr Resources Network SecurityGroups Elb Ecs Stack Traffic.

Local Open Scope Z_scope.

Definition vpc_path : path := ["TypeTaskStack"; "VPC"].

Definition subnet_at (t : St) (p : path) : list (path * Subnet) :=
  match t !! p with Some (NSubnet s) => [(p, s)] | _ => [] end.

(** The subnets of the VPC at [v], public ones first, as the VPC lists them. *)
Definition vpc_subnets (t : St) (v : path) : list (path * Subnet) :=
  match t !! v with
  | Some (NVpc x) => flat_map (subnet_at t) (vpc_public x ++ vpc_private x ++ vpc_isolated x)
  | _ => []
  end.

(** One line per subnet: its type, zone and printed block. *)
Definition subnet_table (t : St) (v : path) : list (SubnetType * string * string) :=
  map (λ ps, (sn_type ps.2, sn_az ps.2, cidr_string (sn_cidr ps.2))) (vpc_subnets t v).

Fixpoint pairwise_disjoint (l : list cidr) : bool :=
  match l with
  | [] => true
  | b :: l' => forallb (disjoint_cidr b) l' && pairwise_disjoint l'
  end.

Definition vpc_range (t : St) (v : path) : option cidr :=
  match t !! v with Some (NVpc x) => Some (vpc_cidr x) | _ => None end.

Definition az0 : string := "Fn::Select[0, Fn::GetAZs]".
Definition az1 : string := "Fn::Select[1, Fn::GetAZs]".

(** (C16) The VPC of the stack spans 10.0.0.0/16 over two zones and has four
    /24 subnets: a public one per zone (10.0.0.0/24, 10.0.1.0/24), then a
    private one per zone (10.0.2.0/24, 10.0.3.0/24).  The four blocks lie
    inside the VPC range and are pairwise disjoint. *)
Theorem vpc_subnet_layout :
  option_map cidr_string (vpc_range final_state vpc_path) = Some "10.0.0.0/16" ∧
  subnet_table final_state vpc_path =
    [(PUBLIC, az0, "10.0.0.0/24"); (PUBLIC, az1, "10.0.1.0/24");
     (PRIVATE_WITH_NAT, az0, "10.0.2.0/24"); (PRIVATE_WITH_NAT, az1, "10.0.3.0/24")] ∧
  (∀ net, vpc_range final_state vpc_path = Some net →
     forallb (λ ps, contains_cidr net (sn_cidr ps.2)) (vpc_subnets final_state vpc_path) = true) ∧
  pairwise_disjoint (map (λ ps, sn_cidr ps.2) (vpc_subnets final_state vpc_path)) = true.
Proof.
  split; [vm_compute; reflexivity|]. split; [vm_compute; reflexivity|].
  split; [|vm_compute; reflexivity].
  intros net Hnet. assert (Hq : Some net = vpc_range final_state vpc_path) by done.
  vm_compute in Hq. injection Hq as ->. vm_compute. reflexivity.
Qed.

(** The zone of the subnet that hosts the NAT gateway a subnet routes to. *)
Definition nat_zone (t : St) (s : Subnet) : option string :=
  match sn_default_route s with
  | Some (ViaNatGateway p) => match t !! p with Some (NSubnet h) => Some (sn_az h) | _ => None end
  | _ => None
  end.

(** (C17) Public subnets route to the internet gateway.  Private subnets
    route through the single NAT gateway ([natGateways: 1]), which sits in
    the public subnet of the first zone.  So the private subnet of the
    second zone sends its outbound traffic across zones: its tasks lose
    egress when the first zone fails. *)
Theorem single_nat_cross_zone :
  map (λ ps, (sn_type ps.2, sn_az ps.2, sn_default_route ps.2, nat_zone final_state ps.2))
      (vpc_subnets final_state vpc_path) =
    [(PUBLIC, az0, Some ViaInternetGateway, None);
     (PUBLIC, az1, Some ViaInternetGateway, None);
     (PRIVATE_WITH_NAT, az0, Some (ViaNatGateway (vpc_path ++ ["public-subnet1Subnet1"])), Some az0);
     (PRIVATE_WITH_NAT, az1, Some (ViaNatGateway (vpc_path ++ ["public-subnet1Subnet1"])), Some az0)].
Proof. vm_compute. reflexivity. Qed.

Definition service_subnets (t : St) (p : path) : list path :=
  match t !! p with Some (NService s) => sv_subnets s | _ => [] end.

Definition alb_subnets_of (t : St) (p : path) : list path :=
  match t !! p with Some (NLoadBalancer a) => alb_subnets a | _ => [] end.

Definition subnet_kind (t : St) (p : path) : option (SubnetType * string) :=
  match t !! p with Some (NSubnet s) => Some (sn_type s, sn_az s) | _ => None end.

(** (C19) The service runs in the two private subnets, one per zone, and
    the internet-facing ALB in the two public ones. *)
Theorem service_and_alb_placement :
  map (subnet_kind final_state) (service_subnets final_state service_path) =
    [Some (PRIVATE_WITH_NAT, az0); Some (PRIVATE_WITH_NAT, az1)] ∧
  map (subnet_kind final_state) (alb_subnets_of final_state alb_path) =
    [Some (PUBLIC, az0); Some (PUBLIC, az1)].
Proof. split; vm_compute; reflexivity. Qed.

(** ** The number of NAT gateways *)

(** Line 14 with [natGateways: n]. *)
Definition vpc_props_nat (n : nat) : VpcProps :=
  {| vp_maxAzs := vp_maxAzs vpc_props; vp_natGateways := Some n;
     vp_subnetConfiguration := vp_subnetConfiguration vpc_props |}.

(** Lines 12-27 with [natGateways: n], in the stack. *)
Definition network_with_nat (n : nat) : result (path * St) :=
  vpc_new ["TypeTaskStack"] "VPC" (vpc_props_nat n) {[ [] := NApp; ["TypeTaskStack"] := NStack ]}.

(** Every private subnet routes through a NAT gateway of its own zone. *)
Definition egress_in_zone (t : St) (v : path) : bool :=
  forallb (λ ps, bool_decide (nat_zone t ps.2 = Some (sn_az ps.2)))
    (filter (λ ps, is_private_type (sn_type ps.2)) (vpc_subnets t v)).

Definition network_egress_in_zone (r : result (path * St)) : option bool :=
  match r with Ok (v, t) => Some (egress_in_zone t v) | Err _ => None end.

(** With two zones, a request for more gateways than zones gets one per zone. *)
Lemma determine_nat_gateway_count_cap (n : nat) cfg :
  (2 ≤ n)%nat → determine_nat_gateway_count (Some n) cfg 2%nat = determine_nat_gateway_count (Some 2%nat) cfg 2%nat.
Proof. intros Hn. unfold determine_nat_gateway_count. by rewrite Nat.min_r, Nat.min_id by lia. Qed.

Lemma network_with_nat_cap (n : nat) : (2 ≤ n)%nat → network_with_nat n = network_with_nat 2%nat.
Proof.
  intros Hn. unfold network_with_nat, vpc_new. simpl.
  by rewrite (determine_nat_gateway_count_cap n) by done.
Qed.

(** (C18) What line 14 decides, for every value of [natGateways]: with 0
    the VPC throws, since the private subnets need a NAT gateway; with 1
    (the source's value) some private subnet sends its egress to a gateway
    of another zone; with 2 or more, every private subnet routes through
    a gateway of its own zone. *)
Theorem nat_gateways_egress :
  network_with_nat 0 =
    Err "If you do not want NAT gateways (natGateways=0), make sure you don't configure any PRIVATE(_WITH_NAT) subnets in 'subnetConfiguration' (make them PUBLIC or ISOLATED instead)" ∧
  network_egress_in_zone (network_with_nat 1) = Some false ∧
  ∀ n : nat, (2 ≤ n)%nat → network_egress_in_zone (network_with_nat n) = Some true.
Proof.
  split; [vm_compute; reflexivity|]. split; [vm_compute; reflexivity|].
  intros n Hn. rewrite network_with_nat_cap by done. vm_compute. reflexivity.
Qed.

Lemma nat_gateways_egress_witness : network_egress_in_zone (network_with_nat 3) = Some true.
Proof. apply (proj2 (proj2 nat_gateways_egress)). lia. Defined.


Lemma vpc_new_subnets_disjoint_witness :
  match network_with_nat 1 with
  | Ok (v, t') =>
      match t' !! v with
      | Some (NVpc x) =>
          ∃ bs, map (subnet_block t') (vpc_public x ++ vpc_private x ++ vpc_isolated x)
                = map Some bs ∧
            NoDup bs ∧ (∀ a b, a ∈ bs → b ∈ bs → a ≠ b → disjoint_cidr a b = true) ∧
            Forall (λ b, contains_cidr (vpc_cidr x) b = true) bs
      | _ => False
      end
  | Err _ => False
  end.
Proof.
  assert (Hk : match network_with_nat 1 with
               | Ok (v, t') => match t' !! v with Some (NVpc _) => true | _ => false end
               | Err _ => false
               end = true) by (vm_compute; reflexivity).
  destruct (network_with_nat 1) as [[v t']|e] eqn:E; [|discriminate Hk].
  destruct (t' !! v) as [[| |x| | | | | | | | | | | | | | |]|] eqn:Hx; try discriminate Hk.
  unfold network_with_nat in E. exact (vpc_new_subnets_disjoint _ _ _ _ v t' x E Hx).
Defined.
