(* ===== verification/Typing.v ===== *)
(** * References between constructs, and their kinds

    The library's objects hold references to one another: a service holds
    its cluster, task definition, subnets, security groups and target
    groups; a task definition holds its containers; a listener holds its
    load balancer and target groups; an output holds the attribute of a
    resource.  In the model a reference is a path of the construct tree.
    [node_refs] lists the references a node holds, each with the kind of
    node it must denote.  [well_typed] says every reference of every node
    denotes a node of that kind: no reference dangles or points to a node
    of the wrong kind.  [refs_okb] decides it. *)

From stdpp Require Import base gmap strings list fin_maps.
From Stdlib Require Import ZArith.
From S2P Require Import Prelude Constructs Cidr Resources Network SecurityGroups Elb Ecs Stack Traffic.

Inductive Kind :=
| KApp | KStack | KVpc | KSubnet | KCluster | KSecurityGroup | KSecurityGroupIngress
| KSecurityGroupEgress | KTaskDefinition | KContainer | KService | KLoadBalancer
| KListener | KTargetGroup | KOutput | KRole | KPolicy | KLogGroup.

#[export] Instance Kind_eq_dec : EqDecision Kind.
Proof. solve_decision. Defined.

Definition kind_of (n : Node) : Kind :=
  match n with
  | NApp => KApp | NStack => KStack | NVpc _ => KVpc | NSubnet _ => KSubnet
  | NCluster _ => KCluster | NSecurityGroup _ => KSecurityGroup
  | NSecurityGroupIngress _ => KSecurityGroupIngress
  | NSecurityGroupEgress _ => KSecurityGroupEgress
  | NTaskDefinition _ => KTaskDefinition | NContainer _ => KContainer
  | NService _ => KService | NLoadBalancer _ => KLoadBalancer
  | NListener _ => KListener | NTargetGroup _ => KTargetGroup | NOutput _ => KOutput
  | NRole _ => KRole | NPolicy _ => KPolicy | NLogGroup _ => KLogGroup
  end.

Definition refs_of (k : Kind) (ps : list path) : list (path * option Kind) :=
  map (λ p, (p, Some k)) ps.

Definition opt_list {A} (o : option A) : list A := match o with Some x => [x] | None => [] end.

Definition token_ref (tk : Token) : path * option Kind := match tk with GetAtt p _ => (p, None) end.

(** The references a node holds, with the kind each must denote ([None]:
    any construct, as for the resource of a [Fn::GetAtt]). *)
Definition node_refs (n : Node) : list (path * option Kind) :=
  match n with
  | NApp | NStack => []
  | NVpc v => refs_of KSubnet (vpc_public v ++ vpc_private v ++ vpc_isolated v ++ vpc_nat_subnets v)
  | NSubnet s =>
      match sn_default_route s with Some (ViaNatGateway p) => refs_of KSubnet [p] | _ => [] end
  | NCluster c => refs_of KVpc [cl_vpc c]
  | NSecurityGroup g => refs_of KVpc [sg_vpc g]
  | NSecurityGroupIngress i | NSecurityGroupEgress i =>
      refs_of KSecurityGroup [sgi_group i; sgi_source i]
  | NTaskDefinition d =>
      refs_of KContainer (td_containers d ++ opt_list (td_defaultContainer d))
      ++ refs_of KRole (opt_list (td_taskRole d) ++ opt_list (td_executionRole d))
  | NContainer c =>
      refs_of KTaskDefinition [ct_taskDefinition c] ++ refs_of KLogGroup (opt_list (ct_logGroup c))
  | NService s =>
      refs_of KCluster [sv_cluster s] ++ refs_of KTaskDefinition [sv_taskDefinition s]
      ++ refs_of KSubnet (sv_subnets s) ++ refs_of KSecurityGroup (sv_securityGroups s)
      ++ refs_of KTargetGroup (map lb_targetGroup (sv_loadBalancers s))
  | NLoadBalancer a =>
      refs_of KVpc [alb_vpc a] ++ refs_of KSecurityGroup [alb_securityGroup a]
      ++ refs_of KSubnet (alb_subnets a) ++ refs_of KListener (alb_listeners a)
  | NListener l =>
      refs_of KLoadBalancer [ls_loadBalancer l] ++ refs_of KTargetGroup (ls_defaultTargetGroups l)
  | NTargetGroup g =>
      refs_of KVpc [tg_vpc g] ++ refs_of KSecurityGroup (concat (map fst (tg_members g)))
      ++ refs_of KListener (tg_listeners g)
  | NOutput o => [token_ref (op_value o)]
  | NRole r => refs_of KPolicy (opt_list (role_defaultPolicy r))
  | NPolicy p =>
      refs_of KRole (pol_roles p) ++ map token_ref (concat (map ps_resources (pol_statements p)))
  | NLogGroup _ => []
  end.

(** The reference [p] denotes a node of kind [k]. *)
Definition ref_ok (t : St) (p : path) (k : option Kind) : Prop :=
  ∃ n, t !! p = Some n ∧ match k with Some k => kind_of n = k | None => True end.

Definition well_typed (t : St) : Prop :=
  map_Forall (λ _ n, Forall (λ '(p, k), ref_ok t p k) (node_refs n)) t.

Definition ref_okb (t : St) (p : path) (k : option Kind) : bool :=
  match t !! p, k with
  | Some n, Some k => bool_decide (kind_of n = k)
  | Some _, None => true
  | None, _ => false
  end.

Definition refs_okb (t : St) : bool :=
  forallb (λ kv, forallb (λ '(p, k), ref_okb t p k) (node_refs kv.2)) (map_to_list t).

(** ** Deciding the typing *)

Lemma ref_okb_spec t p k : ref_okb t p k = true ↔ ref_ok t p k.
Proof.
  unfold ref_okb, ref_ok. destruct (t !! p) as [n|], k as [k|]; simpl;
    rewrite ?bool_decide_eq_true; split; try naive_solver.
Qed.

Lemma refs_okb_spec t : refs_okb t = true ↔ well_typed t.
Proof.
  unfold refs_okb, well_typed. rewrite map_Forall_to_list, Forall_forall, forallb_forall.
  split; intros Hall [p n] Hin%list_elem_of_In; specialize (Hall (p, n));
    [apply Forall_forall|apply forallb_forall]; intros [q k] Hq%list_elem_of_In.
  - apply ref_okb_spec. apply (proj1 (forallb_forall _ _) (Hall Hin) (q, k)). exact Hq.
  - apply ref_okb_spec. apply (proj1 (Forall_forall _ _) (Hall Hin) (q, k)). exact Hq.
Qed.


(** ** Typing beside other constructs *)

Lemma ref_ok_weaken t t' p k : t ⊆ t' → ref_ok t p k → ref_ok t' p k.
Proof. intros Hsub (n & Hn & Hk). exists n. split; [by eapply lookup_weaken|done]. Qed.

(** The references of a well-typed tree stay well typed in a larger tree. *)
Lemma well_typed_weaken_refs t t' : t ⊆ t' → well_typed t →
  map_Forall (λ _ n, Forall (λ '(p, k), ref_ok t' p k) (node_refs n)) t.
Proof.
  intros Hsub Hwt q n Hq. eapply Forall_impl; [exact (Hwt q n Hq)|].
  intros [p k]. by apply ref_ok_weaken.
Qed.

(** ** The deployed tree *)

Lemma final_state_refs : well_typed final_state.
Proof. apply refs_okb_spec. vm_compute. reflexivity. Qed.

Lemma app_new_final : app_new ⊆ final_state.
Proof. apply map_singleton_subseteq_l. vm_compute. reflexivity. Qed.

Lemma app_main_final : app_main = Ok (["TypeTaskStack"], final_state).
Proof.
  assert (Hp : (match app_main with Ok (p, _) => p | Err _ => [] end) = ["TypeTaskStack"])
    by (vm_compute; reflexivity).
  unfold final_state. destruct app_main as [[p st]|e]; [by subst p|discriminate].
Qed.

