(* ===== verification/Access.v ===== *)
(** * Who may do what: the IAM roles and grants of the deployed stack

    The stack writes no IAM statement itself; the library makes the task
    role of the task definition (line 40), and the [awslogs] driver of
    the container (line 48) makes the execution role and grants it the
    right to write to the container's log group.  [iam_grants] lists, for
    every policy of a tree, the roles it is attached to and its statements. *)

From stdpp Require Import base gmap strings list fin_maps.
From Stdlib Require Import ZArith.
From S2P Require Import Prelude Constructs Cidr Resources Iam Ecs Stack Traffic.

(** Every (role, actions, resources) that a policy of the tree grants. *)
Definition iam_grants (t : St) : list (path * list string * list Token) :=
  flat_map (λ kv, match kv.2 with
                  | NPolicy p =>
                      flat_map (λ r, map (λ st, (r, ps_actions st, ps_resources st))
                                         (pol_statements p)) (pol_roles p)
                  | _ => []
                  end) (map_to_list t).

(** Every role of the tree, with the principal that may assume it. *)
Definition iam_roles (t : St) : list (path * string) :=
  flat_map (λ kv, match kv.2 with NRole r => [(kv.1, role_assumedBy r)] | _ => [] end)
    (map_to_list t).

Definition task_def_path : path := ["TypeTaskStack"; "TaskDef"].
Definition container_path : path := ["TypeTaskStack"; "TaskDef"; "DefaultContainer"].

(** The roles and log group of the task definition and its container. *)
Definition task_roles (t : St) : option (option path * option path) :=
  match t !! task_def_path with
  | Some (NTaskDefinition d) => Some (td_taskRole d, td_executionRole d)
  | _ => None
  end.

Definition container_log_group (t : St) : option (option path) :=
  match t !! container_path with Some (NContainer c) => Some (ct_logGroup c) | _ => None end.

Definition log_group_retention (t : St) (p : path) : option (option Z) :=
  match t !! p with Some (NLogGroup l) => Some (lg_retentionDays l) | _ => None end.

(** (C10) Least privilege: the deployed stack has two roles, the task role
    and the execution role of the task definition, which only ECS tasks
    may assume.  The only permission any policy grants is the execution
    role's right to create log streams and put log events in the
    container's own log group; the task role, which the application's
    code runs with, has no permission at all.  The log group has no
    retention: its events never expire. *)
Theorem deployed_least_privilege :
  task_roles final_state =
    Some (Some (task_def_path ++ ["TaskRole"]), Some (task_def_path ++ ["ExecutionRole"])) ∧
  container_log_group final_state = Some (Some (container_path ++ ["LogGroup"])) ∧
  iam_roles final_state =
    [(task_def_path ++ ["ExecutionRole"], ecs_tasks_principal);
     (task_def_path ++ ["TaskRole"], ecs_tasks_principal)] ∧
  iam_grants final_state =
    [(task_def_path ++ ["ExecutionRole"], ["logs:CreateLogStream"; "logs:PutLogEvents"],
      [GetAtt (container_path ++ ["LogGroup"]) "Arn"])] ∧
  log_group_retention final_state (container_path ++ ["LogGroup"]) = Some None.
Proof. split_and!; vm_compute; reflexivity. Qed.
