(* ===== verification/Synth.v ===== *)
(** * Synthesis and the repository's test

    src/test/type-task.test.ts builds [TypeTaskStack] under a fresh app
    as 'MyTestStack' and synthesises it with [Template.fromStack].  It
    then asserts [hasResourceProperties('AWS::SQS::Queue',
    { VisibilityTimeout: 300 })] and [resourceCountIs('AWS::SNS::Topic', 1)].
    [synth] lists the CloudFormation resources that each construct of the
    stack's subtree synthesises, with the properties the stack sets.
    Every subnet has its route table and the table's association.  Each
    resource is named by [LogicalId.allocate_logical_id] of the ids from
    below the stack down to it, as the library names it. *)

From stdpp Require Import base gmap strings list pretty fin_maps.
From Stdlib Require Import ZArith.
From S2P Require Import Prelude LogicalId Constructs Cidr Resources Network SecurityGroups Elb Ecs Stack.

Local Open Scope Z_scope.

Inductive Value := VStr (s : string) | VNum (n : Z) | VBool (b : bool).

#[export] Instance Value_eq_dec : EqDecision Value.
Proof. solve_decision. Defined.

Record Resource := {
  r_logicalId : string;
  r_type : string;
  r_props : list (string * Value)
}.

Abbreviation Template := (list Resource).

Definition port_props (p : Port) : list (string * Value) :=
  match p with
  | PortTcp n => [("IpProtocol", VStr "tcp"); ("FromPort", VNum n); ("ToPort", VNum n)]
  | PortUdp n => [("IpProtocol", VStr "udp"); ("FromPort", VNum n); ("ToPort", VNum n)]
  | PortTcpRange lo hi => [("IpProtocol", VStr "tcp"); ("FromPort", VNum lo); ("ToPort", VNum hi)]
  end.

Definition protocol_string (p : ApplicationProtocol) : string :=
  match p with HTTP => "HTTP" | HTTPS => "HTTPS" end.

(** Whether a subnet hosts a NAT gateway of some VPC of the tree. *)
Definition hosts_nat (t : St) (p : path) : bool :=
  existsb (λ kv, match kv.2 with NVpc v => bool_decide (p ∈ vpc_nat_subnets v) | _ => false end)
    (map_to_list t).

(** The resources one construct synthesises.  [comps] are the ids from
    the stack down to the construct; each resource is the construct's
    child of the id the library gives it ([Resource] for most), and is
    named by [makeUniqueId] of its own path. *)
Definition node_resources (t : St) (p : path) (comps : list string) (n : Node) : list Resource :=
  let child c ty props := {| r_logicalId := allocate_logical_id (comps ++ [c]); r_type := ty;
                             r_props := props |} in
  let res ty props := child "Resource" ty props in
  match n with
  | NApp | NStack | NContainer _ | NOutput _ => []
  | NVpc v =>
      [res "AWS::EC2::VPC" [("CidrBlock", VStr (cidr_string (vpc_cidr v)));
                            ("EnableDnsHostnames", VBool true); ("EnableDnsSupport", VBool true)]]
      ++ (if decide (vpc_public v = []) then []
          else [child "IGW" "AWS::EC2::InternetGateway" [];
                child "VPCGW" "AWS::EC2::VPCGatewayAttachment" []])
  | NSubnet s =>
      [child "Subnet" "AWS::EC2::Subnet" [("CidrBlock", VStr (cidr_string (sn_cidr s)));
                               ("AvailabilityZone", VStr (sn_az s));
                               ("MapPublicIpOnLaunch", VBool (is_public_type (sn_type s)))];
       child "RouteTable" "AWS::EC2::RouteTable" [];
       child "RouteTableAssociation" "AWS::EC2::SubnetRouteTableAssociation" []]
      ++ (match sn_default_route s with
          | Some _ => [child "DefaultRoute" "AWS::EC2::Route" [("DestinationCidrBlock", VStr "0.0.0.0/0")]]
          | None => []
          end)
      ++ (if hosts_nat t p then
            [child "EIP" "AWS::EC2::EIP" []; child "NATGateway" "AWS::EC2::NatGateway" []]
          else [])
  | NCluster _ => [res "AWS::ECS::Cluster" []]
  | NSecurityGroup g => [res "AWS::EC2::SecurityGroup" [("GroupDescription", VStr (sg_description g))]]
  | NSecurityGroupIngress i =>
      [{| r_logicalId := allocate_logical_id comps; r_type := "AWS::EC2::SecurityGroupIngress";
          r_props := port_props (sgi_port i) ++ [("Description", VStr (sgi_description i))] |}]
  | NSecurityGroupEgress e =>
      [{| r_logicalId := allocate_logical_id comps; r_type := "AWS::EC2::SecurityGroupEgress";
          r_props := port_props (sgi_port e) ++ [("Description", VStr (sgi_description e))] |}]
  | NTaskDefinition td =>
      [res "AWS::ECS::TaskDefinition"
           [("Cpu", VStr (pretty (Z.to_N (td_cpu td)))); ("Memory", VStr (pretty (Z.to_N (td_memory td))));
            ("NetworkMode", VStr (match td_networkMode td with
                                  | AWS_VPC => "awsvpc" | BRIDGE => "bridge"
                                  | HOST => "host" | NONE => "none" end))]]
  | NService s =>
      [child "Service" "AWS::ECS::Service"
           ((match sv_desiredCount s with
             | Some n => [("DesiredCount", VNum (Z.of_nat n))] | None => [] end)
            ++ [("LaunchType", VStr "FARGATE")])]
  | NLoadBalancer a =>
      [res "AWS::ElasticLoadBalancingV2::LoadBalancer"
           [("Scheme", VStr (if alb_internetFacing a then "internet-facing" else "internal"));
            ("Type", VStr "application")]]
  | NListener l =>
      [res "AWS::ElasticLoadBalancingV2::Listener"
           [("Port", VNum (ls_port l)); ("Protocol", VStr (protocol_string (ls_protocol l)))]]
  | NTargetGroup g =>
      [res "AWS::ElasticLoadBalancingV2::TargetGroup"
           ([("Port", VNum (tg_port g)); ("Protocol", VStr (protocol_string (tg_protocol g)))]
            ++ (match tg_targetType g with
                | Some IP => [("TargetType", VStr "ip")] | _ => [] end)
            ++ (match tg_healthCheck g with
                | Some h =>
                    (match hc_path h with Some s => [("HealthCheckPath", VStr s)] | None => [] end)
                    ++ (match hc_interval h with
                        | Some n => [("HealthCheckIntervalSeconds", VNum n)] | None => [] end)
                | None => [] end))]
  | NRole r =>
      [res "AWS::IAM::Role"
           [("AssumeRolePolicyDocument.Statement.0.Action", VStr "sts:AssumeRole");
            ("AssumeRolePolicyDocument.Statement.0.Principal.Service", VStr (role_assumedBy r))]]
  | NPolicy p =>
      [res "AWS::IAM::Policy"
           [("PolicyDocument.Statement.Action",
             VStr (String.concat "," (concat (map ps_actions (pol_statements p)))));
            ("Roles", VNum (Z.of_nat (length (pol_roles p))))]]
  | NLogGroup l =>
      [res "AWS::Logs::LogGroup"
           (match lg_retentionDays l with Some n => [("RetentionInDays", VNum n)] | None => [] end)]
  end.

(** The constructs of the stack's subtree, in the order of their paths. *)
Definition stack_nodes (t : St) (stack : path) : list (path * Node) :=
  filter (λ kv, stack `prefix_of` kv.1) (map_to_list t).

(** The ids of the scopes below the stack, down to the construct. *)
Definition relative_path (stack p : path) : list string := drop (length stack) p.

Definition synth (t : St) (stack : path) : Template :=
  flat_map (λ kv, node_resources t kv.1 (relative_path stack kv.1) kv.2) (stack_nodes t stack).

(** [node.validate()] of the constructs that check themselves at
    synthesis: a listener needs a default action, a service a task
    definition with an essential container. *)
Definition node_errors (t : St) (n : Node) : list string :=
  match n with
  | NListener l =>
      if decide (ls_defaultTargetGroups l = []) then
        ["Listener needs at least one default action or target group (call addTargetGroups or addAction)"]
      else []
  | NService s =>
      match t !! sv_taskDefinition s with
      | Some (NTaskDefinition td) =>
          if decide (td_defaultContainer td = None) then
            ["A TaskDefinition must have at least one essential container"] else []
      | _ => []
      end
  | _ => []
  end.

(** [Template.fromStack(stack)]: synthesis, which throws on validation errors. *)
Definition template_from_stack (t : St) (stack : path) : result Template :=
  match flat_map (λ kv, node_errors t kv.2) (stack_nodes t stack) with
  | [] => Ok (synth t stack)
  | e :: _ => Err ("Validation failed with the following errors: " +:+ e)
  end.

(** ** The assertions of aws-cdk-lib/assertions *)

Definition resource_count (tpl : Template) (ty : string) : nat :=
  length (filter (λ r, r_type r = ty) tpl).

(** [Match.objectLike(props)]: every given key with the given value. *)
Definition props_like (expected actual : list (string * Value)) : bool :=
  forallb (λ kv, bool_decide (kv ∈ actual)) expected.

(** [template.hasResourceProperties(type, props)]: throws unless some
    resource of that type has the properties. *)
Definition has_resource_properties (tpl : Template) (ty : string) (props : list (string * Value))
    : result unit :=
  if existsb (λ r, bool_decide (r_type r = ty) && props_like props (r_props r)) tpl then Ok ()
  else Err ("Template has " +:+ pretty (N.of_nat (resource_count tpl ty))
            +:+ " resources with type " +:+ ty +:+ ", but none match as expected.").

(** [template.resourceCountIs(type, count)] *)
Definition resource_count_is (tpl : Template) (ty : string) (n : nat) : result unit :=
  if decide (resource_count tpl ty = n) then Ok ()
  else Err ("Expected " +:+ pretty (N.of_nat n) +:+ " resources of type " +:+ ty
            +:+ " but found " +:+ pretty (N.of_nat (resource_count tpl ty))).

(** The test 'SQS Queue and SNS Topic Created': [Ok ()] when it passes,
    the message of the first failing step otherwise. *)
Definition type_task_test : result unit :=
  match type_task_stack [] "MyTestStack" app_new return result unit with
  | Err e => Err e
  | Ok (stack, t) =>
      match template_from_stack t stack return result unit with
      | Err e => Err e
      | Ok tpl =>
          match has_resource_properties tpl "AWS::SQS::Queue" [("VisibilityTimeout", VNum 300)] with
          | Err e => Err e
          | Ok _ => resource_count_is tpl "AWS::SNS::Topic" 1
          end
      end
  end.

(** ** The template of the test's stack *)

Definition test_template : result Template :=
  match type_task_stack [] "MyTestStack" app_new return result Template with
  | Ok (stack, t) => template_from_stack t stack
  | Err e => Err e
  end.

(** The repository's test fails: the stack declares no SQS queue and
    no SNS topic, so the template has none and the first assertion,
    [hasResourceProperties('AWS::SQS::Queue', ...)], throws. *)
Theorem type_task_test_fails :
  type_task_test = Err "Template has 0 resources with type AWS::SQS::Queue, but none match as expected." ∧
  match test_template with
  | Ok tpl => resource_count tpl "AWS::SQS::Queue" = 0%nat ∧ resource_count tpl "AWS::SNS::Topic" = 0%nat
  | Err _ => False
  end.
Proof. split; vm_compute; [reflexivity|split; reflexivity]. Qed.

(** (C12) The synthesised template has the resources and values that the
    source declares, each kind once where the source declares one:
    - one VPC on 10.0.0.0/16, four subnets and one NAT gateway
      (natGateways: 1);
    - one Fargate task definition with 256 CPU units and 512 MiB in
      awsvpc mode;
    - one service with 2 desired tasks;
    - one internet-facing ALB, one HTTP listener on 80, one target group
      of IP targets on 8080 with health check path "/" every 30 s;
    - two security groups and one group-to-group ingress rule. *)
Theorem template_schema :
  match test_template with
  | Ok tpl =>
      resource_count tpl "AWS::EC2::VPC" = 1%nat ∧
      has_resource_properties tpl "AWS::EC2::VPC" [("CidrBlock", VStr "10.0.0.0/16")] = Ok () ∧
      resource_count tpl "AWS::EC2::Subnet" = 4%nat ∧
      resource_count tpl "AWS::EC2::NatGateway" = 1%nat ∧
      resource_count tpl "AWS::ECS::TaskDefinition" = 1%nat ∧
      has_resource_properties tpl "AWS::ECS::TaskDefinition"
        [("Cpu", VStr "256"); ("Memory", VStr "512"); ("NetworkMode", VStr "awsvpc")] = Ok () ∧
      resource_count tpl "AWS::ECS::Service" = 1%nat ∧
      has_resource_properties tpl "AWS::ECS::Service" [("DesiredCount", VNum 2)] = Ok () ∧
      resource_count tpl "AWS::ElasticLoadBalancingV2::LoadBalancer" = 1%nat ∧
      has_resource_properties tpl "AWS::ElasticLoadBalancingV2::LoadBalancer"
        [("Scheme", VStr "internet-facing")] = Ok () ∧
      resource_count tpl "AWS::ElasticLoadBalancingV2::Listener" = 1%nat ∧
      has_resource_properties tpl "AWS::ElasticLoadBalancingV2::Listener"
        [("Port", VNum 80); ("Protocol", VStr "HTTP")] = Ok () ∧
      resource_count tpl "AWS::ElasticLoadBalancingV2::TargetGroup" = 1%nat ∧
      has_resource_properties tpl "AWS::ElasticLoadBalancingV2::TargetGroup"
        [("Port", VNum 8080); ("Protocol", VStr "HTTP"); ("TargetType", VStr "ip");
         ("HealthCheckPath", VStr "/"); ("HealthCheckIntervalSeconds", VNum 30)] = Ok () ∧
      resource_count tpl "AWS::EC2::SecurityGroup" = 2%nat ∧
      resource_count tpl "AWS::EC2::SecurityGroupIngress" = 1%nat
  | Err _ => False
  end.
Proof. vm_compute. repeat split. Qed.

(** The logical ids of the resources of one type. *)
Definition ids_of_type (tpl : Template) (ty : string) : list string :=
  map r_logicalId (filter (λ r, r_type r = ty) tpl).

(** (C13) The template names its resources as the library does, by
    [makeUniqueId] of their paths below the stack: the names are
    distinct, as CloudFormation requires, letters and digits only, and,
    for instance, the VPC is [VPCB9E5F0B4], the task definition
    [TaskDef54694570], its task role [TaskDefTaskRole1EDB4A67] and the
    service [FargateServiceAC2B3B85]; the rule of line 56 is named after
    the unique id of the ALB's group and the port.  Each of the four
    subnets has its route table and the table's association. *)
Theorem template_logical_ids :
  match test_template with
  | Ok tpl =>
      bool_decide (NoDup (map r_logicalId tpl)) = true ∧
      forallb (λ r, alnum_string (r_logicalId r)) tpl = true ∧
      ids_of_type tpl "AWS::EC2::VPC" = ["VPCB9E5F0B4"] ∧
      resource_count tpl "AWS::EC2::RouteTable" = 4%nat ∧
      resource_count tpl "AWS::EC2::SubnetRouteTableAssociation" = 4%nat ∧
      ids_of_type tpl "AWS::ECS::TaskDefinition" = ["TaskDef54694570"] ∧
      "TaskDefTaskRole1EDB4A67" ∈ ids_of_type tpl "AWS::IAM::Role" ∧
      ids_of_type tpl "AWS::ECS::Service" = ["FargateServiceAC2B3B85"] ∧
      ids_of_type tpl "AWS::EC2::SecurityGroupIngress" =
        ["ServiceSecurityGroupfromMyTestStackAlbSecurityGroup21E3D8988080F9A8C8BE"]
  | Err _ => False
  end.
Proof.
  vm_compute. split_and!; try reflexivity.
  apply list_elem_of_In. vm_compute. auto.
Qed.
